(** * File explorer server: blob store, catalog and upload pipeline

    A shallow embedding of the Express/SQLite server of the file explorer
    (the routes under [/api]), of the reset script that recreates the
    database, and of the platform functions the routes call ([Buffer],
    [path.extname], [path.join], [String.prototype.trim], [fs], the
    binding of a text to a statement, [res.sendFile]).

    A route is a function from the state (catalog and content directory)
    to an outcome and a state.  Each database statement of a route takes a
    boolean that says whether the statement fails, so that the error
    branches of the callbacks are part of the model; so does the opening
    of a blob for writing.  What a route reads from the clock and the
    random generator is an argument. *)

From Stdlib Require Import ZArith Lia Bool String Ascii DecimalString Sorted.
From stdpp Require Import base list gmap.

Local Open Scope Z_scope.

(** ** JavaScript strings

    A JavaScript string is a sequence of UTF-16 code units; a [Buffer] is a
    sequence of bytes.  Both are lists of integers here. *)

Abbreviation jsstring := (list Z) (only parsing).
Abbreviation bytes := (list Z) (only parsing).

Module Js.

(** An ASCII literal as code units. *)
Fixpoint lit (s : string) : jsstring :=
  match s with
  | EmptyString => []
  | String a s' => Z.of_N (N_of_ascii a) :: lit s'
  end.

Arguments lit : simpl never.

(** Template literal rendering of a non-negative integer such as
    [Date.now()]. *)
Definition ofNumber (n : Z) : jsstring :=
  lit (NilZero.string_of_uint (N.to_uint (Z.to_N n))).

(** Result of evaluating an expression that may throw. *)
Inductive completion (A : Type) : Type :=
| Normal (a : A)
| Throw (message : jsstring).
Arguments Normal {A} a.
Arguments Throw {A} message.

Definition is_upper (c : Z) : bool := (65 <=? c) && (c <=? 90).

(** [toLowerCase] on the letters A-Z.  The server only lowercases an
    extension to compare it with [".md"] and [".pdf"]; no code unit outside
    A-Z lowercases to one of the letters m, d, p, f. *)
Definition lower_unit (c : Z) : Z := if is_upper c then c + 32 else c.
Definition toLowerCase (s : jsstring) : jsstring := map lower_unit s.

(** White space and line terminators removed by [trim]. *)
Definition is_space (c : Z) : bool :=
  ((9 <=? c) && (c <=? 13)) || (c =? 32) || (c =? 160) || (c =? 5760)
  || ((8192 <=? c) && (c <=? 8202)) || (c =? 8232) || (c =? 8233)
  || (c =? 8239) || (c =? 8287) || (c =? 12288) || (c =? 65279).

Fixpoint trimStart (s : jsstring) : jsstring :=
  match s with
  | c :: s' => if is_space c then trimStart s' else s
  | [] => []
  end.

Definition trimEnd (s : jsstring) : jsstring := rev (trimStart (rev s)).
Definition trim (s : jsstring) : jsstring := trimEnd (trimStart s).

(** [s.slice(a, b)] for [0 <= a <= b <= s.length]. *)
Definition slice (s : jsstring) (a b : Z) : jsstring :=
  take (Z.to_nat (b - a)) (drop (Z.to_nat a) s).

(** [s.replace(".", "")]: the first full stop is removed. *)
Fixpoint removeFirstDot (s : jsstring) : jsstring :=
  match s with
  | [] => []
  | c :: s' => if c =? 46 then s' else c :: removeFirstDot s'
  end.

End Js.

(** ** Buffers: latin1 and UTF-8 *)

Module Buffer.
Import Js.

(** [Buffer.from(s, "latin1")]: one byte per code unit, its low 8 bits. *)
Definition from_latin1 (s : jsstring) : completion bytes :=
  Normal (map (fun cu => Z.land cu 255) s).

(** [buf.toString("latin1")]: one code unit per byte. *)
Definition toString_latin1 (buf : bytes) : jsstring := buf.

(** State of the UTF-8 decoder: the code point under construction, the
    number of continuation bytes still expected, and the range allowed
    for the next continuation byte. *)
Record utf8_state := Utf8State {
  code_point : Z;
  needed : Z;
  lower : Z;
  upper : Z
}.

Definition utf8_start : utf8_state := Utf8State 0 0 128 191.

Definition between (lo hi b : Z) : bool := (lo <=? b) && (b <=? hi).

(** A byte read when no sequence is open. *)
Definition utf8_lead (b : Z) : utf8_state * list Z :=
  if between 0 127 b then (utf8_start, [b])
  else if between 194 223 b then (Utf8State (Z.land b 31) 1 128 191, [])
  else if between 224 239 b then
    (Utf8State (Z.land b 15) 2
       (if b =? 224 then 160 else 128) (if b =? 237 then 159 else 191), [])
  else if between 240 244 b then
    (Utf8State (Z.land b 7) 3
       (if b =? 240 then 144 else 128) (if b =? 244 then 143 else 191), [])
  else (utf8_start, [65533]).

(** One byte.  A byte that cannot continue the open sequence closes it
    with U+FFFD and is read again as a lead byte. *)
Definition utf8_step (s : utf8_state) (b : Z) : utf8_state * list Z :=
  if needed s =? 0 then utf8_lead b
  else if between (lower s) (upper s) b then
    let cp := Z.lor (Z.shiftl (code_point s) 6) (Z.land b 63) in
    if needed s =? 1 then (utf8_start, [cp])
    else (Utf8State cp (needed s - 1) 128 191, [])
  else
    let '(s', out) := utf8_lead b in (s', 65533 :: out).

(** The code points of a byte sequence; a truncated sequence at the end
    yields U+FFFD.  No input is refused. *)
Fixpoint utf8_run (s : utf8_state) (buf : bytes) : list Z :=
  match buf with
  | [] => if needed s =? 0 then [] else [65533]
  | b :: rest =>
      let '(s', out) := utf8_step s b in out ++ utf8_run s' rest
  end.

(** A code point as UTF-16 code units. *)
Definition utf16_units (cp : Z) : jsstring :=
  if cp <? 65536 then [cp]
  else [55296 + Z.shiftr (cp - 65536) 10; 56320 + Z.land (cp - 65536) 1023].

(** [buf.toString("utf8")]. *)
Definition toString_utf8 (buf : bytes) : completion jsstring :=
  Normal (flat_map utf16_units (utf8_run utf8_start buf)).

(** The code points of a string: surrogate pairs are joined, a lone
    surrogate reads as U+FFFD. *)
Fixpoint code_points (s : jsstring) : list Z :=
  match s with
  | [] => []
  | c :: s' =>
      if between 55296 56319 c then
        match s' with
        | d :: s'' =>
            if between 56320 57343 d
            then (65536 + Z.shiftl (c - 55296) 10 + (d - 56320)) :: code_points s''
            else 65533 :: code_points s'
        | [] => [65533]
        end
      else if between 56320 57343 c then 65533 :: code_points s'
      else c :: code_points s'
  end.

Definition utf8_bytes (cp : Z) : bytes :=
  if cp <? 128 then [cp]
  else if cp <? 2048 then [192 + Z.shiftr cp 6; 128 + Z.land cp 63]
  else if cp <? 65536 then
    [224 + Z.shiftr cp 12; 128 + Z.land (Z.shiftr cp 6) 63; 128 + Z.land cp 63]
  else
    [240 + Z.shiftr cp 18; 128 + Z.land (Z.shiftr cp 12) 63;
     128 + Z.land (Z.shiftr cp 6) 63; 128 + Z.land cp 63].

(** Unicode scalar values: the code points that are not surrogates. *)
Definition scalar (cp : Z) : bool :=
  between 0 1114111 cp && negb (between 55296 57343 cp).

(** [Buffer.from(s, "utf8")]. *)
Definition from_utf8 (s : jsstring) : bytes :=
  flat_map utf8_bytes (code_points s).

End Buffer.

(** ** [path.extname] and [path.join] *)

Module Path.
Import Js.

Record scan := Scan {
  startDot : Z;
  startPart : Z;
  end_ : Z;
  matchedSlash : bool;
  preDotState : Z
}.

Definition scan_start : scan := Scan (-1) 0 (-1) true 0.

(** The loop of [extname] (POSIX flavour: the separator is the slash),
    from the last code unit ([i = length - 1]) down to the first; [rpath]
    is the path reversed. *)
Fixpoint extname_loop (rpath : jsstring) (i : Z) (s : scan) : scan :=
  match rpath with
  | [] => s
  | code :: rest =>
      if code =? 47 then
        if negb (matchedSlash s)
        then Scan (startDot s) (i + 1) (end_ s) (matchedSlash s) (preDotState s)
        else extname_loop rest (i - 1) s
      else
        let s1 :=
          if end_ s =? -1
          then Scan (startDot s) (startPart s) (i + 1) false (preDotState s)
          else s in
        let s2 :=
          if code =? 46 then
            if startDot s1 =? -1
            then Scan i (startPart s1) (end_ s1) (matchedSlash s1) (preDotState s1)
            else if negb (preDotState s1 =? 1)
            then Scan (startDot s1) (startPart s1) (end_ s1) (matchedSlash s1) 1
            else s1
          else if negb (startDot s1 =? -1)
          then Scan (startDot s1) (startPart s1) (end_ s1) (matchedSlash s1) (-1)
          else s1 in
        extname_loop rest (i - 1) s2
  end.

Definition extname (path : jsstring) : jsstring :=
  let s := extname_loop (rev path) (Z.of_nat (length path) - 1) scan_start in
  if (startDot s =? -1) || (end_ s =? -1) || (preDotState s =? 0)
     || ((preDotState s =? 1) && (startDot s =? end_ s - 1)
         && (startDot s =? startPart s + 1))
  then []
  else slice path (startDot s) (end_ s).

(** [s.split(sep)] for a separator of one code unit, given as a test. *)
Fixpoint split (is_sep : Z → bool) (s : jsstring) : list jsstring :=
  match s with
  | [] => [[]]
  | c :: s' =>
      if is_sep c then [] :: split is_sep s'
      else match split is_sep s' with
           | seg :: segs => (c :: seg) :: segs
           | [] => [[c]]
           end
  end.

Definition is_slash (c : Z) : bool := c =? 47.

(** One round of the loop of [normalizeString], at the end of a segment;
    [res] holds the segments kept so far, the last one first.  An empty
    segment and [.] are dropped; [..] removes the segment before it, and
    is kept when there is none to remove and the path is relative. *)
Definition normalize_step (allowAboveRoot : bool) (res : list jsstring)
    (seg : jsstring) : list jsstring :=
  if bool_decide (seg = []) || bool_decide (seg = lit ".") then res
  else if bool_decide (seg = lit "..") then
    match res with
    | top :: below =>
        if bool_decide (top = lit "..")
        then (if allowAboveRoot then seg :: res else res)
        else below
    | [] => if allowAboveRoot then [seg] else []
    end
  else seg :: res.

Fixpoint join_segments (segs : list jsstring) : jsstring :=
  match segs with
  | [] => []
  | seg :: rest =>
      match rest with
      | [] => seg
      | _ :: _ => seg ++ 47 :: join_segments rest
      end
  end.

Definition normalizeString (path : jsstring) (allowAboveRoot : bool) : jsstring :=
  join_segments
    (rev (fold_left (normalize_step allowAboveRoot) (split is_slash path) [])).

(** [path.normalize] (POSIX flavour). *)
Definition normalize (path : jsstring) : jsstring :=
  match path with
  | [] => lit "."
  | c :: _ =>
      let isAbsolute := is_slash c in
      let trailingSeparator := is_slash (List.last path 0) in
      match normalizeString path (negb isAbsolute) with
      | [] =>
          if isAbsolute then lit "/"
          else if trailingSeparator then lit "./" else lit "."
      | res =>
          let res := if trailingSeparator then res ++ [47] else res in
          if isAbsolute then 47 :: res else res
      end
  end.

(** [path.join(dir, name)]: the arguments that are not empty, joined by
    a slash and normalized.  A name that holds separators or dot segments
    does not stay below [dir ++ "/"]. *)
Definition join (dir name : jsstring) : jsstring :=
  match dir, name with
  | [], [] => lit "."
  | [], _ :: _ => normalize name
  | _ :: _, [] => normalize dir
  | _ :: _, _ :: _ => normalize (dir ++ 47 :: name)
  end.

End Path.

(** ** The content directory *)

Module Fs.
Import Js.

(** A regular file: its bytes, and whether removing it is refused by the
    operating system (held open, read-only directory, ...). *)
Record file := File {
  data : bytes;
  pinned : bool
}.

Abbreviation disk := (gmap (list Z) file) (only parsing).

Definition existsSync (p : jsstring) (d : disk) : bool :=
  match d !! p with Some _ => true | None => false end.

(** [fs.unlinkSync]: throws when the path is missing or cannot be
    removed. *)
Definition unlinkSync (p : jsstring) (d : disk) : completion disk :=
  match d !! p with
  | None => Throw (lit "ENOENT")
  | Some f => if pinned f then Throw (lit "EPERM") else Normal (delete p d)
  end.

(** [fs.readFile(p, "utf-8")]: the text of the file, or an error. *)
Definition readFile_utf8 (p : jsstring) (d : disk) : completion jsstring :=
  match d !! p with
  | None => Throw (lit "ENOENT")
  | Some f => Buffer.toString_utf8 (data f)
  end.

(** The content directory with the file at [p] created, or replaced. *)
Definition put (p : jsstring) (content : bytes) (d : disk) : disk :=
  <[p := File content false]> d.

(** What [fs.createWriteStream(p)] with the content piped into it comes
    to. *)
Inductive write :=
| Written (d : gmap (list Z) file)
| WriteError (message : jsstring)
| WriteThrows (message : jsstring).

(** The write stream of the disk storage engine.  A path that holds a NUL
    makes the call throw.  Opening the path can fail ([error]: a directory
    of the path is missing, as when the file name holds a separator; the
    path is that of a directory; the name is too long; ...): the stream
    then emits the error and nothing is written.  Which directories exist
    is not part of the model, so the error is an argument. *)
Definition createWriteStream (error : option jsstring) (p : jsstring)
    (content : bytes) (d : disk) : write :=
  if bool_decide (0 ∈ p) then WriteThrows (lit "ERR_INVALID_ARG_VALUE")
  else match error with
       | Some m => WriteError m
       | None => Written (put p content d)
       end.

(** [if (fs.existsSync(p)) { fs.unlinkSync(p); }] *)
Definition unlinkIfExists (p : jsstring) (d : disk) : completion disk :=
  if existsSync p d then unlinkSync p d else Normal d.

(** [rows.forEach((row) => { if (fs.existsSync(p)) fs.unlinkSync(p) })]:
    the disk reached, and the exception that stopped the loop if any. *)
Fixpoint forEach_unlink (paths : list jsstring) (d : disk)
  : disk * option jsstring :=
  match paths with
  | [] => (d, None)
  | p :: rest =>
      match unlinkIfExists p d with
      | Normal d' => forEach_unlink rest d'
      | Throw m => (d, Some m)
      end
  end.

End Fs.

(** ** The catalog: tables [files] and [folders] *)

Module FileRecord.
Record t := Row {
  id : jsstring;
  name : jsstring;
  originalName : jsstring;
  displayName : jsstring;
  size : Z;
  type : jsstring;
  uploadDate : jsstring;
  filePath : jsstring;
  folderId : option jsstring
}.
End FileRecord.

Module Folder.
Record t := Row {
  id : jsstring;
  name : jsstring;
  createdDate : jsstring
}.
End Folder.

Module Db.
Import Js.

(** Collating sequence of the column [originalName]. *)
Inductive collation := BINARY | NOCASE.

Record database := Database {
  originalNameCollation : collation;
  files : list FileRecord.t;
  folders : list Folder.t
}.

(** [CREATE TABLE IF NOT EXISTS] of the server: [originalName TEXT NOT
    NULL]; an existing database is kept as it is. *)
Definition initializeDatabase (existing : option database) : database :=
  match existing with
  | Some db => db
  | None => Database BINARY [] []
  end.

(** The reset script: the database file is deleted and the tables are
    created again, [originalName TEXT NOT NULL COLLATE NOCASE]. *)
Definition resetDatabase : database := Database NOCASE [] [].

(** NOCASE folds the 26 upper case letters of ASCII. *)
Definition nocase (s : jsstring) : jsstring :=
  map (fun c => if is_upper c then c + 32 else c) s.

(** [a = b] on text under a collating sequence.  Texts are compared unit
    by unit: what reaches the database comes out of a UTF-8 reading and
    has no lone surrogate, so this is the comparison of the stored
    bytes. *)
Definition text_eqb (c : collation) (a b : jsstring) : bool :=
  match c with
  | BINARY => bool_decide (a = b)
  | NOCASE => bool_decide (nocase a = nocase b)
  end.

(** A text bound to a statement as SQLite keeps it: the string is handed
    over in UTF-8 and read back from UTF-8, so that a surrogate without
    its pair comes back as U+FFFD.  A string without lone surrogates is
    kept as it is.  The texts of a JSON body can hold lone surrogates;
    the ids of the routes come out of the URL and the texts that the
    server makes up itself out of the clock, the random generator and the
    converted file name, and hold none. *)
Definition text (s : jsstring) : jsstring :=
  flat_map Buffer.utf16_units
    (Buffer.utf8_run Buffer.utf8_start (Buffer.from_utf8 s)).

(** A statement either fails as a whole ([err]) or yields its result. *)
Definition stmt {A : Type} (err : bool) (result : A) : option A :=
  if err then None else Some result.

Definition has_id (i : jsstring) (r : FileRecord.t) : bool :=
  bool_decide (FileRecord.id r = i).

(** [folderId = ?], the parameter bound as a text. *)
Definition in_folder (f : jsstring) (r : FileRecord.t) : bool :=
  bool_decide (FileRecord.folderId r = Some (text f)).

(** [SELECT ... FROM files WHERE id = ?] through [db.get]. *)
Definition findById (i : jsstring) (db : database) : option FileRecord.t :=
  find (has_id i) (files db).

(** [SELECT id FROM files WHERE originalName = ?] through [db.get]: the
    first row that matches. *)
Definition findByOriginalName (n : jsstring) (db : database)
  : option FileRecord.t :=
  find (fun r => text_eqb (originalNameCollation db) (FileRecord.originalName r) n)
       (files db).

(** [SELECT ... FROM files WHERE folderId = ?]. *)
Definition listByFolder (f : jsstring) (db : database) : list FileRecord.t :=
  filter (fun r => in_folder f r = true) (files db).

(** Text order of the BINARY collating sequence. *)
Fixpoint text_leb (a b : jsstring) : bool :=
  match a, b with
  | [], _ => true
  | _ :: _, [] => false
  | x :: a', y :: b' => (x <? y) || ((x =? y) && text_leb a' b')
  end.

(** [r] put before the first row that is not newer than it. *)
Fixpoint insert_desc (r : FileRecord.t) (l : list FileRecord.t)
  : list FileRecord.t :=
  match l with
  | [] => [r]
  | x :: l' =>
      if text_leb (FileRecord.uploadDate x) (FileRecord.uploadDate r)
      then r :: l
      else x :: insert_desc r l'
  end.

(** [SELECT * FROM files ORDER BY uploadDate DESC]; rows of the same date
    come in the order of their insertion. *)
Definition listAll (db : database) : list FileRecord.t :=
  foldr insert_desc [] (files db).

(** [INSERT INTO files ...]: refused when the primary key is taken. *)
Definition insertFile (r : FileRecord.t) (db : database) : option database :=
  match findById (FileRecord.id r) db with
  | Some _ => None
  | None => Some (Database (originalNameCollation db) (files db ++ [r]) (folders db))
  end.

Definition deleteFile (i : jsstring) (db : database) : database :=
  Database (originalNameCollation db)
           (filter (fun r => has_id i r = false) (files db)) (folders db).

Definition deleteAllFiles (db : database) : database :=
  Database (originalNameCollation db) [] (folders db).

Definition deleteFilesByFolder (f : jsstring) (db : database) : database :=
  Database (originalNameCollation db)
           (filter (fun r => in_folder f r = false) (files db)) (folders db).

Definition deleteFolder (f : jsstring) (db : database) : database :=
  Database (originalNameCollation db) (files db)
           (filter (fun g => bool_decide (Folder.id g = f) = false) (folders db)).

Definition setDisplayName (n : jsstring) (r : FileRecord.t) : FileRecord.t :=
  FileRecord.Row (FileRecord.id r) (FileRecord.name r) (FileRecord.originalName r)
    n (FileRecord.size r) (FileRecord.type r) (FileRecord.uploadDate r)
    (FileRecord.filePath r) (FileRecord.folderId r).

Definition setFolderId (f : option jsstring) (r : FileRecord.t) : FileRecord.t :=
  FileRecord.Row (FileRecord.id r) (FileRecord.name r) (FileRecord.originalName r)
    (FileRecord.displayName r) (FileRecord.size r) (FileRecord.type r)
    (FileRecord.uploadDate r) (FileRecord.filePath r) f.

(** [UPDATE files SET displayName = ? WHERE id = ?]. *)
Definition updateDisplayName (i n : jsstring) (db : database) : database :=
  Database (originalNameCollation db)
           (map (fun r => if has_id i r then setDisplayName (text n) r else r)
                (files db))
           (folders db).

(** [UPDATE files SET folderId = ? WHERE id = ?]. *)
Definition updateFolder (i : jsstring) (f : option jsstring) (db : database)
  : database :=
  Database (originalNameCollation db)
           (map (fun r => if has_id i r then setFolderId (text <$> f) r else r)
                (files db))
           (folders db).

End Db.

(** ** The server: routes over the catalog and the content directory *)

Module Part.
(** The file part of a multipart upload as the transport delivers it. *)
Record t := Make {
  originalname : jsstring;
  content : bytes
}.
End Part.

Module ReqFile.
(** [req.file] once the storage engine has written the blob. *)
Record t := Make {
  originalname : jsstring;
  filename : jsstring;
  path : jsstring;
  size : Z
}.
End ReqFile.

Module Server.
Import Js.

Record state := State {
  db : Db.database;
  disk : gmap (list Z) Fs.file
}.

Inductive body :=
| JError (error : jsstring)
| JMessage (message : jsstring)
| JRenamed (message displayName : jsstring)
| JRows (rows : list FileRecord.t)
| JFile (row : FileRecord.t) (content : jsstring)
| JUploaded (id name originalName displayName : jsstring) (size : Z)
            (type uploadDate : jsstring)
| ErrorPage (message : jsstring).

(** What a request ends in: a response, or an exception thrown inside a
    database callback, which nothing catches. *)
Inductive outcome :=
| Respond (status : Z) (b : body)
| Uncaught (message : jsstring).

(** What a request reads from the process and the platform: the server
    directory, [Date.now()] and [Math.random().toString(36).substr(2, 9)]
    in the storage engine and in the route, [new Date().toISOString()] at
    the insert and in the response. *)
Record env := Env {
  dirname : jsstring;
  storageNow : Z;
  storageRandom : jsstring;
  routeNow : Z;
  routeRandom : jsstring;
  insertDate : jsstring;
  responseDate : jsstring
}.

(** What fails while an upload is served: the opening of the blob's path
    by the storage engine, with its error, and the statements of the
    route. *)
Record upload_faults := UploadFaults {
  open_error : option jsstring;
  find_fails : bool;
  path_fails : bool;
  delete_fails : bool;
  insert_fails : bool
}.

(** The path can be opened and every statement runs. *)
Definition no_faults : upload_faults := UploadFaults None false false false false.

Definition uploadsDir (e : env) : jsstring := Path.join (dirname e) (lit "uploads").

(** [a || null] on an optional text. *)
Definition or_null (a : option jsstring) : option jsstring :=
  match a with
  | Some (c :: s) => Some (c :: s)
  | _ => None
  end.

(** *** GET /api/files *)
Definition listFiles (all_fails : bool) (st : state) : outcome * state :=
  match Db.stmt all_fails (Db.listAll (db st)) with
  | None => (Respond 500 (JError (lit "Failed to fetch files")), st)
  | Some rows => (Respond 200 (JRows rows), st)
  end.

(** *** GET /api/files/:id *)
Definition getFile (get_fails : bool) (id : jsstring) (st : state)
  : outcome * state :=
  match Db.stmt get_fails (Db.findById id (db st)) with
  | None => (Respond 500 (JError (lit "Database error")), st)
  | Some None => (Respond 404 (JError (lit "File not found")), st)
  | Some (Some row) =>
      match Fs.readFile_utf8 (FileRecord.filePath row) (disk st) with
      | Throw _ => (Respond 500 (JError (lit "Failed to read file")), st)
      | Normal data => (Respond 200 (JFile row data), st)
      end
  end.

(** *** The upload middleware *)

Definition fileFilter (originalname : jsstring) : completion bool :=
  let ext := toLowerCase (Path.extname originalname) in
  if bool_decide (ext = lit ".md") || bool_decide (ext = lit ".pdf")
  then Normal true
  else Throw (lit "Only MD and PDF files are allowed").

Definition fileSize : Z := 10 * 1024 * 1024.

(** [filename] of the disk storage. *)
Definition storageFilename (e : env) (originalname : jsstring)
  : completion jsstring :=
  match Buffer.from_latin1 originalname with
  | Throw m => Throw m
  | Normal buf =>
      match Buffer.toString_utf8 buf with
      | Throw m => Throw m
      | Normal decoded =>
          Normal (ofNumber (storageNow e) ++ lit "_" ++ storageRandom e
                    ++ lit "_" ++ decoded)
      end
  end.

(** What the middleware comes to: no file part; an error handed on with
    nothing written; the file stored; an exception that nothing catches;
    a file past the size limit, written up to the limit and removed. *)
Inductive middleware :=
| NoFile
| Rejected (message : jsstring)
| Stored (file : ReqFile.t) (d : gmap (list Z) Fs.file)
| Exited (message : jsstring)
| TooLarge (d : gmap (list Z) Fs.file).

(** [upload.single("file")]: the filter, then the storage engine, which
    writes at [path.join(destination, filename)]; past the size limit the
    stream is cut and the file at that path removed. *)
Definition uploadSingle (e : env) (f : upload_faults) (p : option Part.t)
    (d : gmap (list Z) Fs.file) : middleware :=
  match p with
  | None => NoFile
  | Some part =>
      match fileFilter (Part.originalname part) with
      | Throw m => Rejected m
      | Normal _ =>
          match storageFilename e (Part.originalname part) with
          | Throw m => Rejected m
          | Normal filename =>
              let size := Z.of_nat (length (Part.content part)) in
              let path := Path.join (uploadsDir e) filename in
              match Fs.createWriteStream (open_error f) path (Part.content part) d with
              | Fs.WriteThrows m => Exited m
              | Fs.WriteError m => Rejected m
              | Fs.Written d' =>
                  if fileSize <? size then TooLarge (delete path d')
                  else Stored (ReqFile.Make (Part.originalname part) filename
                                 path size) d'
              end
          end
      end
  end.

(** *** POST /api/upload *)

(** The conversion of the file name, inside [try] ... [catch]. *)
Definition decodeFileName (originalname : jsstring) : jsstring :=
  let converted :=
    match Buffer.from_latin1 originalname with
    | Throw m => Throw m
    | Normal buf => Buffer.toString_utf8 buf
    end in
  match converted with
  | Normal fileName => fileName
  | Throw _ => originalname
  end.

Definition fileId (e : env) : jsstring :=
  lit "file_" ++ ofNumber (routeNow e) ++ lit "_" ++ routeRandom e.

Definition fileType (file : ReqFile.t) : jsstring :=
  removeFirstDot (toLowerCase (Path.extname (ReqFile.originalname file))).

Definition insertFile (e : env) (f : upload_faults) (file : ReqFile.t)
    (fileName : jsstring) (folderId : option jsstring) (st : state)
  : outcome * state :=
  let row :=
    FileRecord.Row (fileId e) (ReqFile.filename file) fileName fileName
      (ReqFile.size file) (fileType file) (insertDate e) (ReqFile.path file)
      (Db.text <$> or_null folderId) in
  match (if insert_fails f then None else Db.insertFile row (db st)) with
  | None => (Respond 500 (JError (lit "Failed to save file")), st)
  | Some db' =>
      (Respond 200
         (JUploaded (fileId e) (ReqFile.filename file) fileName fileName
            (ReqFile.size file) (fileType file) (responseDate e)),
       State db' (disk st))
  end.

Definition uploadRoute (e : env) (f : upload_faults) (file : ReqFile.t)
    (folderId : option jsstring) (st : state) : outcome * state :=
  let fileName := decodeFileName (ReqFile.originalname file) in
  match Db.stmt (find_fails f) (Db.findByOriginalName fileName (db st)) with
  | None => (Respond 500 (JError (lit "Database error")), st)
  | Some None => insertFile e f file fileName folderId st
  | Some (Some row) =>
      (* File exists - delete old one first *)
      let oldFile :=
        match Db.stmt (path_fails f) (Db.findById (FileRecord.id row) (db st)) with
        | Some (Some old) => Some old
        | _ => None
        end in
      let unlinked :=
        match oldFile with
        | Some old => Fs.unlinkIfExists (FileRecord.filePath old) (disk st)
        | None => Normal (disk st)
        end in
      match unlinked with
      | Throw m => (Uncaught m, st)
      | Normal d =>
          let db' :=
            match Db.stmt (delete_fails f) (Db.deleteFile (FileRecord.id row) (db st)) with
            | Some db' => db'
            | None => db st
            end in
          insertFile e f file fileName folderId (State db' d)
      end
  end.

Definition upload (e : env) (f : upload_faults) (p : option Part.t)
    (folderId : option jsstring) (st : state) : outcome * state :=
  match uploadSingle e f p (disk st) with
  | Rejected m => (Respond 500 (ErrorPage m), st)
  | NoFile => (Respond 400 (JError (lit "No file provided")), st)
  | Stored file d => uploadRoute e f file folderId (State (db st) d)
  | Exited m => (Uncaught m, st)
  | TooLarge d => (Respond 500 (ErrorPage (lit "File too large")), State (db st) d)
  end.

(** *** DELETE /api/files/:id *)
Definition deleteFile (get_fails run_fails : bool) (id : jsstring) (st : state)
  : outcome * state :=
  match Db.stmt get_fails (Db.findById id (db st)) with
  | None | Some None => (Respond 404 (JError (lit "File not found")), st)
  | Some (Some row) =>
      match Fs.unlinkIfExists (FileRecord.filePath row) (disk st) with
      | Throw m => (Uncaught m, st)
      | Normal d =>
          match Db.stmt run_fails (Db.deleteFile id (db st)) with
          | None => (Respond 500 (JError (lit "Failed to delete file")), State (db st) d)
          | Some db' =>
              (Respond 200 (JMessage (lit "File deleted successfully")), State db' d)
          end
      end
  end.

(** *** DELETE /api/clear *)
Definition clearAll (all_fails run_fails : bool) (st : state) : outcome * state :=
  match Db.stmt all_fails (map FileRecord.filePath (Db.files (db st))) with
  | None => (Respond 500 (JError (lit "Database error")), st)
  | Some rows =>
      match Fs.forEach_unlink rows (disk st) with
      | (d, Some m) => (Uncaught m, State (db st) d)
      | (d, None) =>
          match Db.stmt run_fails (Db.deleteAllFiles (db st)) with
          | None => (Respond 500 (JError (lit "Failed to clear files")), State (db st) d)
          | Some db' => (Respond 200 (JMessage (lit "All files cleared")), State db' d)
          end
      end
  end.

(** *** DELETE /api/folders/:id *)
Definition deleteFolder (all_fails files_fails folder_fails : bool)
    (id : jsstring) (st : state) : outcome * state :=
  match Db.stmt all_fails (map FileRecord.filePath (Db.listByFolder id (db st))) with
  | None => (Respond 500 (JError (lit "Database error")), st)
  | Some files =>
      match Fs.forEach_unlink files (disk st) with
      | (d, Some m) => (Uncaught m, State (db st) d)
      | (d, None) =>
          match Db.stmt files_fails (Db.deleteFilesByFolder id (db st)) with
          | None => (Respond 500 (JError (lit "Failed to delete files")), State (db st) d)
          | Some db1 =>
              match Db.stmt folder_fails (Db.deleteFolder id db1) with
              | None => (Respond 500 (JError (lit "Failed to delete folder")), State db1 d)
              | Some db2 =>
                  (Respond 200 (JMessage (lit "Folder deleted successfully")), State db2 d)
              end
          end
      end
  end.

(** *** PUT /api/files/:id/rename *)
Definition renameFile (run_fails : bool) (id : jsstring)
    (displayName : option jsstring) (st : state) : outcome * state :=
  match or_null displayName with
  | None => (Respond 400 (JError (lit "Display name is required")), st)
  | Some n =>
      if bool_decide (trim n = [])
      then (Respond 400 (JError (lit "Display name is required")), st)
      else
        match Db.stmt run_fails (Db.updateDisplayName id (trim n) (db st)) with
        | None => (Respond 500 (JError (lit "Failed to rename file")), st)
        | Some db' =>
            (Respond 200 (JRenamed (lit "File renamed successfully") (trim n)),
             State db' (disk st))
        end
  end.

(** *** PUT /api/files/:id/move *)
Definition moveFile (run_fails : bool) (id : jsstring)
    (folderId : option jsstring) (st : state) : outcome * state :=
  match Db.stmt run_fails (Db.updateFolder id (or_null folderId) (db st)) with
  | None => (Respond 500 (JError (lit "Failed to move file")), st)
  | Some db' => (Respond 200 (JMessage (lit "File moved successfully")), State db' (disk st))
  end.

End Server.

(** ** Concrete requests and states *)

Module Sample.
Import Js Server.

(** The Arabic file name "taqrir.md" (U+062A U+0642 U+0631 U+064A U+0631
    followed by ".md"). *)
Definition taqrir : jsstring := [1578; 1602; 1585; 1610; 1585] ++ lit ".md".

(** The same name as the transport delivers it: its UTF-8 bytes read as
    latin1. *)
Definition taqrir_received : jsstring :=
  Buffer.toString_latin1 (Buffer.from_utf8 taqrir).

(** "e-acute.md" with the accented letter as the single code unit U+00E9:
    as latin1 bytes, E9 opens a three byte sequence that the full stop
    cannot continue. *)
Definition cafe : jsstring := 233 :: lit ".md".

Definition env1 : env :=
  Env (lit "/srv/app") 1700000000000 (lit "k3x9q2m1a") 1700000000002
      (lit "p0o9i8u7y") (lit "2023-11-14T22:13:20.003Z")
      (lit "2023-11-14T22:13:20.004Z").

Definition env2 : env :=
  Env (lit "/srv/app") 1700000060000 (lit "z1y2x3w4v") 1700000060002
      (lit "a9b8c7d6e") (lit "2023-11-14T22:14:20.003Z")
      (lit "2023-11-14T22:14:20.004Z").

(** A database created by the server on first start, and an empty content
    directory. *)
Definition fresh : state := State (Db.initializeDatabase None) ∅.

(** The same after the reset script. *)
Definition fresh_after_reset : state :=
  State (Db.initializeDatabase (Some Db.resetDatabase)) ∅.

Definition hello : bytes := lit "# Hello".
Definition hello2 : bytes := lit "# Hello again".

(** "Report.md" uploaded to a fresh server. *)
Definition with_Report : state :=
  snd (upload env1 no_faults (Some (Part.Make (lit "Report.md") hello)) None fresh).

Definition with_Report_after_reset : state :=
  snd (upload env1 no_faults (Some (Part.Make (lit "Report.md") hello)) None
         fresh_after_reset).

(** Then "report.md". *)
Definition then_report : outcome * state :=
  upload env2 no_faults (Some (Part.Make (lit "report.md") hello2)) None with_Report.

Definition Report_path : jsstring :=
  lit "/srv/app/uploads/1700000000000_k3x9q2m1a_Report.md".
Definition report_path : jsstring :=
  lit "/srv/app/uploads/1700000060000_z1y2x3w4v_report.md".

(** A PDF: the header line and the customary comment of four bytes above
    127 that marks the file as binary. *)
Definition pdf_bytes : bytes := lit "%PDF-1.4" ++ [10; 37; 226; 227; 207; 211; 10].

Definition with_pdf : state :=
  snd (upload env1 no_faults (Some (Part.Make (lit "report.pdf") pdf_bytes)) None fresh).

Definition pdf_id : jsstring := lit "file_1700000000002_p0o9i8u7y".

(** Two records; the blob of the first cannot be removed. *)
Definition a_path : jsstring := lit "/srv/app/uploads/1_aaaaaaaaa_a.md".
Definition b_path : jsstring := lit "/srv/app/uploads/2_bbbbbbbbb_b.md".

Definition row_a : FileRecord.t :=
  FileRecord.Row (lit "file_1_a") (lit "1_aaaaaaaaa_a.md") (lit "a.md") (lit "a.md")
    7 (lit "md") (lit "2023-11-14T22:13:20.003Z") a_path None.
Definition row_b : FileRecord.t :=
  FileRecord.Row (lit "file_2_b") (lit "2_bbbbbbbbb_b.md") (lit "b.md") (lit "b.md")
    7 (lit "md") (lit "2023-11-14T22:14:20.003Z") b_path (Some (lit "folder_1")).

Definition first_pinned : state :=
  State (Db.Database Db.BINARY [row_a; row_b] [])
        (<[a_path := Fs.File hello true]> (<[b_path := Fs.File hello false]> ∅)).

Definition all_removable : state :=
  State (Db.Database Db.BINARY [row_a; row_b]
           [Folder.Row (lit "folder_1") (lit "Docs") (lit "2023-11-14T22:00:00.000Z")])
        (<[b_path := Fs.File hello false]> ∅).

End Sample.

(** ** Predicates used in the statements *)

Module Pred.
Import Server.

(** Removing any of the [paths] that is present is not refused. *)
Definition removable (paths : list jsstring) (d : gmap (list Z) Fs.file) : Prop :=
  ∀ p f, p ∈ paths → d !! p = Some f → Fs.pinned f = false.

(** None of the [paths] is in the content directory. *)
Definition gone (paths : list jsstring) (d : gmap (list Z) Fs.file) : Prop :=
  ∀ p, p ∈ paths → d !! p = None.

(** [r'] is [r] up to [displayName]. *)
Definition same_but_displayName (r r' : FileRecord.t) : Prop :=
  FileRecord.id r' = FileRecord.id r
  ∧ FileRecord.name r' = FileRecord.name r
  ∧ FileRecord.originalName r' = FileRecord.originalName r
  ∧ FileRecord.size r' = FileRecord.size r
  ∧ FileRecord.type r' = FileRecord.type r
  ∧ FileRecord.uploadDate r' = FileRecord.uploadDate r
  ∧ FileRecord.filePath r' = FileRecord.filePath r
  ∧ FileRecord.folderId r' = FileRecord.folderId r.

(** At most one record per original name, names being compared as the
    column compares them. *)
Definition unique_names (db : Db.database) : Prop :=
  ∀ n, (length (filter (λ r, Db.text_eqb (Db.originalNameCollation db)
                               (FileRecord.originalName r) n = true)
                   (Db.files db)) ≤ 1)%nat.

End Pred.

(** ** [encodeURIComponent] *)

Module Uri.
Import Js Buffer.

(** The characters that are copied as they are: letters, digits and
    [- _ . ! ~ * ' ( )]. *)
Definition unreserved (c : Z) : bool :=
  between 65 90 c || between 97 122 c || between 48 57 c
  || (c =? 45) || (c =? 95) || (c =? 46) || (c =? 33) || (c =? 126)
  || (c =? 42) || (c =? 39) || (c =? 40) || (c =? 41).

(** A hexadecimal digit, in upper case. *)
Definition hex_digit (n : Z) : Z := if n <? 10 then 48 + n else 55 + n.

(** One octet as [%XX]. *)
Definition escape (b : Z) : jsstring :=
  [37; hex_digit (Z.shiftr b 4); hex_digit (Z.land b 15)].

Definition escape_code_point (cp : Z) : jsstring :=
  flat_map escape (utf8_bytes cp).

(** [encodeURIComponent(s)]: a surrogate without its pair raises
    [URIError]. *)
Fixpoint encodeURIComponent (s : jsstring) : completion jsstring :=
  match s with
  | [] => Normal []
  | c :: s' =>
      if unreserved c then
        match encodeURIComponent s' with
        | Normal r => Normal (c :: r)
        | Throw m => Throw m
        end
      else if between 56320 57343 c then Throw (lit "URIError")
      else if between 55296 56319 c then
        match s' with
        | d :: s'' =>
            if between 56320 57343 d then
              match encodeURIComponent s'' with
              | Normal r =>
                  Normal (escape_code_point
                            (65536 + Z.shiftl (c - 55296) 10 + (d - 56320)) ++ r)
              | Throw m => Throw m
              end
            else Throw (lit "URIError")
        | [] => Throw (lit "URIError")
        end
      else
        match encodeURIComponent s' with
        | Normal r => Normal (escape_code_point c ++ r)
        | Throw m => Throw m
        end
  end.

End Uri.

(** ** GET /api/download/:id *)

Module Download.
Import Js.

(** An answer in JSON; the blob sent; or nothing: [res.sendFile] handed
    an error to its callback, which writes it to the log only. *)
Inductive response :=
| Json (status : Z) (error : jsstring)
| SendFile (contentType contentDisposition : jsstring) (content : bytes)
| NotSent (error : Z).

(** A part of a path that starts with a full stop and is longer than
    it. *)
Definition dotfile (part : jsstring) : bool :=
  match part with
  | c :: _ :: _ => c =? 46
  | _ => false
  end.

Definition starts_with_dot (part : jsstring) : bool :=
  match part with
  | c :: _ => c =? 46
  | [] => false
  end.

(** A segment [..] between separators, slash or backslash. *)
Definition up_path (path : jsstring) : bool :=
  existsb (λ seg, bool_decide (seg = lit ".."))
          (Path.split (λ c, (c =? 47) || (c =? 92)) path).

(** The paths that [res.sendFile] refuses although the file is there,
    with the status of the error: a path with a NUL, with a segment [..],
    or (the option [dotfiles] is not given) with a last part that starts
    with a full stop, as Express 4 has it; Express 5 also refuses a path
    with a directory that starts with a full stop.  The stored paths are
    absolute, as [__dirname] is. *)
Definition sendFile_error (path : jsstring) : option Z :=
  if bool_decide (0 ∈ path) then Some 400
  else if up_path path then Some 403
  else
    let parts := Path.split Path.is_slash (Path.normalize path) in
    if existsb dotfile parts && starts_with_dot (List.last parts [])
    then Some 404
    else None.

(** A path none of whose parts starts with a full stop, without NUL and
    without a segment [..]. *)
Definition plain (path : jsstring) : Prop :=
  (0 ∉ path)
  ∧ up_path path = false
  ∧ Forall (λ part, starts_with_dot part = false)
           (Path.split Path.is_slash (Path.normalize path)).

(** The route changes nothing; it answers with the bytes of the blob and
    the original name in the [filename*] parameter. *)
Definition downloadFile (get_fails : bool) (id : jsstring) (st : Server.state)
  : response :=
  match Db.stmt get_fails (Db.findById id (Server.db st)) with
  | None | Some None => Json 404 (lit "File not found")
  | Some (Some row) =>
      match Server.disk st !! FileRecord.filePath row with
      | None => Json 404 (lit "File not found on disk")
      | Some f =>
          match Uri.encodeURIComponent (FileRecord.originalName row) with
          | Throw _ => Json 500 (lit "Failed to download file")
          | Normal encodedFileName =>
              match sendFile_error (FileRecord.filePath row) with
              | Some status => NotSent status
              | None =>
                  SendFile (lit "application/octet-stream")
                           (lit "attachment; filename*=UTF-8''" ++ encodedFileName)
                           (Fs.data f)
              end
          end
      end
  end.

End Download.

(** ** The folder routes *)

Module Folders.
Import Js Server.

Inductive response :=
| Json (status : Z) (error : jsstring)
| Rows (rows : list Folder.t)
| Created (id name createdDate : jsstring)
| Renamed (message name : jsstring).

(** [Date.now()], the random suffix, and [new Date().toISOString()] at the
    insert and in the response. *)
Record env := Env {
  now : Z;
  random : jsstring;
  insertDate : jsstring;
  responseDate : jsstring
}.

Definition has_id (i : jsstring) (g : Folder.t) : bool :=
  bool_decide (Folder.id g = i).

Fixpoint insert_desc (g : Folder.t) (l : list Folder.t) : list Folder.t :=
  match l with
  | [] => [g]
  | x :: l' =>
      if Db.text_leb (Folder.createdDate x) (Folder.createdDate g)
      then g :: l
      else x :: insert_desc g l'
  end.

(** [SELECT * FROM folders ORDER BY createdDate DESC]; rows of the same
    date come in the order of their insertion. *)
Definition listAll (db : Db.database) : list Folder.t :=
  foldr insert_desc [] (Db.folders db).

(** [INSERT INTO folders ...]: refused when the primary key is taken. *)
Definition insertFolder (g : Folder.t) (db : Db.database) : option Db.database :=
  match find (has_id (Folder.id g)) (Db.folders db) with
  | Some _ => None
  | None => Some (Db.Database (Db.originalNameCollation db) (Db.files db)
                              (Db.folders db ++ [g]))
  end.

(** [UPDATE folders SET name = ? WHERE id = ?]. *)
Definition updateFolderName (i n : jsstring) (db : Db.database) : Db.database :=
  Db.Database (Db.originalNameCollation db) (Db.files db)
    (map (λ g, if has_id i g
               then Folder.Row (Folder.id g) (Db.text n) (Folder.createdDate g)
               else g)
         (Db.folders db)).

(** *** GET /api/folders *)
Definition listFolders (all_fails : bool) (st : state) : response :=
  match Db.stmt all_fails (listAll (db st)) with
  | None => Json 500 (lit "Failed to fetch folders")
  | Some rows => Rows rows
  end.

Definition folderId (e : env) : jsstring :=
  lit "folder_" ++ ofNumber (now e) ++ lit "_" ++ random e.

(** *** POST /api/folders *)
Definition createFolder (run_fails : bool) (e : env) (name : option jsstring)
    (st : state) : response * state :=
  match or_null name with
  | None => (Json 400 (lit "Folder name is required"), st)
  | Some n =>
      if bool_decide (trim n = [])
      then (Json 400 (lit "Folder name is required"), st)
      else
        match (if run_fails then None
               else insertFolder
                      (Folder.Row (folderId e) (Db.text (trim n)) (insertDate e))
                      (db st)) with
        | None => (Json 500 (lit "Failed to create folder"), st)
        | Some db' =>
            (Created (folderId e) (trim n) (responseDate e), State db' (disk st))
        end
  end.

(** *** PUT /api/folders/:id/rename *)
Definition renameFolder (run_fails : bool) (id : jsstring)
    (name : option jsstring) (st : state) : response * state :=
  match or_null name with
  | None => (Json 400 (lit "Folder name is required"), st)
  | Some n =>
      if bool_decide (trim n = [])
      then (Json 400 (lit "Folder name is required"), st)
      else
        match Db.stmt run_fails (updateFolderName id (trim n) (db st)) with
        | None => (Json 500 (lit "Failed to rename folder"), st)
        | Some db' =>
            (Renamed (lit "Folder renamed successfully") (trim n),
             State db' (disk st))
        end
  end.

End Folders.

(** ** Sequences of requests *)

Module Run.
Import Server.

(** The requests that can change the state, each with the statements
    that fail while it is served. *)
Inductive request :=
| Upload (e : env) (f : upload_faults) (p : option Part.t)
         (folderId : option jsstring)
| DeleteFile (get_fails run_fails : bool) (id : jsstring)
| ClearAll (all_fails run_fails : bool)
| DeleteFolder (all_fails files_fails folder_fails : bool) (id : jsstring)
| RenameFile (run_fails : bool) (id : jsstring) (displayName : option jsstring)
| MoveFile (run_fails : bool) (id : jsstring) (folderId : option jsstring)
| CreateFolder (run_fails : bool) (e : Folders.env) (name : option jsstring)
| RenameFolder (run_fails : bool) (id : jsstring) (name : option jsstring).

(** The state a request leaves, also when it ends in an uncaught
    exception and the server is started again. *)
Definition step (st : state) (r : request) : state :=
  match r with
  | Upload e f p folderId => snd (upload e f p folderId st)
  | DeleteFile g d id => snd (deleteFile g d id st)
  | ClearAll a d => snd (clearAll a d st)
  | DeleteFolder a b c id => snd (deleteFolder a b c id st)
  | RenameFile d id n => snd (renameFile d id n st)
  | MoveFile d id f => snd (moveFile d id f st)
  | CreateFolder d e n => snd (Folders.createFolder d e n st)
  | RenameFolder d id n => snd (Folders.renameFolder d id n st)
  end.

Definition run (st : state) (rs : list request) : state :=
  fold_left step rs st.

(** A server started on no database, or after the reset script. *)
Definition initial (st : state) : Prop :=
  Db.files (db st) = [] ∧ Db.folders (db st) = [].

End Run.

(** ** The client: the file manager *)

Module FileManager.
Import Js.

(** An element of [this.files]: a row of the list route, or the answer of
    the upload route, which has no [filePath] and no [folderId]
    ([stored] is then [None]). *)
Record file := File {
  id : jsstring;
  name : jsstring;
  originalName : jsstring;
  displayName : jsstring;
  size : Z;
  type : jsstring;
  uploadDate : jsstring;
  stored : option (jsstring * option jsstring)
}.

(** [{...file, displayName: file.displayName || file.originalName}]. *)
Definition ofRow (r : FileRecord.t) : file :=
  File (FileRecord.id r) (FileRecord.name r) (FileRecord.originalName r)
       (match FileRecord.displayName r with
        | [] => FileRecord.originalName r
        | n => n
        end)
       (FileRecord.size r) (FileRecord.type r) (FileRecord.uploadDate r)
       (Some (FileRecord.filePath r, FileRecord.folderId r)).

(** [loadFiles], on the rows of an answer that is [ok]. *)
Definition loadFiles (rows : list FileRecord.t) : list file := map ofRow rows.

(** [s.split(".")]. *)
Fixpoint split_dot (s : jsstring) : list jsstring :=
  match s with
  | [] => [[]]
  | c :: s' =>
      if c =? 46 then [] :: split_dot s'
      else match split_dot s' with
           | seg :: segs => (c :: seg) :: segs
           | [] => [[c]]
           end
  end.

(** The test of [handleFileSelect] on a file name:
    [name.split(".").pop().toLowerCase()] is [md] or [pdf]. *)
Definition validName (name : jsstring) : bool :=
  let ext := toLowerCase (List.last (split_dot name) []) in
  bool_decide (ext = lit "md") || bool_decide (ext = lit "pdf").

Fixpoint startsWith (s prefix : jsstring) : bool :=
  match prefix, s with
  | [], _ => true
  | _ :: _, [] => false
  | p :: prefix', c :: s' => (c =? p) && startsWith s' prefix'
  end.

(** [s.includes(search)]. *)
Fixpoint includes (s search : jsstring) : bool :=
  startsWith s search
  || match s with
     | [] => false
     | _ :: s' => includes s' search
     end.

(** [searchFiles(query)]; [lower] is [String.prototype.toLowerCase]. *)
Definition searchFiles (lower : jsstring → jsstring) (query : jsstring)
    (files : list file) : list file :=
  let lowerQuery := lower query in
  List.filter (λ f, includes (lower (displayName f)) lowerQuery
                    || includes (lower (originalName f)) lowerQuery)
              files.

(** [filterByType(type)]. *)
Definition filterByType (t : jsstring) (files : list file) : list file :=
  if bool_decide (t = lit "all") then files
  else List.filter (λ f, bool_decide (type f = t)) files.

Record stats := Stats {
  totalFiles : Z;
  mdFiles : Z;
  pdfFiles : Z;
  totalSize : Z
}.

(** [getStats()]. *)
Definition getStats (files : list file) : stats :=
  Stats (Z.of_nat (length files))
        (Z.of_nat (length (List.filter (λ f, bool_decide (type f = lit "md")) files)))
        (Z.of_nat (length (List.filter (λ f, bool_decide (type f = lit "pdf")) files)))
        (fold_left (λ sum f, sum + size f) files 0).

End FileManager.

(** ** Invariants of the catalog *)

Module Inv.

(** A text without lone surrogates: the code units of Unicode scalar
    values. *)
Definition well_formed (s : jsstring) : Prop :=
  ∃ cps, Forall (λ cp, Buffer.scalar cp = true) cps
         ∧ s = flat_map Buffer.utf16_units cps.

(** What holds of every record of a catalog that requests have built:
    the type is [md] or [pdf], the size is that of an accepted upload,
    both names are texts without lone surrogates or (the display name)
    what a rename gave, and the display name is not empty. *)
Definition record_ok (r : FileRecord.t) : Prop :=
  (FileRecord.type r = Js.lit "md" ∨ FileRecord.type r = Js.lit "pdf")
  ∧ 0 ≤ FileRecord.size r ≤ Server.fileSize
  ∧ well_formed (FileRecord.originalName r)
  ∧ FileRecord.originalName r ≠ []
  ∧ FileRecord.displayName r ≠ [].

Definition catalog_ok (db : Db.database) : Prop :=
  NoDup (map FileRecord.id (Db.files db))
  ∧ NoDup (map Folder.id (Db.folders db))
  ∧ Forall record_ok (Db.files db)
  ∧ Forall (λ g, Folder.name g ≠ []) (Db.folders db).

(** What the state of the UTF-8 decoder allows of the code point under
    construction: with one byte to come, any six low bits complete it to a
    scalar value above 127; with more to come, any permitted bytes lead
    there. *)
Definition tail_ok (c : Z) : Prop := 2 ≤ c ≤ 17407 ∧ ¬ (864 ≤ c ≤ 895).

Definition decoder_ok (s : Buffer.utf8_state) : Prop :=
  Buffer.needed s = 0
  ∨ (128 ≤ Buffer.lower s ∧ Buffer.upper s ≤ 191
     ∧ ((Buffer.needed s = 1 ∧ tail_ok (Buffer.code_point s))
        ∨ (Buffer.needed s = 2
           ∧ ∀ b, Buffer.lower s ≤ b ≤ Buffer.upper s →
                  tail_ok (Buffer.code_point s * 64 + b mod 64))
        ∨ (Buffer.needed s = 3
           ∧ ∀ b b', Buffer.lower s ≤ b ≤ Buffer.upper s → 128 ≤ b' ≤ 191 →
                     tail_ok ((Buffer.code_point s * 64 + b mod 64) * 64
                              + b' mod 64)))).

(** Descending order of the dates. *)
Definition newest_first (dates : list jsstring) : Prop :=
  StronglySorted (λ a b, Db.text_leb b a = true) dates.

End Inv.

(** * Properties *)

(** ** Removing blobs *)

Section Unlink.
Implicit Types (d : gmap (list Z) Fs.file) (p q : list Z).

Lemma unlinkIfExists_Normal p d d' :
  Fs.unlinkIfExists p d = Js.Normal d' → d' = delete p d.
Proof.
  unfold Fs.unlinkIfExists, Fs.existsSync, Fs.unlinkSync.
  destruct (d !! p) as [f|] eqn:Hp.
  - destruct (Fs.pinned f); [discriminate|]. by intros [= <-].
  - intros [= <-]. by rewrite delete_id.
Qed.

Lemma unlinkIfExists_Throw p d m :
  Fs.unlinkIfExists p d = Js.Throw m →
  ∃ f, d !! p = Some f ∧ Fs.pinned f = true.
Proof.
  unfold Fs.unlinkIfExists, Fs.existsSync, Fs.unlinkSync.
  destruct (d !! p) as [f|] eqn:Hp; [|discriminate].
  destruct (Fs.pinned f) eqn:Hf; [eauto|discriminate].
Qed.

(** A missing blob is skipped. *)
Lemma unlinkIfExists_missing p d :
  d !! p = None → Fs.unlinkIfExists p d = Js.Normal d.
Proof. unfold Fs.unlinkIfExists, Fs.existsSync. by intros ->. Qed.

(** The loop only removes. *)
Lemma forEach_unlink_shrinks paths d d' o q :
  Fs.forEach_unlink paths d = (d', o) → d !! q = None → d' !! q = None.
Proof.
  revert d. induction paths as [|p rest IH]; intros d; simpl.
  - by intros [= <- _].
  - destruct (Fs.unlinkIfExists p d) as [d1|m] eqn:Hp.
    + apply unlinkIfExists_Normal in Hp as ->. intros Hrun Hq.
      apply (IH _ Hrun). by apply lookup_delete_None; right.
    + by intros [= <- _].
Qed.

(** It leaves every other path alone. *)
Lemma forEach_unlink_frame paths d d' o q :
  Fs.forEach_unlink paths d = (d', o) → q ∉ paths → d' !! q = d !! q.
Proof.
  revert d. induction paths as [|p rest IH]; intros d; simpl.
  - by intros [= <- _].
  - destruct (Fs.unlinkIfExists p d) as [d1|m] eqn:Hp.
    + apply unlinkIfExists_Normal in Hp as ->. intros Hrun Hq.
      apply not_elem_of_cons in Hq as [Hne Hq].
      rewrite (IH _ Hrun Hq). by apply lookup_delete_ne.
    + by intros [= <- _].
Qed.

(** When it runs to its end, none of the paths is left. *)
Lemma forEach_unlink_gone paths d d' :
  Fs.forEach_unlink paths d = (d', None) → Pred.gone paths d'.
Proof.
  revert d. induction paths as [|p rest IH]; intros d; simpl.
  - intros _ q Hq. by apply elem_of_nil in Hq.
  - destruct (Fs.unlinkIfExists p d) as [d1|m] eqn:Hp; [|discriminate].
    apply unlinkIfExists_Normal in Hp as ->. intros Hrun q Hq.
    apply elem_of_cons in Hq as [->|Hq].
    + apply (forEach_unlink_shrinks _ _ _ _ _ Hrun), lookup_delete_eq.
    + by apply (IH _ Hrun).
Qed.

(** It runs to its end when no removal is refused. *)
Lemma forEach_unlink_removable paths d :
  Pred.removable paths d → ∃ d', Fs.forEach_unlink paths d = (d', None).
Proof.
  revert d. induction paths as [|p rest IH]; intros d Hrem; simpl; [eauto|].
  destruct (Fs.unlinkIfExists p d) as [d1|m] eqn:Hp.
  - apply unlinkIfExists_Normal in Hp as ->. apply IH.
    intros q f Hq Hf. apply lookup_delete_Some in Hf as [_ Hf].
    apply (Hrem q f); [by apply elem_of_cons; right|done].
  - apply unlinkIfExists_Throw in Hp as (f & Hf & Hpin).
    rewrite (Hrem p f) in Hpin; [discriminate|by apply elem_of_cons; left|done].
Qed.

(** It stops at the first refusal: the blobs after it stay. *)
Lemma forEach_unlink_stops paths d d' m :
  Fs.forEach_unlink paths d = (d', Some m) →
  ∃ p f, p ∈ paths ∧ d' !! p = Some f ∧ Fs.pinned f = true.
Proof.
  revert d. induction paths as [|p rest IH]; intros d; simpl; [discriminate|].
  destruct (Fs.unlinkIfExists p d) as [d1|m1] eqn:Hp.
  - intros Hrun. destruct (IH _ Hrun) as (q & f & Hq & Hf & Hpin).
    exists q, f. split; [by apply elem_of_cons; right|done].
  - intros [= <- _]. apply unlinkIfExists_Throw in Hp as (f & Hf & Hpin).
    exists p, f. split; [by apply elem_of_cons; left|done].
Qed.

(** It runs to its end only when no removal is refused. *)
Lemma forEach_unlink_None paths d d' :
  Fs.forEach_unlink paths d = (d', None) → Pred.removable paths d.
Proof.
  revert d. induction paths as [|p rest IH]; intros d; simpl.
  - intros _ q f Hq. by apply elem_of_nil in Hq.
  - destruct (Fs.unlinkIfExists p d) as [d1|m] eqn:Hp; [|discriminate].
    intros Hrun q f Hq Hf. destruct (decide (q = p)) as [->|Hne].
    + revert Hp. unfold Fs.unlinkIfExists, Fs.existsSync, Fs.unlinkSync.
      rewrite Hf. by destruct (Fs.pinned f).
    + apply unlinkIfExists_Normal in Hp as ->.
      apply elem_of_cons in Hq as [->|Hq]; [done|].
      apply (IH _ Hrun q f Hq). by rewrite lookup_delete_ne.
Qed.

End Unlink.

(** ** Catalog statements *)

Section Catalog.
Import Db.

Lemma listByFolder_deleteFilesByFolder f db :
  listByFolder f (deleteFilesByFolder f db) = [].
Proof.
  unfold listByFolder, deleteFilesByFolder; simpl.
  induction (files db) as [|r l IH]; [done|].
  rewrite (filter_cons _ r l). case_decide as Hr.
  - rewrite filter_cons. case_decide as Hr'; [congruence|done].
  - done.
Qed.

Lemma deleteFolder_absent f db g :
  g ∈ folders (deleteFolder f db) → Folder.id g ≠ f.
Proof.
  unfold deleteFolder; simpl. intros Hg%list_elem_of_filter.
  destruct Hg as [Hg _]. by apply bool_decide_eq_false in Hg.
Qed.

End Catalog.

(** ** Deleting a folder *)

Section DeleteFolder.
Import Server.

(** C3. Deleting a folder removes the blobs of the files in the folder
    first, then their records, and only then the folder row: records
    change only once the blobs are gone, the folder row changes only once
    the records are gone.  After a successful deletion no record refers
    to the folder (the records of other folders are all kept), none of
    those blobs is left and the folder row is gone; when one of the two earlier catalog statements fails the folder
    rows are as before; and the deletion does succeed when no statement
    fails and no removal is refused. *)
Theorem deleteFolder_cascade (all_fails files_fails folder_fails : bool)
    (id : jsstring) (st : state) :
  let r := deleteFolder all_fails files_fails folder_fails id st in
  let st' := snd r in
  let blobs := map FileRecord.filePath (Db.listByFolder id (db st)) in
  (all_fails = false → Pred.removable blobs (disk st) →
     Pred.gone blobs (disk st'))
  ∧ (Db.files (db st') ≠ Db.files (db st) → Pred.gone blobs (disk st'))
  ∧ (Db.folders (db st') ≠ Db.folders (db st) →
       Db.listByFolder id (db st') = [] ∧ Pred.gone blobs (disk st'))
  ∧ (fst r = Respond 200 (JMessage (Js.lit "Folder deleted successfully")) →
       Db.listByFolder id (db st') = []
       ∧ Db.files (db st')
         = filter (λ r, Db.in_folder id r = false) (Db.files (db st))
       ∧ Pred.gone blobs (disk st')
       ∧ ∀ g, g ∈ Db.folders (db st') → Folder.id g ≠ id)
  ∧ (all_fails = true ∨ files_fails = true →
       Db.folders (db st') = Db.folders (db st))
  ∧ (all_fails = false → files_fails = false → folder_fails = false →
       Pred.removable blobs (disk st) →
       fst r = Respond 200 (JMessage (Js.lit "Folder deleted successfully"))).
Proof.
  intros r st' blobs. subst r st'. unfold deleteFolder, Db.stmt.
  destruct all_fails; simpl.
  { repeat split; intros; try done; try congruence. }
  fold blobs.
  destruct (Fs.forEach_unlink blobs (disk st)) as [d [m|]] eqn:Hrun; simpl.
  { assert (Hno : ¬ Pred.removable blobs (disk st)).
    { intros [d' Hd']%forEach_unlink_removable. congruence. }
    repeat split; intros; try done; try congruence; by destruct Hno. }
  pose proof (forEach_unlink_gone _ _ _ Hrun) as Hgone.
  pose proof (listByFolder_deleteFilesByFolder id (db st)) as Hlist.
  destruct files_fails, folder_fails; simpl;
    repeat split; intros; try done; try congruence;
    try (by intuition);
    match goal with
    | H : _ ∈ filter _ _ |- _ =>
        apply list_elem_of_filter in H as [H _];
        by apply bool_decide_eq_false in H
    end.
Qed.

Lemma deleteFolder_cascade_witness :
  let st' := snd (deleteFolder false false false (Js.lit "folder_1")
                    Sample.all_removable) in
  Db.listByFolder (Js.lit "folder_1") (db st') = []
  ∧ disk st' !! Sample.b_path = None
  ∧ Db.folders (db st') = [].
Proof.
  pose proof (deleteFolder_cascade false false false (Js.lit "folder_1")
                Sample.all_removable) as (_ & _ & _ & Hdone & _ & Hruns).
  assert (Hrem : Pred.removable
            (map FileRecord.filePath
               (Db.listByFolder (Js.lit "folder_1") (db Sample.all_removable)))
            (disk Sample.all_removable)).
  { intros p f Hp. vm_compute in Hp. apply list_elem_of_singleton in Hp as ->.
    vm_compute. by intros [= <-]. }
  destruct (Hdone (Hruns eq_refl eq_refl eq_refl Hrem)) as (Hlist & _ & Hgone & _).
  split; [exact Hlist|]. split; [|reflexivity].
  apply Hgone. vm_compute. apply list_elem_of_singleton. reflexivity.
Defined.

(** X25. Deleting a folder, whichever statements fail, leaves the blobs
    that no file of the folder refers to as they were. *)
Lemma deleteFolder_frame (all_fails files_fails folder_fails : bool)
    (id : jsstring) (st : state) (q : jsstring) :
  q ∉ map FileRecord.filePath (Db.listByFolder id (db st)) →
  disk (snd (deleteFolder all_fails files_fails folder_fails id st)) !! q
  = disk st !! q.
Proof.
  intros Hq. unfold deleteFolder, Db.stmt. destruct all_fails; [done|].
  destruct (Fs.forEach_unlink _ (disk st)) as [d [m|]] eqn:Hrun;
    pose proof (forEach_unlink_frame _ _ _ _ _ Hrun Hq) as Hd;
    [done|]. by destruct files_fails, folder_fails.
Qed.

End DeleteFolder.

(** ** Clearing everything *)

Section ClearAll.
Import Server.

(** C7 (as amended). Clearing skips the blobs that are already missing
    and removes the others.  When both catalog statements succeed and no
    removal of a present blob is refused, it answers with success;
    afterwards the file list is empty and none of the blobs that were
    tied to a record is left in the content directory. *)
Theorem clearAll_complete (st : state) :
  Pred.removable (map FileRecord.filePath (Db.files (db st))) (disk st) →
  ∃ st',
    clearAll false false st
      = (Respond 200 (JMessage (Js.lit "All files cleared")), st')
    ∧ listFiles false st' = (Respond 200 (JRows []), st')
    ∧ Db.files (db st') = []
    ∧ Pred.gone (map FileRecord.filePath (Db.files (db st))) (disk st').
Proof.
  intros [d Hrun]%forEach_unlink_removable.
  exists (State (Db.deleteAllFiles (db st)) d).
  unfold clearAll, Db.stmt. rewrite Hrun.
  repeat split. by apply (forEach_unlink_gone _ _ _ Hrun).
Qed.

Lemma clearAll_complete_witness :
  ∃ st',
    clearAll false false Sample.all_removable
      = (Respond 200 (JMessage (Js.lit "All files cleared")), st')
    ∧ listFiles false st' = (Respond 200 (JRows []), st')
    ∧ Db.files (db st') = []
    ∧ Pred.gone [Sample.a_path; Sample.b_path] (disk st').
Proof.
  apply (clearAll_complete Sample.all_removable).
  intros p f Hp. vm_compute in Hp.
  apply elem_of_cons in Hp as [->|Hp].
  - vm_compute. discriminate.
  - apply list_elem_of_singleton in Hp as ->. vm_compute. by intros [= <-].
Defined.

(** C7 (as stated) fails: when the removal of the first blob is refused
    the request ends in an uncaught exception, every row stays and the
    second blob stays. *)
Lemma clearAll_stops_at_refused_blob :
  let r := clearAll false false Sample.first_pinned in
  fst r = Uncaught (Js.lit "EPERM")
  ∧ Db.files (db (snd r)) = [Sample.row_a; Sample.row_b]
  ∧ fst (listFiles false (snd r)) ≠ Respond 200 (JRows [])
  ∧ is_Some (disk (snd r) !! Sample.b_path).
Proof.
  vm_compute. repeat split; [discriminate|eauto].
Qed.

(** What the amended statement excludes, in general: when the removal of
    a present blob is refused, the request ends in an uncaught exception
    and every row stays. *)
Lemma clearAll_refused (run_fails : bool) (st : state) :
  ¬ Pred.removable (map FileRecord.filePath (Db.files (db st))) (disk st) →
  ∃ m d, clearAll false run_fails st = (Uncaught m, State (db st) d).
Proof.
  intros Hno. unfold clearAll, Db.stmt.
  destruct (Fs.forEach_unlink _ (disk st)) as [d [m|]] eqn:Hrun; [eauto|].
  destruct Hno. by eapply forEach_unlink_None.
Qed.

End ClearAll.

(** ** Uploads that the filter refuses *)

Section FileFilter.
Import Js Server.

(** C8. An upload whose file name has an extension that is, in lower
    case, neither [.md] nor [.pdf] is answered with the filter's error and
    leaves the state as it was: no record is created and no blob is
    written. *)
Theorem upload_rejects_other_extensions (e : env) (f : upload_faults)
    (part : Part.t) (folderId : option jsstring) (st : state) :
  toLowerCase (Path.extname (Part.originalname part)) ≠ lit ".md" →
  toLowerCase (Path.extname (Part.originalname part)) ≠ lit ".pdf" →
  upload e f (Some part) folderId st
    = (Respond 500 (ErrorPage (lit "Only MD and PDF files are allowed")), st).
Proof.
  intros Hmd Hpdf. unfold upload, uploadSingle, fileFilter.
  by rewrite !bool_decide_eq_false_2.
Qed.

Lemma upload_rejects_other_extensions_witness :
  upload Sample.env1 no_faults (Some (Part.Make (lit "archive.zip") Sample.hello))
         None Sample.fresh
    = (Respond 500 (ErrorPage (lit "Only MD and PDF files are allowed")),
       Sample.fresh).
Proof.
  apply (upload_rejects_other_extensions Sample.env1 no_faults
           (Part.Make (lit "archive.zip") Sample.hello) None Sample.fresh);
    vm_compute; discriminate.
Defined.

End FileFilter.

(** ** UTF-8: encoding then decoding *)

Section Utf8.
Import Js Buffer.

Ltac arith := Z.div_mod_to_equations; lia.

Lemma between_spec (lo hi b : Z) : between lo hi b = true ↔ lo ≤ b ≤ hi.
Proof. unfold between. rewrite andb_true_iff, !Z.leb_le. tauto. Qed.

Lemma between_true (lo hi b : Z) : lo ≤ b ≤ hi → between lo hi b = true.
Proof. apply between_spec. Qed.

Lemma between_false (lo hi b : Z) : b < lo ∨ hi < b → between lo hi b = false.
Proof.
  intros H. apply not_true_is_false. rewrite between_spec. lia.
Qed.

Lemma scalar_spec (cp : Z) :
  scalar cp = true ↔ 0 ≤ cp ≤ 1114111 ∧ ¬ (55296 ≤ cp ≤ 57343).
Proof.
  unfold scalar. rewrite andb_true_iff, negb_true_iff, between_spec.
  rewrite <- not_true_iff_false, between_spec. tauto.
Qed.

Lemma land_ones_mod (a : Z) (n : Z) (m : Z) :
  0 ≤ n → m = Z.ones n → Z.land a m = a mod 2 ^ n.
Proof. intros Hn ->. by apply Z.land_ones. Qed.

(** The low six bits of a continuation byte go under the bits read so
    far. *)
Lemma lor_shiftl_6 (c b : Z) :
  Z.lor (Z.shiftl c 6) (Z.land b 63) = c * 64 + b mod 64.
Proof.
  rewrite <- Z.lxor_lor, <- Z.add_nocarry_lxor.
  - rewrite Z.shiftl_mul_pow2 by lia.
    by rewrite (land_ones_mod b 6 63).
  - apply Z.bits_inj'. intros n Hn. rewrite Z.land_spec, Z.bits_0.
    destruct (Z.lt_ge_cases n 6).
    + by rewrite Z.shiftl_spec_low.
    + rewrite Z.land_spec. change 63 with (Z.ones 6).
      rewrite Z.ones_spec_high by lia. by rewrite !andb_false_r.
  - apply Z.bits_inj'. intros n Hn. rewrite Z.land_spec, Z.bits_0.
    destruct (Z.lt_ge_cases n 6).
    + by rewrite Z.shiftl_spec_low.
    + rewrite Z.land_spec. change 63 with (Z.ones 6).
      rewrite Z.ones_spec_high by lia. by rewrite !andb_false_r.
Qed.

(** The bytes of a code point, by division. *)
Lemma utf8_bytes_div (cp : Z) :
  utf8_bytes cp =
    if cp <? 128 then [cp]
    else if cp <? 2048 then [192 + cp / 64; 128 + cp mod 64]
    else if cp <? 65536 then
      [224 + cp / 4096; 128 + (cp / 64) mod 64; 128 + cp mod 64]
    else
      [240 + cp / 262144; 128 + (cp / 4096) mod 64; 128 + (cp / 64) mod 64;
       128 + cp mod 64].
Proof.
  unfold utf8_bytes.
  rewrite !(land_ones_mod _ 6 63), !Z.shiftr_div_pow2 by (done || lia).
  reflexivity.
Qed.

Lemma utf8_run_step (s s' : utf8_state) (b : Z) (out : list Z) (rest : bytes) :
  utf8_step s b = (s', out) → utf8_run s (b :: rest) = out ++ utf8_run s' rest.
Proof. simpl. by intros ->. Qed.

Lemma step_ascii (b : Z) :
  0 ≤ b ≤ 127 → utf8_step utf8_start b = (utf8_start, [b]).
Proof.
  intros Hb. unfold utf8_step, utf8_lead. simpl. by rewrite between_true.
Qed.

Lemma step_lead2 (b : Z) :
  194 ≤ b ≤ 223 →
  utf8_step utf8_start b = (Utf8State (b mod 32) 1 128 191, []).
Proof.
  intros Hb. unfold utf8_step, utf8_lead. simpl.
  rewrite between_false, between_true by lia.
  by rewrite (land_ones_mod b 5 31).
Qed.

Lemma step_lead3 (b : Z) :
  224 ≤ b ≤ 239 →
  utf8_step utf8_start b
  = (Utf8State (b mod 16) 2 (if b =? 224 then 160 else 128)
       (if b =? 237 then 159 else 191), []).
Proof.
  intros Hb. unfold utf8_step, utf8_lead. simpl.
  rewrite !between_false, between_true by lia.
  by rewrite (land_ones_mod b 4 15).
Qed.

Lemma step_lead4 (b : Z) :
  240 ≤ b ≤ 244 →
  utf8_step utf8_start b
  = (Utf8State (b mod 8) 3 (if b =? 240 then 144 else 128)
       (if b =? 244 then 143 else 191), []).
Proof.
  intros Hb. unfold utf8_step, utf8_lead. simpl.
  rewrite !between_false, between_true by lia.
  by rewrite (land_ones_mod b 3 7).
Qed.

Lemma step_cont (c n lo hi b : Z) :
  1 < n → lo ≤ b ≤ hi →
  utf8_step (Utf8State c n lo hi) b
  = (Utf8State (c * 64 + b mod 64) (n - 1) 128 191, []).
Proof.
  intros Hn Hb. unfold utf8_step. simpl.
  destruct (Z.eqb_spec n 0); [lia|]. rewrite between_true by done.
  destruct (Z.eqb_spec n 1); [lia|]. by rewrite lor_shiftl_6.
Qed.

Lemma step_last (c lo hi b : Z) :
  lo ≤ b ≤ hi →
  utf8_step (Utf8State c 1 lo hi) b = (utf8_start, [c * 64 + b mod 64]).
Proof.
  intros Hb. unfold utf8_step. simpl. rewrite between_true by done.
  by rewrite lor_shiftl_6.
Qed.

(** Decoding the bytes of one scalar value gives it back and leaves the
    decoder where it started. *)
Lemma utf8_run_bytes (cp : Z) (rest : bytes) :
  scalar cp = true →
  utf8_run utf8_start (utf8_bytes cp ++ rest) = cp :: utf8_run utf8_start rest.
Proof.
  intros [Hcp Hsur]%scalar_spec. rewrite utf8_bytes_div.
  destruct (Z.ltb_spec cp 128).
  { simpl app. by erewrite utf8_run_step by (apply step_ascii; lia). }
  destruct (Z.ltb_spec cp 2048).
  { simpl app.
    erewrite utf8_run_step by (apply step_lead2; arith).
    erewrite utf8_run_step by (apply step_last; arith).
    simpl app. f_equal. arith. }
  destruct (Z.ltb_spec cp 65536).
  { simpl app.
    erewrite utf8_run_step by (apply step_lead3; arith).
    erewrite utf8_run_step.
    2:{ apply step_cont; [lia|].
        destruct (Z.eqb_spec (224 + cp / 4096) 224),
                 (Z.eqb_spec (224 + cp / 4096) 237); arith. }
    erewrite utf8_run_step by (apply step_last; arith).
    simpl app. f_equal. arith. }
  simpl app.
  erewrite utf8_run_step by (apply step_lead4; arith).
  erewrite utf8_run_step.
  2:{ apply step_cont; [lia|].
      destruct (Z.eqb_spec (240 + cp / 262144) 240),
               (Z.eqb_spec (240 + cp / 262144) 244); arith. }
  erewrite utf8_run_step by (apply step_cont; [lia|arith]).
  erewrite utf8_run_step by (apply step_last; arith).
  simpl app. f_equal. arith.
Qed.

Lemma utf8_run_encode (cps : list Z) :
  Forall (λ cp, scalar cp = true) cps →
  utf8_run utf8_start (flat_map utf8_bytes cps) = cps.
Proof.
  induction 1 as [|cp cps Hcp _ IH]; [done|].
  simpl flat_map. by rewrite utf8_run_bytes, IH.
Qed.

(** Every byte of an encoding is a byte. *)
Lemma utf8_bytes_range (cp : Z) :
  scalar cp = true → Forall (λ b, 0 ≤ b < 256) (utf8_bytes cp).
Proof.
  intros [Hcp Hsur]%scalar_spec. rewrite utf8_bytes_div.
  destruct (Z.ltb_spec cp 128); [repeat constructor; lia|].
  destruct (Z.ltb_spec cp 2048); [repeat constructor; arith|].
  destruct (Z.ltb_spec cp 65536); repeat constructor; arith.
Qed.

Lemma latin1_bytes (buf : bytes) :
  Forall (λ b, 0 ≤ b < 256) buf → map (λ cu, Z.land cu 255) buf = buf.
Proof.
  induction 1 as [|b buf Hb _ IH]; [done|]. simpl. rewrite IH. f_equal.
  rewrite (land_ones_mod b 8 255) by done. by apply Z.mod_small.
Qed.

(** The code units of a scalar value read back as that value. *)
Lemma code_points_units (cp : Z) (rest : jsstring) :
  scalar cp = true →
  code_points (utf16_units cp ++ rest) = cp :: code_points rest.
Proof.
  intros [Hcp Hsur]%scalar_spec. unfold utf16_units.
  destruct (Z.ltb_spec cp 65536).
  - simpl. by rewrite !between_false by lia.
  - rewrite (land_ones_mod _ 10 1023), Z.shiftr_div_pow2 by (done || lia).
    simpl. rewrite !between_true by arith. f_equal.
    rewrite Z.shiftl_mul_pow2 by lia. arith.
Qed.

Lemma code_points_encode (cps : list Z) :
  Forall (λ cp, scalar cp = true) cps →
  code_points (flat_map utf16_units cps) = cps.
Proof.
  induction 1 as [|cp cps Hcp _ IH]; [done|].
  simpl flat_map. by rewrite code_points_units, IH.
Qed.

Lemma flat_map_Forall {A B} (f : A → list B) (P : B → Prop) (l : list A) :
  Forall (λ x, Forall P (f x)) l → Forall P (flat_map f l).
Proof.
  induction 1; simpl; [constructor|]. by apply Forall_app.
Qed.

(** The conversion never takes its [catch] branch: it is the UTF-8
    reading, with U+FFFD for what is malformed, of the low bytes of the
    code units. *)
Lemma decodeFileName_unfold (name : jsstring) :
  Server.decodeFileName name
  = flat_map utf16_units (utf8_run utf8_start (map (λ cu, Z.land cu 255) name)).
Proof. reflexivity. Qed.

(** Any text made of scalar values, encoded as UTF-8 and read by the
    transport as latin1, is recovered exactly by the conversion at
    upload. *)
Lemma decodeFileName_recovers (cps : list Z) :
  Forall (λ cp, scalar cp = true) cps →
  Server.decodeFileName (toString_latin1 (from_utf8 (flat_map utf16_units cps)))
  = flat_map utf16_units cps.
Proof.
  intros Hcps. rewrite decodeFileName_unfold. unfold toString_latin1, from_utf8.
  rewrite (code_points_encode _ Hcps), latin1_bytes.
  - by rewrite utf8_run_encode.
  - apply flat_map_Forall. eapply Forall_impl; [exact Hcps|].
    apply utf8_bytes_range.
Qed.

End Utf8.

(** ** The file name conversion *)

Section FileName.
Import Js Server.

(** C5. The name "taqrir.md" in Arabic letters, encoded as UTF-8 and
    read by the transport as latin1, is recovered exactly by the
    conversion at upload, and is the original name of the record that
    the upload creates. *)
Theorem decodeFileName_recovers_taqrir :
  decodeFileName Sample.taqrir_received = Sample.taqrir
  ∧ map FileRecord.originalName
      (Db.files (db (snd (upload Sample.env1 no_faults
                            (Some (Part.Make Sample.taqrir_received Sample.hello))
                            None Sample.fresh))))
    = [Sample.taqrir].
Proof.
  split; [|vm_compute; reflexivity].
  apply (decodeFileName_recovers [1578; 1602; 1585; 1610; 1585; 46; 109; 100]).
  repeat constructor.
Qed.

(** No string has E9 2E 6D 64 as its UTF-8 encoding. *)
Lemma cafe_bytes_malformed (s : jsstring) :
  Buffer.from_utf8 s ≠ map (λ cu, Z.land cu 255) Sample.cafe.
Proof.
  unfold Buffer.from_utf8.
  destruct (Buffer.code_points s) as [|cp l]; [discriminate|].
  change (map (λ cu, Z.land cu 255) Sample.cafe) with [233; 46; 109; 100].
  simpl. unfold Buffer.utf8_bytes.
  destruct (Z.ltb_spec cp 128); [simpl; intros [= -> _]; lia|].
  destruct (Z.ltb_spec cp 2048).
  { simpl. intros [= Hb _].
    assert (Z.shiftr cp 6 < 32); [|lia].
    rewrite Z.shiftr_div_pow2 by lia. apply Z.div_lt_upper_bound; lia. }
  destruct (Z.ltb_spec cp 65536).
  { simpl. intros [= _ Hb _].
    assert (0 ≤ Z.land (Z.shiftr cp 6) 63); [|lia].
    apply Z.land_nonneg. lia. }
  simpl. intros [= Hb _].
  assert (0 ≤ Z.shiftr cp 18); [|lia]. apply Z.shiftr_nonneg. lia.
Qed.

(** C6 on the code. A name whose bytes are malformed as UTF-8 does not
    come back unmodified: the conversion puts U+FFFD where the bytes
    cannot be read.  (It does not raise.) *)
Theorem decodeFileName_malformed_not_kept :
  decodeFileName Sample.cafe = 65533 :: lit ".md"
  ∧ decodeFileName Sample.cafe ≠ Sample.cafe
  ∧ map FileRecord.originalName
      (Db.files (db (snd (upload Sample.env1 no_faults
                            (Some (Part.Make Sample.cafe Sample.hello))
                            None Sample.fresh))))
    = [65533 :: lit ".md"].
Proof. vm_compute. repeat split. discriminate. Qed.

End FileName.

(** ** Texts as the database keeps them *)

Section StoredText.
Import Js Buffer.

(** A text without lone surrogates is kept as it is. *)
Lemma text_well_formed (s : jsstring) : Inv.well_formed s → Db.text s = s.
Proof.
  intros (cps & Hcps & ->). unfold Db.text, from_utf8.
  by rewrite (code_points_encode _ Hcps), utf8_run_encode.
Qed.

End StoredText.

(** ** Renaming and moving *)

Section Update.
Import Js Server.

Lemma trim_nil_or_null (n : jsstring) :
  trim n ≠ [] → or_null (Some n) = Some n.
Proof. destruct n; [by intros []|done]. Qed.

Lemma setDisplayName_same (n : jsstring) (r : FileRecord.t) :
  Pred.same_but_displayName r (Db.setDisplayName n r).
Proof. by repeat split. Qed.

Lemma same_but_displayName_refl (r : FileRecord.t) :
  Pred.same_but_displayName r r.
Proof. by repeat split. Qed.

(** Rows under [UPDATE files SET displayName = ? WHERE id = ?], [n] being
    the text as the database keeps it. *)
Lemma updateDisplayName_rows (i n : jsstring) (l : list FileRecord.t) :
  Forall2 (λ old new,
             Pred.same_but_displayName old new
             ∧ (FileRecord.id old ≠ i → new = old)
             ∧ (FileRecord.id old = i → FileRecord.displayName new = n))
          l (map (λ r, if Db.has_id i r then Db.setDisplayName n r else r) l).
Proof.
  induction l as [|r l IH]; simpl; constructor; [|done].
  unfold Db.has_id. case_bool_decide as Hr.
  - split; [apply setDisplayName_same|]. by split.
  - split; [apply same_but_displayName_refl|]. by split.
Qed.

(** The lookup by original name does not see a change of display name. *)
Lemma find_originalName_updateDisplayName (c : Db.collation) (i n q : jsstring)
    (l : list FileRecord.t) :
  FileRecord.id <$>
    find (λ r, Db.text_eqb c (FileRecord.originalName r) q)
         (map (λ r, if Db.has_id i r then Db.setDisplayName n r else r) l)
  = FileRecord.id <$> find (λ r, Db.text_eqb c (FileRecord.originalName r) q) l.
Proof.
  induction l as [|r l IH]; [done|]. simpl.
  destruct (Db.has_id i r); simpl;
    destruct (Db.text_eqb c (FileRecord.originalName r) q); done.
Qed.

(** An update whose [WHERE] matches no row changes nothing. *)
Lemma update_absent (i : jsstring) (g : FileRecord.t → FileRecord.t)
    (l : list FileRecord.t) :
  find (Db.has_id i) l = None →
  map (λ r, if Db.has_id i r then g r else r) l = l.
Proof.
  induction l as [|r l IH]; [done|]. simpl.
  destruct (Db.has_id i r); [discriminate|]. intros Hl. by rewrite IH.
Qed.

(** C9. Renaming with a name that is not empty once trimmed changes, in
    the record with the given id, the display name only, changes no other
    record, no folder and no blob, and leaves the lookup by original name
    as it was; with a name that is empty once trimmed, or without a name,
    it answers 400 and changes nothing.  The display name becomes the
    trimmed name as the database keeps it: the trimmed name itself when
    it has no lone surrogate, and else the trimmed name with U+FFFD in the
    place of each lone surrogate. *)
Theorem renameFile_changes_displayName_only (run_fails : bool)
    (id n : jsstring) (st : state) :
  let r := renameFile run_fails id (Some n) st in
  let st' := snd r in
  (trim n ≠ [] →
     Forall2 (λ old new,
                Pred.same_but_displayName old new
                ∧ (FileRecord.id old ≠ id → new = old)
                ∧ (FileRecord.id old = id → run_fails = false →
                     FileRecord.displayName new = Db.text (trim n)
                     ∧ (Inv.well_formed (trim n) →
                          FileRecord.displayName new = trim n)))
             (Db.files (db st)) (Db.files (db st'))
     ∧ Db.folders (db st') = Db.folders (db st)
     ∧ disk st' = disk st
     ∧ (∀ q, FileRecord.id <$> Db.findByOriginalName q (db st')
             = FileRecord.id <$> Db.findByOriginalName q (db st))
     ∧ (run_fails = false →
          fst r = Respond 200 (JRenamed (lit "File renamed successfully") (trim n))))
  ∧ (trim n = [] →
       r = (Respond 400 (JError (lit "Display name is required")), st))
  ∧ renameFile run_fails id None st
      = (Respond 400 (JError (lit "Display name is required")), st).
Proof.
  intros r st'. subst r st'. unfold renameFile, Db.stmt.
  split; [|split; [|done]].
  - intros Hn. rewrite (trim_nil_or_null _ Hn), bool_decide_eq_false_2 by done.
    destruct run_fails; simpl.
    + split; [|done].
      apply Forall_Forall2_diag, Forall_forall. intros x _.
      split; [apply same_but_displayName_refl|]. by split.
    + split; [|split; [done|split; [done|split; [|done]]]].
      * eapply Forall2_impl; [apply updateDisplayName_rows|].
        simpl. intros old new (Hs & Ho & Hd).
        split; [done|]. split; [done|]. intros Hi _.
        split; [by apply Hd|]. intros Hwf. rewrite (Hd Hi).
        by apply text_well_formed.
      * intros q. apply find_originalName_updateDisplayName.
  - intros Hn. destruct n as [|c n]; [done|]. simpl.
    by rewrite bool_decide_eq_true_2.
Qed.

Lemma renameFile_changes_displayName_only_witness :
  let st' := snd (renameFile false (lit "file_1_a") (Some (lit "  New Title "))
                    Sample.all_removable) in
  Forall2 (λ old new,
             Pred.same_but_displayName old new
             ∧ (FileRecord.id old ≠ lit "file_1_a" → new = old)
             ∧ (FileRecord.id old = lit "file_1_a" → false = false →
                  FileRecord.displayName new = lit "New Title"))
          (Db.files (db Sample.all_removable)) (Db.files (db st'))
  ∧ renameFile false (lit "file_1_a") (Some (lit "   ")) Sample.all_removable
    = (Respond 400 (JError (lit "Display name is required")), Sample.all_removable).
Proof.
  pose proof (renameFile_changes_displayName_only false (lit "file_1_a")
                (lit "  New Title ") Sample.all_removable) as [Hok _].
  pose proof (renameFile_changes_displayName_only false (lit "file_1_a")
                (lit "   ") Sample.all_removable) as (_ & Hempty & _).
  split.
  - eapply Forall2_impl; [apply Hok; vm_compute; discriminate|].
    intros old new (Hs & Ho & Hd). split; [exact Hs|]. split; [exact Ho|].
    intros Hi Hf. destruct (Hd Hi Hf) as [Hd1 _]. exact Hd1.
  - apply Hempty. vm_compute. reflexivity.
Defined.

(** C10. For an id that no record has, renaming (with a name that is not
    empty once trimmed) and moving both answer with success when the
    update statement runs, and leave the state exactly as it was. *)
Theorem rename_move_unknown_id (id n : jsstring) (folderId : option jsstring)
    (st : state) :
  Db.findById id (db st) = None →
  trim n ≠ [] →
  renameFile false id (Some n) st
    = (Respond 200 (JRenamed (lit "File renamed successfully") (trim n)), st)
  ∧ moveFile false id folderId st
    = (Respond 200 (JMessage (lit "File moved successfully")), st).
Proof.
  intros Hid Hn. unfold renameFile, moveFile, Db.stmt.
  rewrite (trim_nil_or_null _ Hn), bool_decide_eq_false_2 by done.
  unfold Db.updateDisplayName, Db.updateFolder.
  unfold Db.findById in Hid. rewrite !(update_absent _ _ _ Hid).
  by destruct st as [[c fs fo] d].
Qed.

Lemma rename_move_unknown_id_witness :
  renameFile false (lit "file_0_none") (Some (lit "New Title")) Sample.all_removable
    = (Respond 200 (JRenamed (lit "File renamed successfully") (lit "New Title")),
       Sample.all_removable)
  ∧ moveFile false (lit "file_0_none") (Some (lit "folder_1")) Sample.all_removable
    = (Respond 200 (JMessage (lit "File moved successfully")), Sample.all_removable).
Proof.
  apply (rename_move_unknown_id (lit "file_0_none") (lit "New Title")
           (Some (lit "folder_1")) Sample.all_removable).
  - vm_compute. reflexivity.
  - vm_compute. discriminate.
Defined.

End Update.

(** ** Replacing a record of the same name *)

Section Replace.
Import Js Server.

Lemma text_eqb_refl (c : Db.collation) (n : jsstring) : Db.text_eqb c n n = true.
Proof. destruct c; simpl; by apply bool_decide_eq_true_2. Qed.

Lemma find_has_id (r : FileRecord.t) (l : list FileRecord.t) :
  NoDup (map FileRecord.id l) → r ∈ l →
  find (Db.has_id (FileRecord.id r)) l = Some r.
Proof.
  induction l as [|x l IH]; simpl; [by intros _ ?%elem_of_nil|].
  intros [Hx Hl]%NoDup_cons [->|Hr]%elem_of_cons.
  - unfold Db.has_id. by rewrite bool_decide_eq_true_2.
  - unfold Db.has_id at 1. case_bool_decide as Hid; [|by apply IH].
    destruct Hx. rewrite Hid. clear -Hr.
    induction Hr; simpl; [by apply elem_of_cons; left|by apply elem_of_cons; right].
Qed.

Lemma find_has_id_fresh (i : jsstring) (l : list FileRecord.t) :
  (∀ r, r ∈ l → FileRecord.id r ≠ i) → find (Db.has_id i) l = None.
Proof.
  induction l as [|x l IH]; simpl; [done|]. intros Hl.
  unfold Db.has_id at 1. rewrite bool_decide_eq_false_2.
  - apply IH. intros r Hr. apply Hl. by apply elem_of_cons; right.
  - apply Hl. by apply elem_of_cons; left.
Qed.

Lemma find_elem_of (P : FileRecord.t → bool) (l : list FileRecord.t) r :
  find P l = Some r → r ∈ l ∧ P r = true.
Proof.
  induction l as [|x l IH]; simpl; [discriminate|].
  destruct (P x) eqn:Hx.
  - intros [= <-]. split; [by apply elem_of_cons; left|done].
  - intros [Hr HP]%IH. split; [by apply elem_of_cons; right|done].
Qed.

Lemma filter_none (P : FileRecord.t → Prop) `{∀ x, Decision (P x)}
    (l : list FileRecord.t) :
  (∀ r, r ∈ l → ¬ P r) → filter P l = [].
Proof.
  intros Hl. destruct (filter P l) as [|x k] eqn:Hf; [done|].
  assert (Hx : x ∈ filter P l) by (rewrite Hf; by apply elem_of_cons; left).
  apply list_elem_of_filter in Hx as [HP Hx]. by destruct (Hl x Hx).
Qed.

(** The storage engine always produces a file name. *)
Lemma storageFilename_Normal (e : env) (n : jsstring) :
  storageFilename e n
  = Normal (ofNumber (storageNow e) ++ lit "_" ++ storageRandom e ++ lit "_"
              ++ decodeFileName n).
Proof. reflexivity. Qed.

(** The route is reached only once the middleware has stored the blob:
    the filter accepted the name, the path holds no NUL and could be
    opened, and the size is within the limit.  Every other upload ends
    before the route, in the error page or in an exception of the storage
    engine that nothing catches. *)
Lemma upload_reaches_route (e : env) (f : upload_faults) (part : Part.t)
    (folderId : option jsstring) (st : state) :
  let newName := ofNumber (storageNow e) ++ lit "_" ++ storageRandom e
                   ++ lit "_" ++ decodeFileName (Part.originalname part) in
  let newPath := Path.join (uploadsDir e) newName in
  let size := Z.of_nat (length (Part.content part)) in
  (∃ b, fst (upload e f (Some part) folderId st) = Respond 200 b)
  ∨ (∃ m, fst (upload e f (Some part) folderId st) = Respond 500 (JError m)) →
  fileFilter (Part.originalname part) = Normal true
  ∧ size ≤ fileSize
  ∧ (0 ∉ newPath)
  ∧ open_error f = None
  ∧ upload e f (Some part) folderId st
    = uploadRoute e f
        (ReqFile.Make (Part.originalname part) newName newPath size) folderId
        (State (db st) (Fs.put newPath (Part.content part) (disk st))).
Proof.
  intros newName newPath size. unfold upload, uploadSingle.
  rewrite storageFilename_Normal. fold newName newPath size.
  destruct (fileFilter (Part.originalname part)) as [b|m] eqn:Hfilter.
  2:{ intros [[b Hx]|[m' Hx]]; discriminate. }
  assert (b = true) as ->.
  { unfold fileFilter in Hfilter. destruct (_ || _); congruence. }
  unfold Fs.createWriteStream.
  destruct (bool_decide_reflect (0 ∈ newPath)) as [Hnul|Hnul].
  { intros [[b Hx]|[m' Hx]]; discriminate. }
  destruct (open_error f) as [m|].
  { intros [[b Hx]|[m' Hx]]; discriminate. }
  destruct (Z.ltb_spec fileSize size) as [Hbig|Hsmall].
  { intros [[b Hx]|[m' Hx]]; discriminate. }
  intros _. by repeat split.
Qed.

(** X23. On either schema, when the upload of a name for which the lookup
    finds a record is answered with success, the statements that fetch
    the old path and delete the old record having run, the upload has
    replaced that record: given that it was the only one of that name and
    that its blob is not at the path of the new one, the only record of
    that name is afterwards the new one, with the id and the dates of this
    upload and the converted name as display name; the old blob is gone
    (it may have been missing already) and the new blob holds the uploaded
    bytes. *)
Lemma upload_replaces_match (e : env) (f : upload_faults) (part : Part.t)
    (folderId : option jsstring) (st : state) (old : FileRecord.t)
    (answer : body) :
  let fileName := decodeFileName (Part.originalname part) in
  let newName := ofNumber (storageNow e) ++ lit "_" ++ storageRandom e
                   ++ lit "_" ++ fileName in
  let newPath := Path.join (uploadsDir e) newName in
  let named (r : FileRecord.t) :=
    Db.text_eqb (Db.originalNameCollation (db st)) (FileRecord.originalName r)
                fileName = true in
  fst (upload e f (Some part) folderId st) = Respond 200 answer →
  path_fails f = false →
  delete_fails f = false →
  NoDup (map FileRecord.id (Db.files (db st))) →
  Db.findByOriginalName fileName (db st) = Some old →
  (∀ r, r ∈ Db.files (db st) → named r → r = old) →
  FileRecord.filePath old ≠ newPath →
  ∃ new st',
    upload e f (Some part) folderId st
      = (Respond 200 (JUploaded (fileId e) newName fileName fileName
                        (Z.of_nat (length (Part.content part)))
                        (removeFirstDot (toLowerCase (Path.extname (Part.originalname part))))
                        (responseDate e)), st')
    ∧ filter named (Db.files (db st')) = [new]
    ∧ FileRecord.id new = fileId e
    ∧ FileRecord.uploadDate new = insertDate e
    ∧ FileRecord.originalName new = fileName
    ∧ FileRecord.displayName new = fileName
    ∧ FileRecord.filePath new = newPath
    ∧ FileRecord.type new
      = removeFirstDot (toLowerCase (Path.extname (Part.originalname part)))
    ∧ disk st' !! FileRecord.filePath old = None
    ∧ disk st' !! newPath = Some (Fs.File (Part.content part) false).
Proof.
  intros fileName newName newPath named Hok Hpathok Hdelok Hids Hfind Honly Hpath.
  destruct (upload_reaches_route e f part folderId st) as (_ & _ & _ & _ & Hup);
    [left; by eexists|].
  fold fileName newName newPath in Hup. rewrite Hup in Hok |- *. clear Hup.
  revert Hok.
  destruct (find_elem_of _ _ _ Hfind) as [Hold _].
  unfold uploadRoute, Db.stmt. cbn [ReqFile.originalname db disk].
  fold fileName. rewrite Hpathok, Hdelok.
  destruct (find_fails f); [discriminate|]. rewrite Hfind.
  unfold Db.findById. rewrite !(find_has_id _ _ Hids Hold).
  destruct (Fs.unlinkIfExists (FileRecord.filePath old) _) as [d|m] eqn:Hunlink;
    [|discriminate].
  apply unlinkIfExists_Normal in Hunlink as ->.
  unfold insertFile, Db.insertFile, Db.findById.
  destruct (insert_fails f); [discriminate|].
  cbn [db disk ReqFile.filename ReqFile.size ReqFile.path FileRecord.id].
  destruct (find (Db.has_id (fileId e)) _); [discriminate|]. intros _.
  eexists _, _. split; [reflexivity|].
  cbn [db disk Db.files Db.deleteFile FileRecord.id FileRecord.uploadDate
       FileRecord.originalName FileRecord.displayName FileRecord.filePath
       FileRecord.type].
  split.
  { rewrite filter_app, (filter_none named).
    - rewrite filter_cons_True; [done|]. apply text_eqb_refl.
    - intros r [Hid Hr]%list_elem_of_filter Hnamed.
      rewrite (Honly r Hr Hnamed) in Hid. unfold Db.has_id in Hid.
      by rewrite bool_decide_eq_true_2 in Hid. }
  do 6 (split; [reflexivity|]). split.
  - apply lookup_delete_eq.
  - rewrite lookup_delete_ne by done. apply lookup_insert_eq.
Qed.

End Replace.

(** ** One record per name *)

Section UniqueNames.
Import Js Server.

Lemma text_eqb_sym (c : Db.collation) (a b : jsstring) :
  Db.text_eqb c a b = Db.text_eqb c b a.
Proof.
  destruct c; simpl; apply bool_decide_ext; split; congruence.
Qed.

Lemma text_eqb_trans (c : Db.collation) (a b d : jsstring) :
  Db.text_eqb c a b = true → Db.text_eqb c b d = true → Db.text_eqb c a d = true.
Proof.
  destruct c; simpl; rewrite !bool_decide_eq_true; congruence.
Qed.

Lemma length_filter_filter (P Q : FileRecord.t → Prop)
    `{∀ x, Decision (P x)} `{∀ x, Decision (Q x)} (l : list FileRecord.t) :
  (length (filter P (filter Q l)) ≤ length (filter P l))%nat.
Proof.
  induction l as [|x l IH]; [done|].
  rewrite (filter_cons Q), (filter_cons P).
  destruct (decide (Q x)), (decide (P x)); rewrite ?(filter_cons P);
    repeat case_decide; simpl; try done; lia.
Qed.

(** Two records in a list that holds at most one of that name are one. *)
Lemma at_most_one (P : FileRecord.t → Prop) `{∀ x, Decision (P x)}
    (l : list FileRecord.t) (r1 r2 : FileRecord.t) :
  (length (filter P l) ≤ 1)%nat → r1 ∈ l → r2 ∈ l → P r1 → P r2 → r1 = r2.
Proof.
  intros Hlen H1 H2 HP1 HP2.
  assert (Hf1 : r1 ∈ filter P l) by by apply list_elem_of_filter.
  assert (Hf2 : r2 ∈ filter P l) by by apply list_elem_of_filter.
  destruct (filter P l) as [|x [|y k]]; simpl in Hlen; [|  |lia].
  - by apply elem_of_nil in Hf1.
  - apply list_elem_of_singleton in Hf1, Hf2. congruence.
Qed.

Lemma find_none_filter (P : FileRecord.t → bool) (l : list FileRecord.t) :
  find P l = None → filter (λ r, P r = true) l = [].
Proof.
  induction l as [|x l IH]; [done|]. cbn [find].
  destruct (P x) eqn:Hx; [discriminate|].
  intros Hl. rewrite filter_cons_False by congruence. by apply IH.
Qed.

(** What the insert leaves in the catalog: the rows as they were, or the
    rows and one more whose original name is the converted name. *)
Lemma insertFile_db (e : env) (f : upload_faults) (file : ReqFile.t)
    (fileName : jsstring) (folderId : option jsstring) (st : state) :
  db (snd (insertFile e f file fileName folderId st)) = db st
  ∨ ∃ row, FileRecord.originalName row = fileName
           ∧ db (snd (insertFile e f file fileName folderId st))
             = Db.Database (Db.originalNameCollation (db st))
                 (Db.files (db st) ++ [row]) (Db.folders (db st)).
Proof.
  unfold insertFile, Db.insertFile. destruct (insert_fails f); [by left|].
  destruct (Db.findById _ _); [by left|]. right.
  eexists. split; [|reflexivity]. reflexivity.
Qed.

(** Adding a record whose name no row has keeps names unique. *)
Lemma unique_names_snoc (c : Db.collation) (l : list FileRecord.t)
    (fo : list Folder.t) (row : FileRecord.t) :
  Pred.unique_names (Db.Database c l fo) →
  filter (λ r, Db.text_eqb c (FileRecord.originalName r)
                 (FileRecord.originalName row) = true) l = [] →
  Pred.unique_names (Db.Database c (l ++ [row]) fo).
Proof.
  intros Hl Hnone n. specialize (Hl n). simpl in *. rewrite filter_app, length_app.
  rewrite filter_cons. case_decide as Hrow; simpl; [|lia].
  rewrite (filter_none _ l); [simpl; lia|].
  intros r Hr Hn.
  assert (Hin : r ∈ filter (λ r, Db.text_eqb c (FileRecord.originalName r)
                                   (FileRecord.originalName row) = true) l).
  { apply list_elem_of_filter. split; [|done].
    apply (text_eqb_trans _ _ n); [done|]. by rewrite text_eqb_sym. }
  rewrite Hnone in Hin. by apply elem_of_nil in Hin.
Qed.

(** X24. When the statements run, an upload keeps at most one record per
    name: exactly on a database created by the server, up to the case of
    the letters A-Z on one created by the reset script. *)
Lemma upload_keeps_unique_names (e : env) (p : option Part.t)
    (folderId : option jsstring) (st : state) :
  Pred.unique_names (db st) →
  Pred.unique_names (db (snd (upload e no_faults p folderId st))).
Proof.
  intros Hst. unfold upload.
  destruct (uploadSingle e no_faults p (disk st)) as [|m|file d|m|d];
    [done|done| |done|done].
  unfold uploadRoute, Db.stmt. cbn [no_faults find_fails path_fails delete_fails db disk].
  set (fileName := decodeFileName (ReqFile.originalname file)).
  destruct (Db.findByOriginalName fileName (db st)) as [old|] eqn:Hfind.
  - match goal with |- context [match ?u with Normal _ => _ | Throw _ => _ end] =>
      destruct u as [d'|m] end; [|done].
    set (st1 := State (Db.deleteFile (FileRecord.id old) (db st)) d').
    assert (H1 : Pred.unique_names (db st1)).
    { intros n. specialize (Hst n). simpl.
      etrans; [apply length_filter_filter|done]. }
    destruct (insertFile_db e no_faults file fileName folderId st1)
      as [->|(row & Hrow & ->)]; [done|].
    destruct (db st) as [c l fo] eqn:Hdb. simpl in *.
    apply unique_names_snoc; [done|]. rewrite Hrow.
    apply filter_none. intros r [Hid Hr]%list_elem_of_filter Hn.
    apply find_elem_of in Hfind as [Hold Hname]. simpl in *.
    assert (r = old) as ->.
    { by apply (at_most_one _ l r old (Hst fileName)). }
    unfold Db.has_id in Hid. by rewrite bool_decide_eq_true_2 in Hid.
  - destruct (insertFile_db e no_faults file fileName folderId (State (db st) d))
      as [->|(row & Hrow & ->)]; [done|].
    destruct (db st) as [c l fo] eqn:Hdb. simpl in *.
    apply unique_names_snoc; [done|]. rewrite Hrow.
    by apply find_none_filter in Hfind.
Qed.

End UniqueNames.

(** ** Names that differ in letter case *)

Section LetterCase.
Import Js Server.

(** C2 on the code. On a database created by the server the lookup by
    original name is exact: with "Report.md" stored, "report.md" finds
    nothing.  On a database created by the reset script the same lookup
    finds the record. *)
Theorem findByOriginalName_exact_on_server_schema :
  map FileRecord.originalName (Db.files (db Sample.with_Report)) = [lit "Report.md"]
  ∧ Db.nocase (lit "Report.md") = Db.nocase (lit "report.md")
  ∧ Db.findByOriginalName (lit "report.md") (db Sample.with_Report) = None
  ∧ FileRecord.originalName <$>
      Db.findByOriginalName (lit "report.md") (db Sample.with_Report_after_reset)
    = Some (lit "Report.md").
Proof. vm_compute. repeat split. Qed.

(** C1 on the code. On a database created by the server, uploading
    "report.md" when "Report.md" is stored succeeds and leaves two
    records, the old one with its id and its blob. *)
Theorem upload_other_case_keeps_both :
  (∃ b, fst Sample.then_report = Respond 200 b)
  ∧ map FileRecord.originalName (Db.files (db (snd Sample.then_report)))
    = [lit "Report.md"; lit "report.md"]
  ∧ map FileRecord.id (Db.files (db (snd Sample.then_report)))
    = [lit "file_1700000000002_p0o9i8u7y"; lit "file_1700000060002_a9b8c7d6e"]
  ∧ Fs.data <$> disk (snd Sample.then_report) !! Sample.Report_path
    = Some Sample.hello.
Proof. vm_compute. repeat split. eauto. Qed.

End LetterCase.

(** ** Reading a file: the cases that hold *)

Section GetFileOk.
Import Js Server.

Lemma getFile_absent (id : jsstring) (st : state) :
  Db.findById id (db st) = None →
  getFile false id st = (Respond 404 (JError (lit "File not found")), st).
Proof. unfold getFile, Db.stmt. by intros ->. Qed.

Lemma getFile_present (id : jsstring) (st : state) (row : FileRecord.t)
    (f : Fs.file) :
  Db.findById id (db st) = Some row →
  disk st !! FileRecord.filePath row = Some f →
  getFile false id st
    = (Respond 200
         (JFile row (flat_map Buffer.utf16_units
                       (Buffer.utf8_run Buffer.utf8_start (Fs.data f)))), st).
Proof.
  unfold getFile, Db.stmt, Fs.readFile_utf8. by intros -> ->.
Qed.

End GetFileOk.

(** ** Reading a file: type pdf *)

Section GetFile.
Import Js Server.

(** C4 on the code. For a record of type pdf the content returned is the
    blob read as UTF-8 text: the four bytes above 127 of the sample come
    back as U+FFFD each, so the content is not the blob's bytes. *)
Theorem getFile_pdf_is_decoded_text :
  ∃ row,
    getFile false Sample.pdf_id Sample.with_pdf
      = (Respond 200 (JFile row (lit "%PDF-1.4"
                                   ++ [10; 37; 65533; 65533; 65533; 65533; 10])),
         Sample.with_pdf)
    ∧ FileRecord.type row = lit "pdf"
    ∧ Fs.data <$> disk Sample.with_pdf !! FileRecord.filePath row
      = Some Sample.pdf_bytes
    ∧ lit "%PDF-1.4" ++ [10; 37; 65533; 65533; 65533; 65533; 10]
      ≠ Buffer.toString_latin1 Sample.pdf_bytes.
Proof.
  eexists. split; [vm_compute; reflexivity|].
  vm_compute. repeat split. discriminate.
Qed.

End GetFile.

(** * Further properties of the code *)

(** ** What the UTF-8 reading produces *)

Section Decoder.
Import Js Buffer.

Ltac arith := Z.div_mod_to_equations; lia.

Lemma scalar_replacement : scalar 65533 = true.
Proof. reflexivity. Qed.

Lemma utf8_lead_ok (b : Z) :
  Inv.decoder_ok (utf8_lead b).1
  ∧ Forall (λ cp, scalar cp = true) (utf8_lead b).2.
Proof.
  unfold utf8_lead.
  destruct (between 0 127 b) eqn:H1.
  { apply between_spec in H1. split; [by left|].
    repeat constructor. apply scalar_spec. lia. }
  destruct (between 194 223 b) eqn:H2.
  { apply between_spec in H2. split; [|constructor].
    right. simpl. rewrite (land_ones_mod b 5 31) by done.
    split; [lia|]. split; [lia|]. left. split; [done|].
    unfold Inv.tail_ok. arith. }
  destruct (between 224 239 b) eqn:H3.
  { apply between_spec in H3. split; [|constructor].
    right. simpl. rewrite (land_ones_mod b 4 15) by done.
    destruct (Z.eqb_spec b 224), (Z.eqb_spec b 237);
      (split; [lia|]); (split; [lia|]); right; left; (split; [done|]);
      intros b2 Hb2; unfold Inv.tail_ok; arith. }
  destruct (between 240 244 b) eqn:H4.
  { apply between_spec in H4. split; [|constructor].
    right. simpl. rewrite (land_ones_mod b 3 7) by done.
    destruct (Z.eqb_spec b 240), (Z.eqb_spec b 244);
      (split; [lia|]); (split; [lia|]); right; right; (split; [done|]);
      intros b2 b3 Hb2 Hb3; unfold Inv.tail_ok; arith. }
  split; [by left|]. repeat constructor.
Qed.

(** One byte keeps the decoder in a state from which only scalar values
    can come, and emits only scalar values. *)
Lemma utf8_step_ok (s : utf8_state) (b : Z) :
  Inv.decoder_ok s →
  Inv.decoder_ok (utf8_step s b).1
  ∧ Forall (λ cp, scalar cp = true) (utf8_step s b).2.
Proof.
  intros Hs. unfold utf8_step.
  destruct (Z.eqb_spec (needed s) 0) as [H0|H0]; [apply utf8_lead_ok|].
  destruct Hs as [Hs|(Hlo & Hhi & Hs)]; [done|].
  destruct (between (lower s) (upper s) b) eqn:Hb.
  - apply between_spec in Hb. rewrite lor_shiftl_6.
    destruct Hs as [[Hn Hc]|[[Hn Hc]|[Hn Hc]]]; rewrite Hn; simpl.
    + split; [by left|]. repeat constructor. apply scalar_spec.
      unfold Inv.tail_ok in Hc. arith.
    + split; [|constructor]. right. simpl. split; [lia|]. split; [lia|].
      left. split; [done|]. by apply Hc.
    + split; [|constructor]. right. simpl. split; [lia|]. split; [lia|].
      right. left. split; [done|]. intros b' Hb'. by apply Hc.
  - destruct (utf8_lead_ok b) as [Hl Ho]. destruct (utf8_lead b) as [s' out].
    simpl in *. split; [done|]. constructor; [reflexivity|done].
Qed.

Lemma utf8_run_ok (s : utf8_state) (buf : bytes) :
  Inv.decoder_ok s → Forall (λ cp, scalar cp = true) (utf8_run s buf).
Proof.
  revert s. induction buf as [|b rest IH]; intros s Hs; simpl.
  - destruct (needed s =? 0); repeat constructor.
  - destruct (utf8_step_ok s b Hs) as [Hs' Hout].
    destruct (utf8_step s b) as [s' out]. simpl in *.
    apply Forall_app. split; [done|]. by apply IH.
Qed.

(** Whatever the bytes, the text read from them has no lone surrogate. *)
Lemma toString_utf8_well_formed (buf : bytes) :
  ∃ text, toString_utf8 buf = Normal text ∧ Inv.well_formed text.
Proof.
  eexists. split; [reflexivity|].
  exists (utf8_run utf8_start buf). split; [|done].
  apply utf8_run_ok. by left.
Qed.

Lemma decodeFileName_well_formed (name : jsstring) :
  Inv.well_formed (Server.decodeFileName name).
Proof.
  rewrite decodeFileName_unfold. eexists. split; [|done].
  apply utf8_run_ok. by left.
Qed.

(** A decoder with a sequence open always emits something. *)
Lemma utf8_run_open (s : utf8_state) (buf : bytes) :
  needed s ≠ 0 → utf8_run s buf ≠ [].
Proof.
  revert s. induction buf as [|b rest IH]; intros s Hs; simpl.
  - by destruct (Z.eqb_spec (needed s) 0).
  - unfold utf8_step. destruct (Z.eqb_spec (needed s) 0); [done|].
    destruct (between (lower s) (upper s) b).
    + destruct (Z.eqb_spec (needed s) 1); [done|].
      simpl. apply IH. simpl. lia.
    + by destruct (utf8_lead b).
Qed.

Lemma utf8_run_nil (buf : bytes) : utf8_run utf8_start buf = [] → buf = [].
Proof.
  destruct buf as [|b rest]; [done|]. simpl. unfold utf8_step, utf8_lead. simpl.
  repeat match goal with |- context [if ?c then _ else _] => destruct c end;
    try done; simpl; intros Hrun; by apply utf8_run_open in Hrun.
Qed.

Lemma utf16_units_not_nil (cp : Z) : utf16_units cp ≠ [].
Proof. unfold utf16_units. by destruct (cp <? 65536). Qed.

(** Only the empty name converts to the empty name. *)
Lemma decodeFileName_nil (name : jsstring) :
  Server.decodeFileName name = [] → name = [].
Proof.
  rewrite decodeFileName_unfold. intros H.
  destruct (utf8_run utf8_start (map (λ cu, Z.land cu 255) name)) as [|cp l] eqn:Hr.
  - apply utf8_run_nil in Hr. by destruct name.
  - simpl in H. apply app_eq_nil in H as [H _]. by apply utf16_units_not_nil in H.
Qed.

Lemma code_points_not_nil (c : Z) (s : jsstring) : code_points (c :: s) ≠ [].
Proof.
  simpl. destruct (between 55296 56319 c).
  - destruct s as [|d s']; [done|]. by destruct (between 56320 57343 d).
  - by destruct (between 56320 57343 c).
Qed.

Lemma utf8_bytes_not_nil (cp : Z) : utf8_bytes cp ≠ [].
Proof.
  unfold utf8_bytes.
  by destruct (cp <? 128), (cp <? 2048), (cp <? 65536).
Qed.

(** Only the empty text is kept as the empty text. *)
Lemma text_nil (s : jsstring) : Db.text s = [] → s = [].
Proof.
  unfold Db.text. intros H.
  destruct (utf8_run utf8_start (from_utf8 s)) as [|cp l] eqn:Hr.
  - apply utf8_run_nil in Hr. destruct s as [|c s']; [done|].
    unfold from_utf8 in Hr.
    destruct (code_points (c :: s')) as [|cp l] eqn:Hc.
    + by apply code_points_not_nil in Hc.
    + simpl in Hr. apply app_eq_nil in Hr as [Hr _].
      by apply utf8_bytes_not_nil in Hr.
  - simpl in H. apply app_eq_nil in H as [H _]. by apply utf16_units_not_nil in H.
Qed.

End Decoder.

(** ** What every request keeps *)

Section Invariant.
Import Js Server.

Lemma NoDup_map_filter {A B} (f : A → B) (P : A → Prop) `{∀ x, Decision (P x)}
    (l : list A) :
  NoDup (map f l) → NoDup (map f (filter P l)).
Proof.
  induction l as [|x l IH]; [done|]. simpl. intros [Hx Hl]%NoDup_cons.
  rewrite filter_cons. case_decide; [|by apply IH].
  simpl. apply NoDup_cons. split; [|by apply IH].
  intros Hin. apply Hx. clear -Hin.
  induction l as [|y l IH]; [done|]. rewrite filter_cons in Hin.
  simpl. case_decide; simpl in Hin.
  - apply elem_of_cons in Hin as [->|Hin]; [by left|right; by apply IH].
  - right. by apply IH.
Qed.

Lemma Forall_filter_keep {A} (Q : A → Prop) (P : A → Prop)
    `{∀ x, Decision (P x)} (l : list A) :
  Forall Q l → Forall Q (filter P l).
Proof.
  rewrite !Forall_forall. intros Hl x [_ Hx]%list_elem_of_filter. by apply Hl.
Qed.

Lemma find_has_id_None (i : jsstring) (l : list FileRecord.t) :
  find (Db.has_id i) l = None → i ∉ map FileRecord.id l.
Proof.
  induction l as [|x l IH]; simpl; [by intros _ ?%elem_of_nil|].
  unfold Db.has_id at 1. case_bool_decide as Hx; [done|]. intros Hl.
  apply not_elem_of_cons. split; [congruence|by apply IH].
Qed.

Lemma map_id_update (i : jsstring) (g : FileRecord.t → FileRecord.t)
    (l : list FileRecord.t) :
  (∀ r, FileRecord.id (g r) = FileRecord.id r) →
  map FileRecord.id (map (λ r, if Db.has_id i r then g r else r) l)
  = map FileRecord.id l.
Proof.
  intros Hg. induction l as [|r l IH]; [done|]. simpl. rewrite IH.
  by destruct (Db.has_id i r); rewrite ?Hg.
Qed.

Lemma Forall_update (Q : FileRecord.t → Prop) (i : jsstring)
    (g : FileRecord.t → FileRecord.t) (l : list FileRecord.t) :
  (∀ r, Q r → Q (g r)) → Forall Q l →
  Forall Q (map (λ r, if Db.has_id i r then g r else r) l).
Proof.
  intros Hg. induction 1 as [|r l Hr _ IH]; simpl; constructor; [|done].
  destruct (Db.has_id i r); auto.
Qed.

(** The extension that the filter accepts gives the type [md] or [pdf]. *)
Lemma fileFilter_type (file : ReqFile.t) :
  fileFilter (ReqFile.originalname file) = Normal true →
  fileType file = lit "md" ∨ fileType file = lit "pdf".
Proof.
  unfold fileFilter, fileType.
  destruct (bool_decide_reflect
              (toLowerCase (Path.extname (ReqFile.originalname file)) = lit ".md"))
    as [->|_]; [by left|].
  destruct (bool_decide_reflect
              (toLowerCase (Path.extname (ReqFile.originalname file)) = lit ".pdf"))
    as [->|_]; [by right|done].
Qed.

Lemma fileFilter_not_nil (name : jsstring) :
  fileFilter name = Normal true → name ≠ [].
Proof. intros H ->. vm_compute in H. discriminate. Qed.

(** What the middleware hands to the route. *)
Lemma uploadSingle_Stored (e : env) (f : upload_faults) (p : option Part.t)
    (d d' : gmap (list Z) Fs.file) (file : ReqFile.t) :
  uploadSingle e f p d = Stored file d' →
  ∃ part,
    p = Some part
    ∧ fileFilter (Part.originalname part) = Normal true
    ∧ Z.of_nat (length (Part.content part)) ≤ fileSize
    ∧ file = ReqFile.Make (Part.originalname part)
               (ofNumber (storageNow e) ++ lit "_" ++ storageRandom e ++ lit "_"
                  ++ decodeFileName (Part.originalname part))
               (Path.join (uploadsDir e)
                  (ofNumber (storageNow e) ++ lit "_" ++ storageRandom e ++ lit "_"
                     ++ decodeFileName (Part.originalname part)))
               (Z.of_nat (length (Part.content part)))
    ∧ d' = Fs.put (ReqFile.path file) (Part.content part) d.
Proof.
  unfold uploadSingle. destruct p as [part|]; [|done].
  destruct (fileFilter (Part.originalname part)) as [[]|] eqn:Hf; try done.
  - rewrite storageFilename_Normal. unfold Fs.createWriteStream.
    case_bool_decide; [done|]. destruct (open_error f); [done|].
    destruct (Z.ltb_spec fileSize (Z.of_nat (length (Part.content part)))); [done|].
    intros [= <- <-]. exists part. by repeat split.
  - exfalso. unfold fileFilter in Hf. by destruct (_ || _).
Qed.

(** Past the size limit nothing is left at the path of the blob. *)
Lemma uploadSingle_TooLarge (e : env) (f : upload_faults) (part : Part.t)
    (d d' : gmap (list Z) Fs.file) :
  uploadSingle e f (Some part) d = TooLarge d' →
  d' = delete (Path.join (uploadsDir e)
                 (ofNumber (storageNow e) ++ lit "_" ++ storageRandom e ++ lit "_"
                    ++ decodeFileName (Part.originalname part)))
              d.
Proof.
  unfold uploadSingle.
  destruct (fileFilter (Part.originalname part)); [|done].
  rewrite storageFilename_Normal. unfold Fs.createWriteStream.
  case_bool_decide; [done|]. destruct (open_error f); [done|].
  destruct (_ <? _); [|done]. intros [= <-]. unfold Fs.put.
  apply map_eq. intros q.
  destruct (decide (q = Path.join (uploadsDir e)
                           (ofNumber (storageNow e) ++ lit "_" ++ storageRandom e
                              ++ lit "_" ++ decodeFileName (Part.originalname part))))
    as [->|Hq].
  - by rewrite !lookup_delete_eq.
  - by rewrite !lookup_delete_ne, lookup_insert_ne.
Qed.

Lemma find_has_id_None_fresh (i : jsstring) (l : list FileRecord.t) :
  find (Db.has_id i) l = None → ∀ r, r ∈ l → FileRecord.id r ≠ i.
Proof.
  induction l as [|x l IH]; simpl; [by intros _ r ?%elem_of_nil|].
  unfold Db.has_id at 1. case_bool_decide as Hx; [done|].
  intros Hl r [->|Hr]%elem_of_cons; [done|by apply IH].
Qed.

(** What the insert leaves: the catalog as it was, or one more row, with
    a fresh id. *)
Lemma insertFile_cases (e : env) (f : upload_faults) (file : ReqFile.t)
    (fileName : jsstring) (folderId : option jsstring) (st : state) :
  db (snd (insertFile e f file fileName folderId st)) = db st
  ∨ (Db.findById (fileId e) (db st) = None
     ∧ db (snd (insertFile e f file fileName folderId st))
       = Db.Database (Db.originalNameCollation (db st))
           (Db.files (db st)
              ++ [FileRecord.Row (fileId e) (ReqFile.filename file) fileName
                    fileName (ReqFile.size file) (fileType file) (insertDate e)
                    (ReqFile.path file) (Db.text <$> or_null folderId)])
           (Db.folders (db st))).
Proof.
  unfold insertFile, Db.insertFile. destruct (insert_fails f); [by left|].
  simpl. destruct (Db.findById (fileId e) (db st)); [by left|by right].
Qed.

Lemma catalog_ok_deleteFile (i : jsstring) (db : Db.database) :
  Inv.catalog_ok db → Inv.catalog_ok (Db.deleteFile i db).
Proof.
  intros (Hids & Hf & Hrec & Hn). repeat split; simpl; try done.
  - by apply NoDup_map_filter.
  - by apply Forall_filter_keep.
Qed.

Lemma catalog_ok_insert (e : env) (file : ReqFile.t) (fileName : jsstring)
    (folderId : option jsstring) (db : Db.database) :
  Inv.catalog_ok db →
  Db.findById (fileId e) db = None →
  Inv.record_ok (FileRecord.Row (fileId e) (ReqFile.filename file) fileName
                   fileName (ReqFile.size file) (fileType file) (insertDate e)
                   (ReqFile.path file) (Db.text <$> or_null folderId)) →
  Inv.catalog_ok
    (Db.Database (Db.originalNameCollation db)
       (Db.files db
          ++ [FileRecord.Row (fileId e) (ReqFile.filename file) fileName fileName
                (ReqFile.size file) (fileType file) (insertDate e)
                (ReqFile.path file) (Db.text <$> or_null folderId)])
       (Db.folders db)).
Proof.
  intros (Hids & Hf & Hrec & Hn) Hfresh Hnew. repeat split; simpl; try done.
  - rewrite map_app. apply NoDup_app. split; [done|]. split.
    + intros i Hi Hin. simpl in Hin. apply list_elem_of_singleton in Hin as ->.
      by apply find_has_id_None in Hfresh.
    + apply NoDup_singleton.
  - apply Forall_app. split; [done|]. by constructor.
Qed.

Lemma catalog_ok_upload (e : env) (f : upload_faults) (p : option Part.t)
    (folderId : option jsstring) (st : state) :
  Inv.catalog_ok (db st) → Inv.catalog_ok (db (snd (upload e f p folderId st))).
Proof.
  intros Hst. unfold upload.
  destruct (uploadSingle e f p (disk st)) as [|m|file d|m|d] eqn:Hup;
    [done|done| |done|done].
  apply uploadSingle_Stored in Hup as (part & -> & Hfilter & Hsize & Hfile & _).
  assert (Hnew : ∀ fid, Inv.record_ok
            (FileRecord.Row (fileId e) (ReqFile.filename file)
               (decodeFileName (ReqFile.originalname file))
               (decodeFileName (ReqFile.originalname file)) (ReqFile.size file)
               (fileType file) (insertDate e) (ReqFile.path file) fid)).
  { intros fid. subst file. unfold Inv.record_ok. simpl.
    assert (decodeFileName (Part.originalname part) ≠ []).
    { intros Hnil%decodeFileName_nil. by apply fileFilter_not_nil in Hfilter. }
    split; [by apply (fileFilter_type (ReqFile.Make _ _ _ _))|].
    split; [lia|]. split; [apply decodeFileName_well_formed|done]. }
  unfold uploadRoute, Db.stmt.
  destruct (find_fails f); [done|].
  cbn [db disk].
  destruct (Db.findByOriginalName _ (db st)) as [old|].
  - match goal with |- context [match ?u with Normal _ => _ | Throw _ => _ end] =>
      destruct u as [d'|m] end; [|done].
    match goal with |- context [insertFile _ _ _ _ _ (State ?x _)] =>
      assert (H1 : Inv.catalog_ok x) end.
    { destruct (delete_fails f); [done|]. by apply catalog_ok_deleteFile. }
    match goal with |- context [insertFile ?a ?b ?c ?n ?fo ?s] =>
      destruct (insertFile_cases a b c n fo s) as [->|[Hfresh ->]] end; [done|].
    by apply catalog_ok_insert.
  - match goal with |- context [insertFile ?a ?b ?c ?n ?fo ?s] =>
      destruct (insertFile_cases a b c n fo s) as [->|[Hfresh ->]] end; [done|].
    by apply catalog_ok_insert.
Qed.

Lemma find_folder_None (i : jsstring) (l : list Folder.t) :
  find (Folders.has_id i) l = None → i ∉ map Folder.id l.
Proof.
  induction l as [|x l IH]; simpl; [by intros _ ?%elem_of_nil|].
  unfold Folders.has_id at 1. case_bool_decide as Hx; [done|]. intros Hl.
  apply not_elem_of_cons. split; [congruence|by apply IH].
Qed.

(** Every request keeps the catalog well formed, whichever statements
    fail while it is served. *)
Lemma catalog_ok_step (st : state) (r : Run.request) :
  Inv.catalog_ok (db st) → Inv.catalog_ok (db (Run.step st r)).
Proof.
  intros Hst. pose proof Hst as (Hids & Hf & Hrec & Hn).
  destruct r as [e f p fo|g d i|a d|a b c i|d i n|d i fo|d e n|d i n]; simpl.
  - by apply catalog_ok_upload.
  - unfold deleteFile, Db.stmt. destruct g; [done|].
    destruct (Db.findById i (db st)); [|done].
    destruct (Fs.unlinkIfExists _ _); [|done].
    destruct d; [done|]. by apply catalog_ok_deleteFile.
  - unfold clearAll, Db.stmt. destruct a; [done|].
    destruct (Fs.forEach_unlink _ _) as [d' [m|]]; [done|].
    destruct d; [done|]. repeat split; simpl; try done; constructor.
  - unfold deleteFolder, Db.stmt. destruct a; [done|].
    destruct (Fs.forEach_unlink _ _) as [d' [m|]]; [done|].
    assert (Inv.catalog_ok (Db.deleteFilesByFolder i (db st))).
    { repeat split; simpl; try done;
        [by apply NoDup_map_filter|by apply Forall_filter_keep]. }
    destruct b; [done|]. destruct c; [done|].
    destruct H as (H1 & H2 & H3 & H4). repeat split; simpl; try done.
    + by apply NoDup_map_filter.
    + by apply Forall_filter_keep.
  - unfold renameFile, Db.stmt. destruct (or_null n) as [n'|]; [|done].
    case_bool_decide as Hn'; [done|]. destruct d; [done|].
    repeat split; simpl; try done.
    + by rewrite map_id_update.
    + apply Forall_update; [|done]. intros r (?&?&?&?&?).
      unfold Inv.record_ok. simpl. repeat split; try done; try lia.
      by intros Hnil%text_nil.
  - unfold moveFile, Db.stmt. destruct d; [done|].
    repeat split; simpl; try done.
    + by rewrite map_id_update.
    + apply Forall_update; [|done]. by intros r Hr.
  - unfold Folders.createFolder. destruct (or_null n) as [n'|]; [|done].
    case_bool_decide as Hn'; [done|]. destruct d; [done|].
    unfold Folders.insertFolder.
    destruct (find _ (Db.folders (db st))) eqn:Hfind; [done|].
    repeat split; simpl; try done.
    + rewrite map_app. apply NoDup_app. split; [done|]. split.
      * intros j Hj Hin. simpl in Hin. apply list_elem_of_singleton in Hin as ->.
        by apply find_folder_None in Hfind.
      * apply NoDup_singleton.
    + apply Forall_app. split; [done|]. constructor; [|done].
      simpl. by intros Hnil%text_nil.
  - unfold Folders.renameFolder, Db.stmt. destruct (or_null n) as [n'|]; [|done].
    case_bool_decide as Hn'; [done|]. destruct d; [done|].
    repeat split; simpl; try done.
    + clear -Hf. induction (Db.folders (db st)) as [|g l IH]; [done|].
      simpl in *. apply NoDup_cons in Hf as [Hg Hl].
      assert (Hmap : map Folder.id
                (map (λ g, if Folders.has_id i g
                           then Folder.Row (Folder.id g) (Db.text (trim n'))
                                  (Folder.createdDate g)
                           else g) l) = map Folder.id l).
      { clear. induction l as [|x l IH]; [done|]. simpl. rewrite IH.
        by destruct (Folders.has_id i x). }
      apply NoDup_cons. rewrite Hmap. split; [|done].
      by destruct (Folders.has_id i g).
    + clear -Hn Hn'. induction Hn as [|g l Hg _ IH]; simpl; constructor; [|done].
      destruct (Folders.has_id i g); [|done]. simpl. by intros Hnil%text_nil.
Qed.

Lemma catalog_ok_run (st : state) (rs : list Run.request) :
  Inv.catalog_ok (db st) → Inv.catalog_ok (db (Run.run st rs)).
Proof.
  revert st. induction rs as [|r rs IH]; intros st Hst; [done|].
  simpl. apply IH. by apply catalog_ok_step.
Qed.

Lemma catalog_ok_initial (st : state) :
  Run.initial st → Inv.catalog_ok (db st).
Proof.
  intros [Hf Hg]. unfold Inv.catalog_ok. rewrite Hf, Hg.
  repeat split; constructor.
Qed.

End Invariant.

(** ** The name in the download header *)

Section UriEncoding.
Import Js Buffer.

Ltac arith := Z.div_mod_to_equations; lia.

Lemma unreserved_ascii (c : Z) : Uri.unreserved c = true → 33 ≤ c ≤ 126.
Proof.
  unfold Uri.unreserved. rewrite !orb_true_iff, !between_spec, !Z.eqb_eq. lia.
Qed.

Lemma unreserved_hex_digit (n : Z) :
  0 ≤ n < 16 → Uri.unreserved (Uri.hex_digit n) = true.
Proof.
  intros Hn. unfold Uri.unreserved, Uri.hex_digit.
  destruct (Z.ltb_spec n 10).
  - rewrite (between_true 48 57) by lia. by rewrite !orb_true_r.
  - by rewrite (between_true 65 90) by lia.
Qed.

(** The escape of an octet is a percent sign and two hexadecimal
    digits. *)
Lemma escape_safe (b : Z) :
  0 ≤ b < 256 → Forall (λ c, Uri.unreserved c = true ∨ c = 37) (Uri.escape b).
Proof.
  intros Hb. unfold Uri.escape.
  apply Forall_cons. split; [by right|].
  apply Forall_cons. split.
  { left. apply unreserved_hex_digit. rewrite Z.shiftr_div_pow2 by lia. arith. }
  apply Forall_cons. split; [|by constructor].
  left. apply unreserved_hex_digit.
  rewrite (land_ones_mod b 4 15) by done. arith.
Qed.

Lemma escape_code_point_safe (cp : Z) :
  scalar cp = true →
  Forall (λ c, Uri.unreserved c = true ∨ c = 37) (Uri.escape_code_point cp).
Proof.
  intros Hcp. unfold Uri.escape_code_point. apply flat_map_Forall.
  eapply Forall_impl; [by apply utf8_bytes_range|]. apply escape_safe.
Qed.

(** On a text without lone surrogates the encoding does not raise: each
    scalar value is copied if it is unreserved and escaped, octet by octet
    of its UTF-8 form, otherwise. *)
Lemma encodeURIComponent_scalars (cps : list Z) :
  Forall (λ cp, scalar cp = true) cps →
  Uri.encodeURIComponent (flat_map utf16_units cps)
  = Normal (flat_map (λ cp, if Uri.unreserved cp then [cp]
                            else Uri.escape_code_point cp) cps).
Proof.
  induction 1 as [|cp cps Hcp _ IH]; [done|].
  pose proof Hcp as [Hr Hsur]%scalar_spec.
  simpl flat_map. unfold utf16_units at 1. destruct (Z.ltb_spec cp 65536).
  - simpl. rewrite IH. destruct (Uri.unreserved cp); [done|].
    by rewrite !between_false by lia.
  - assert (Hno : ∀ c, 55296 ≤ c → Uri.unreserved c = false).
    { intros c Hc. apply not_true_is_false. intros ?%unreserved_ascii. lia. }
    rewrite (land_ones_mod _ 10 1023), Z.shiftr_div_pow2 by (done || lia).
    simpl. rewrite IH, !Hno by arith.
    rewrite between_false, !between_true by arith.
    rewrite Z.shiftl_mul_pow2 by lia.
    replace (65536 + (55296 + (cp - 65536) / 2 ^ 10 - 55296) * 2 ^ 10
             + (56320 + (cp - 65536) mod 2 ^ 10 - 56320)) with cp by arith.
    done.
Qed.

Lemma encodeURIComponent_well_formed (s : jsstring) :
  Inv.well_formed s →
  ∃ encoded, Uri.encodeURIComponent s = Normal encoded
             ∧ Forall (λ c, Uri.unreserved c = true ∨ c = 37) encoded.
Proof.
  intros (cps & Hcps & ->). eexists. split; [by apply encodeURIComponent_scalars|].
  apply flat_map_Forall. eapply Forall_impl; [exact Hcps|].
  intros cp Hcp. simpl. destruct (Uri.unreserved cp) eqn:Hu.
  - apply Forall_cons. split; [by left|by constructor].
  - by apply escape_code_point_safe.
Qed.

End UriEncoding.

(** ** States that requests have built *)

Section Reachable.
Import Js Server.

(** X1. From a server with an empty catalog, after any requests and
    whichever statements failed, no two records share an id and no two
    folders do; the lookup by id of a record of the catalog finds that
    very record. *)
Theorem run_ids_unique (st : state) (rs : list Run.request) :
  Run.initial st →
  NoDup (map FileRecord.id (Db.files (db (Run.run st rs))))
  ∧ NoDup (map Folder.id (Db.folders (db (Run.run st rs))))
  ∧ ∀ r, r ∈ Db.files (db (Run.run st rs)) →
         Db.findById (FileRecord.id r) (db (Run.run st rs)) = Some r.
Proof.
  intros Hst%catalog_ok_initial.
  destruct (catalog_ok_run st rs Hst) as (Hids & Hf & _).
  split; [done|]. split; [done|]. intros r Hr. by apply find_has_id.
Qed.

Lemma run_ids_unique_witness :
  NoDup (map FileRecord.id
           (Db.files
              (db (Run.run Sample.fresh
                     [Run.Upload Sample.env1 no_faults
                        (Some (Part.Make (lit "Report.md") Sample.hello)) None;
                      Run.Upload Sample.env1 no_faults
                        (Some (Part.Make (lit "other.md") Sample.hello2)) None])))).
Proof.
  destruct (run_ids_unique Sample.fresh
              [Run.Upload Sample.env1 no_faults
                 (Some (Part.Make (lit "Report.md") Sample.hello)) None;
               Run.Upload Sample.env1 no_faults
                 (Some (Part.Make (lit "other.md") Sample.hello2)) None])
    as [H _].
  - split; reflexivity.
  - exact H.
Defined.

(** X2. In such a state every record has the type [md] or [pdf], a size
    between 0 and the upload limit of 10 MiB, an original name that is
    not empty and has no lone surrogate, and a display name that is not
    empty. *)
Theorem run_records_ok (st : state) (rs : list Run.request) (r : FileRecord.t) :
  Run.initial st →
  r ∈ Db.files (db (Run.run st rs)) →
  (FileRecord.type r = lit "md" ∨ FileRecord.type r = lit "pdf")
  ∧ 0 ≤ FileRecord.size r ≤ 10485760
  ∧ Inv.well_formed (FileRecord.originalName r)
  ∧ FileRecord.originalName r ≠ []
  ∧ FileRecord.displayName r ≠ [].
Proof.
  intros Hst%catalog_ok_initial Hr.
  destruct (catalog_ok_run st rs Hst) as (_ & _ & Hrec & _).
  rewrite Forall_forall in Hrec. exact (Hrec r Hr).
Qed.

Lemma run_records_ok_witness :
  Forall (λ r, (FileRecord.type r = lit "md" ∨ FileRecord.type r = lit "pdf")
               ∧ FileRecord.displayName r ≠ [])
    (Db.files
       (db (Run.run Sample.fresh
              [Run.Upload Sample.env1 no_faults
                 (Some (Part.Make (lit "scan.PDF") Sample.pdf_bytes)) None;
               Run.RenameFile false (fileId Sample.env1)
                 (Some (lit " Scan of May "))]))).
Proof.
  apply Forall_forall. intros r Hr.
  destruct (run_records_ok Sample.fresh
              [Run.Upload Sample.env1 no_faults
                 (Some (Part.Make (lit "scan.PDF") Sample.pdf_bytes)) None;
               Run.RenameFile false (fileId Sample.env1)
                 (Some (lit " Scan of May "))] r)
    as (H1 & _ & _ & _ & H2).
  - split; reflexivity.
  - exact Hr.
  - split; [exact H1|exact H2].
Defined.

(** A path without NUL, without a segment [..] and without a part that
    starts with a full stop is not refused by [res.sendFile]. *)
Lemma plain_sendFile (path : jsstring) :
  Download.plain path → Download.sendFile_error path = None.
Proof.
  intros (Hnul & Hup & Hparts). unfold Download.sendFile_error.
  rewrite bool_decide_eq_false_2, Hup by done.
  assert (Hnone : existsb Download.dotfile
                    (Path.split Path.is_slash (Path.normalize path)) = false).
  { induction Hparts as [|part parts Hpart _ IH]; [done|]. simpl. rewrite IH.
    destruct part as [|c [|c' part]]; [done|done|].
    simpl in *. by rewrite Hpart. }
  by rewrite Hnone.
Qed.

(** X3. In such a state the download route never answers 500, the name of
    every record being a text that can be encoded for the header.  For an
    id it answers 404 when no record has the id or its blob is missing.
    Otherwise it calls [res.sendFile] with a [Content-Disposition] made of
    [attachment; filename*=UTF-8''] and unreserved ASCII characters and
    percent signs only; either the stored path is refused and nothing is
    answered, or exactly the bytes of the blob are sent; they are sent
    when the path holds no NUL, no segment [..] and no part that starts
    with a full stop. *)
Theorem run_download (st : state) (rs : list Run.request) (id : jsstring) :
  Run.initial st →
  let st' := Run.run st rs in
  match Db.findById id (db st') with
  | None => Download.downloadFile false id st' = Download.Json 404 (lit "File not found")
  | Some row =>
      match disk st' !! FileRecord.filePath row with
      | None =>
          Download.downloadFile false id st'
          = Download.Json 404 (lit "File not found on disk")
      | Some f =>
          ∃ encoded,
            Forall (λ c, Uri.unreserved c = true ∨ c = 37) encoded
            ∧ ((∃ status, Download.downloadFile false id st' = Download.NotSent status)
               ∨ Download.downloadFile false id st'
                 = Download.SendFile (lit "application/octet-stream")
                     (lit "attachment; filename*=UTF-8''" ++ encoded) (Fs.data f))
            ∧ (Download.plain (FileRecord.filePath row) →
               Download.downloadFile false id st'
               = Download.SendFile (lit "application/octet-stream")
                   (lit "attachment; filename*=UTF-8''" ++ encoded) (Fs.data f))
      end
  end.
Proof.
  intros Hst%catalog_ok_initial st'.
  destruct (catalog_ok_run st rs Hst) as (_ & _ & Hrec & _). fold st' in Hrec.
  unfold Download.downloadFile, Db.stmt.
  destruct (Db.findById id (db st')) as [row|] eqn:Hrow; [|done].
  destruct (disk st' !! FileRecord.filePath row) as [f|]; [|done].
  apply find_elem_of in Hrow as [Hrow _].
  rewrite Forall_forall in Hrec. destruct (Hrec row Hrow) as (_ & _ & Hwf & _).
  destruct (encodeURIComponent_well_formed _ Hwf) as (enc & -> & Hsafe).
  exists enc. split; [done|]. split.
  - destruct (Download.sendFile_error (FileRecord.filePath row)); [left|right]; eauto.
  - intros Hplain. by rewrite plain_sendFile.
Qed.

Lemma run_download_witness :
  ∃ encoded,
    Forall (λ c, Uri.unreserved c = true ∨ c = 37) encoded
    ∧ Download.downloadFile false (fileId Sample.env1)
        (Run.run Sample.fresh
           [Run.Upload Sample.env1 no_faults
              (Some (Part.Make Sample.taqrir_received Sample.hello)) None])
      = Download.SendFile (lit "application/octet-stream")
          (lit "attachment; filename*=UTF-8''" ++ encoded) Sample.hello.
Proof.
  assert (H : ∃ encoded,
            Forall (λ c, Uri.unreserved c = true ∨ c = 37) encoded
            ∧ ((∃ status,
                  Download.downloadFile false (fileId Sample.env1)
                    (Run.run Sample.fresh
                       [Run.Upload Sample.env1 no_faults
                          (Some (Part.Make Sample.taqrir_received Sample.hello))
                          None])
                  = Download.NotSent status)
               ∨ Download.downloadFile false (fileId Sample.env1)
                   (Run.run Sample.fresh
                      [Run.Upload Sample.env1 no_faults
                         (Some (Part.Make Sample.taqrir_received Sample.hello))
                         None])
                 = Download.SendFile (lit "application/octet-stream")
                     (lit "attachment; filename*=UTF-8''" ++ encoded) Sample.hello)
            ∧ (Download.plain
                 (lit "/srv/app/uploads/1700000000000_k3x9q2m1a_"
                    ++ Sample.taqrir) →
               Download.downloadFile false (fileId Sample.env1)
                 (Run.run Sample.fresh
                    [Run.Upload Sample.env1 no_faults
                       (Some (Part.Make Sample.taqrir_received Sample.hello))
                       None])
               = Download.SendFile (lit "application/octet-stream")
                   (lit "attachment; filename*=UTF-8''" ++ encoded) Sample.hello)).
  { exact (run_download Sample.fresh
             [Run.Upload Sample.env1 no_faults
                (Some (Part.Make Sample.taqrir_received Sample.hello)) None]
             (fileId Sample.env1) (conj eq_refl eq_refl)). }
  destruct H as (encoded & Hsafe & _ & Hsent).
  exists encoded. split; [exact Hsafe|]. apply Hsent.
  split; [|split; [reflexivity|]].
  - vm_compute. intros Hin.
    repeat (apply elem_of_cons in Hin as [Hin|Hin]; [discriminate|]).
    by apply elem_of_nil in Hin.
  - vm_compute. repeat constructor.
Defined.

End Reachable.

(** ** Deleting one file *)

Section DeleteFile.
Import Js Server.

Lemma findById_deleteFile (id : jsstring) (db : Db.database) :
  Db.findById id (Db.deleteFile id db) = None.
Proof.
  unfold Db.findById, Db.deleteFile. simpl.
  apply find_has_id_fresh. intros r [Hr _]%list_elem_of_filter Hid.
  unfold Db.has_id in Hr. by rewrite bool_decide_eq_true_2 in Hr.
Qed.

Lemma findById_deleteFile_ne (i j : jsstring) (db : Db.database) :
  i ≠ j → Db.findById j (Db.deleteFile i db) = Db.findById j db.
Proof.
  intros Hne. unfold Db.findById, Db.deleteFile. cbn [Db.files].
  induction (Db.files db) as [|r l IH]; [done|].
  rewrite filter_cons. case_decide as Hr; cbn [find].
  - by rewrite IH.
  - rewrite IH. destruct (Db.has_id i r) eqn:Hi; [|done].
    apply bool_decide_eq_true in Hi. unfold Db.has_id.
    by rewrite bool_decide_eq_false_2 by congruence.
Qed.

(** X4. Deleting the file of an existing record, when the statements run
    and the removal of its blob is not refused (the blob may be missing
    already), answers with success; afterwards no record has that id, the
    lookup of any other id gives what it gave, the blob is gone and every
    other path of the content directory is as it was. *)
Theorem deleteFile_removes (id : jsstring) (st : state) (row : FileRecord.t) :
  Db.findById id (db st) = Some row →
  (∀ f, disk st !! FileRecord.filePath row = Some f → Fs.pinned f = false) →
  let r := deleteFile false false id st in
  fst r = Respond 200 (JMessage (lit "File deleted successfully"))
  ∧ Db.findById id (db (snd r)) = None
  ∧ (∀ j, j ≠ id → Db.findById j (db (snd r)) = Db.findById j (db st))
  ∧ Db.folders (db (snd r)) = Db.folders (db st)
  ∧ disk (snd r) !! FileRecord.filePath row = None
  ∧ (∀ q, q ≠ FileRecord.filePath row → disk (snd r) !! q = disk st !! q).
Proof.
  intros Hrow Hpin. unfold deleteFile, Db.stmt. rewrite Hrow.
  assert (Hunlink : Fs.unlinkIfExists (FileRecord.filePath row) (disk st)
                    = Normal (delete (FileRecord.filePath row) (disk st))).
  { unfold Fs.unlinkIfExists, Fs.existsSync, Fs.unlinkSync.
    destruct (disk st !! FileRecord.filePath row) as [f|] eqn:Hf.
    - by rewrite (Hpin f).
    - by rewrite delete_id. }
  rewrite Hunlink. simpl. split; [done|].
  split; [apply findById_deleteFile|].
  split; [intros j Hj; by apply findById_deleteFile_ne|].
  split; [done|]. split; [apply lookup_delete_eq|].
  intros q Hq. by apply lookup_delete_ne.
Qed.

Lemma deleteFile_removes_witness :
  let r := deleteFile false false (lit "file_2_b") Sample.all_removable in
  fst r = Respond 200 (JMessage (lit "File deleted successfully"))
  ∧ Db.findById (lit "file_2_b") (db (snd r)) = None
  ∧ disk (snd r) !! Sample.b_path = None.
Proof.
  destruct (deleteFile_removes (lit "file_2_b") Sample.all_removable Sample.row_b)
    as (H1 & H2 & _ & _ & H3 & _).
  - vm_compute. reflexivity.
  - vm_compute. by intros f [= <-].
  - split; [exact H1|]. split; [exact H2|exact H3].
Defined.

(** X5. Once a delete has answered with success, the id is unknown to
    every route that looks it up: a second delete, a read and a download
    answer 404, whether or not their lookup fails, and change nothing. *)
Theorem deleteFile_then_unknown (a b g : bool) (id : jsstring) (st : state) :
  fst (deleteFile a b id st)
    = Respond 200 (JMessage (lit "File deleted successfully")) →
  let st' := snd (deleteFile a b id st) in
  deleteFile g false id st' = (Respond 404 (JError (lit "File not found")), st')
  ∧ getFile false id st' = (Respond 404 (JError (lit "File not found")), st')
  ∧ Download.downloadFile g id st' = Download.Json 404 (lit "File not found").
Proof.
  intros Hok st'.
  assert (Hdb : Db.findById id (db st') = None).
  { subst st'. revert Hok. unfold deleteFile, Db.stmt. destruct a; [done|].
    destruct (Db.findById id (db st)) as [row|]; [|done].
    destruct (Fs.unlinkIfExists _ _) as [d|m]; [|done].
    destruct b; [done|]. intros _. apply findById_deleteFile. }
  clearbody st'. unfold deleteFile, getFile, Download.downloadFile, Db.stmt.
  rewrite Hdb. by destruct g.
Qed.

Lemma deleteFile_then_unknown_witness :
  let st' := snd (deleteFile false false (lit "file_2_b") Sample.all_removable) in
  deleteFile true false (lit "file_2_b") st'
    = (Respond 404 (JError (lit "File not found")), st')
  ∧ getFile false (lit "file_2_b") st'
    = (Respond 404 (JError (lit "File not found")), st')
  ∧ Download.downloadFile false (lit "file_2_b") st'
    = Download.Json 404 (lit "File not found").
Proof.
  apply (deleteFile_then_unknown false false true (lit "file_2_b")
           Sample.all_removable).
  vm_compute. reflexivity.
Defined.

(** X6. When the DELETE statement fails, the blob has been removed
    already: the route answers 500, the record stays without its blob, and
    reading it answers 500; deleting again, with the statements running,
    then succeeds and leaves no record of that id. *)
Theorem deleteFile_failed_then_retry (id : jsstring) (st : state)
    (row : FileRecord.t) :
  Db.findById id (db st) = Some row →
  (∀ f, disk st !! FileRecord.filePath row = Some f → Fs.pinned f = false) →
  let r1 := deleteFile false true id st in
  let r2 := deleteFile false false id (snd r1) in
  fst r1 = Respond 500 (JError (lit "Failed to delete file"))
  ∧ db (snd r1) = db st
  ∧ disk (snd r1) !! FileRecord.filePath row = None
  ∧ getFile false id (snd r1)
    = (Respond 500 (JError (lit "Failed to read file")), snd r1)
  ∧ fst r2 = Respond 200 (JMessage (lit "File deleted successfully"))
  ∧ Db.findById id (db (snd r2)) = None.
Proof.
  intros Hrow Hpin r1 r2.
  assert (Hunlink : Fs.unlinkIfExists (FileRecord.filePath row) (disk st)
                    = Normal (delete (FileRecord.filePath row) (disk st))).
  { unfold Fs.unlinkIfExists, Fs.existsSync, Fs.unlinkSync.
    destruct (disk st !! FileRecord.filePath row) as [f|] eqn:Hf.
    - by rewrite (Hpin f).
    - by rewrite delete_id. }
  assert (Hr1 : r1 = (Respond 500 (JError (lit "Failed to delete file")),
                      State (db st) (delete (FileRecord.filePath row) (disk st)))).
  { subst r1. unfold deleteFile, Db.stmt. by rewrite Hrow, Hunlink. }
  subst r2. rewrite Hr1. clear Hr1 r1. cbn [fst snd db disk].
  split; [done|]. split; [done|]. split; [apply lookup_delete_eq|].
  split.
  { unfold getFile, Db.stmt, Fs.readFile_utf8. cbn [db disk].
    by rewrite Hrow, lookup_delete_eq. }
  unfold deleteFile, Db.stmt. cbn [db disk]. rewrite Hrow.
  rewrite unlinkIfExists_missing by apply lookup_delete_eq. cbn [fst snd db].
  split; [done|apply findById_deleteFile].
Qed.

Lemma deleteFile_failed_then_retry_witness :
  let r1 := deleteFile false true (lit "file_2_b") Sample.all_removable in
  let r2 := deleteFile false false (lit "file_2_b") (snd r1) in
  fst r1 = Respond 500 (JError (lit "Failed to delete file"))
  ∧ getFile false (lit "file_2_b") (snd r1)
    = (Respond 500 (JError (lit "Failed to read file")), snd r1)
  ∧ fst r2 = Respond 200 (JMessage (lit "File deleted successfully")).
Proof.
  destruct (deleteFile_failed_then_retry (lit "file_2_b") Sample.all_removable
              Sample.row_b) as (H1 & _ & _ & H2 & H3 & _).
  - vm_compute. reflexivity.
  - vm_compute. by intros f [= <-].
  - split; [exact H1|]. split; [exact H2|exact H3].
Defined.

End DeleteFile.

(** ** What an upload stores *)

Section UploadStores.
Import Js Server.

Lemma find_app_fresh (P : FileRecord.t → bool) (l : list FileRecord.t)
    (r : FileRecord.t) :
  find P l = None → P r = true → find P (l ++ [r]) = Some r.
Proof.
  induction l as [|x l IH]; simpl; [by intros _ ->|].
  destruct (P x); [done|]. exact IH.
Qed.

(** The state after an upload that is answered with success, whichever
    statements of a replacement failed: the new record is found under the
    new id and the new blob holds the uploaded bytes, provided that no
    record of the catalog had its blob at that path (the blob of a record
    that is replaced is removed after the new one is written). *)
Lemma upload_stores (e : env) (f : upload_faults) (part : Part.t)
    (folderId : option jsstring) (st : state) (answer : body) :
  let fileName := decodeFileName (Part.originalname part) in
  let newName := ofNumber (storageNow e) ++ lit "_" ++ storageRandom e
                   ++ lit "_" ++ fileName in
  let newPath := Path.join (uploadsDir e) newName in
  let size := Z.of_nat (length (Part.content part)) in
  let type := removeFirstDot (toLowerCase (Path.extname (Part.originalname part))) in
  let new := FileRecord.Row (fileId e) newName fileName fileName size type
               (insertDate e) newPath (Db.text <$> or_null folderId) in
  fst (upload e f (Some part) folderId st) = Respond 200 answer →
  (∀ r, r ∈ Db.files (db st) → FileRecord.filePath r ≠ newPath) →
  ∃ st',
    upload e f (Some part) folderId st
      = (Respond 200 (JUploaded (fileId e) newName fileName fileName size type
                        (responseDate e)), st')
    ∧ Db.findById (fileId e) (db st') = Some new
    ∧ disk st' !! newPath = Some (Fs.File (Part.content part) false).
Proof.
  intros fileName newName newPath size type new Hok Hpath.
  destruct (upload_reaches_route e f part folderId st) as (_ & _ & _ & _ & Hup);
    [left; by eexists|].
  fold fileName newName newPath size in Hup. rewrite Hup in Hok |- *. clear Hup.
  revert Hok. unfold uploadRoute, Db.stmt.
  cbn [ReqFile.originalname db disk]. fold fileName.
  assert (Hins : ∀ dbx d,
            d !! newPath = Some (Fs.File (Part.content part) false) →
            fst (insertFile e f
                   (ReqFile.Make (Part.originalname part) newName newPath size)
                   fileName folderId (State dbx d)) = Respond 200 answer →
            ∃ st',
              insertFile e f
                (ReqFile.Make (Part.originalname part) newName newPath size)
                fileName folderId (State dbx d)
              = (Respond 200 (JUploaded (fileId e) newName fileName fileName size
                                type (responseDate e)), st')
              ∧ Db.findById (fileId e) (db st') = Some new
              ∧ disk st' !! newPath = Some (Fs.File (Part.content part) false)).
  { intros dbx d Hd. unfold insertFile, Db.insertFile.
    destruct (insert_fails f); [discriminate|].
    cbn [db disk ReqFile.filename ReqFile.size ReqFile.path FileRecord.id].
    destruct (Db.findById (fileId e) dbx) eqn:Hfresh; [discriminate|]. intros _.
    eexists. split; [reflexivity|]. split; [|exact Hd].
    unfold Db.findById. cbn [db Db.files]. apply find_app_fresh; [done|].
    unfold Db.has_id. by apply bool_decide_eq_true_2. }
  destruct (find_fails f); [discriminate|].
  destruct (Db.findByOriginalName fileName (db st)) as [old|] eqn:Hfind.
  - destruct (path_fails f); cbn match.
    { apply Hins. apply lookup_insert_eq. }
    destruct (Db.findById (FileRecord.id old) (db st)) as [old'|] eqn:Hold'.
    + apply find_elem_of in Hold' as [Hin' _].
      destruct (Fs.unlinkIfExists (FileRecord.filePath old') _) as [d|m] eqn:Hu;
        [|discriminate].
      apply unlinkIfExists_Normal in Hu as ->.
      apply Hins. rewrite lookup_delete_ne by (by apply Hpath).
      apply lookup_insert_eq.
    + apply Hins. apply lookup_insert_eq.
  - apply Hins. apply lookup_insert_eq.
Qed.

(** X7. Round trip through the download route: when an upload has been
    answered with success, its blob being at a path where no record of
    the catalog had one, the download under the new id calls
    [res.sendFile] on a blob that holds exactly the uploaded bytes,
    whatever they are, and these bytes are sent when the path is not one
    that [res.sendFile] refuses: it holds no NUL, no segment [..] and no
    part that starts with a full stop. *)
Theorem upload_then_download (e : env) (f : upload_faults) (part : Part.t)
    (folderId : option jsstring) (st : state) (answer : body) :
  let newPath :=
    Path.join (uploadsDir e)
      (ofNumber (storageNow e) ++ lit "_" ++ storageRandom e ++ lit "_"
         ++ decodeFileName (Part.originalname part)) in
  fst (upload e f (Some part) folderId st) = Respond 200 answer →
  (∀ r, r ∈ Db.files (db st) → FileRecord.filePath r ≠ newPath) →
  Download.plain newPath →
  ∃ encoded,
    Forall (λ c, Uri.unreserved c = true ∨ c = 37) encoded
    ∧ Download.downloadFile false (fileId e)
        (snd (upload e f (Some part) folderId st))
      = Download.SendFile (lit "application/octet-stream")
          (lit "attachment; filename*=UTF-8''" ++ encoded) (Part.content part).
Proof.
  intros newPath Hok Hpath Hplain.
  destruct (upload_stores e f part folderId st answer Hok Hpath)
    as (st' & -> & Hnew & Hblob).
  destruct (encodeURIComponent_well_formed _
              (decodeFileName_well_formed (Part.originalname part)))
    as (enc & Henc & Hsafe).
  exists enc. split; [exact Hsafe|]. cbn [snd].
  apply plain_sendFile in Hplain. unfold newPath in Hplain.
  unfold Download.downloadFile, Db.stmt. rewrite Hnew.
  cbn [FileRecord.filePath FileRecord.originalName].
  by rewrite Hblob, Henc, Hplain.
Qed.

Lemma upload_then_download_witness :
  ∃ encoded,
    Forall (λ c, Uri.unreserved c = true ∨ c = 37) encoded
    ∧ Download.downloadFile false (fileId Sample.env1) Sample.with_pdf
      = Download.SendFile (lit "application/octet-stream")
          (lit "attachment; filename*=UTF-8''" ++ encoded) Sample.pdf_bytes.
Proof.
  eapply (upload_then_download Sample.env1 no_faults
            (Part.Make (lit "report.pdf") Sample.pdf_bytes) None Sample.fresh).
  - vm_compute. reflexivity.
  - intros r Hr. vm_compute in Hr. by apply elem_of_nil in Hr.
  - split; [|split; [reflexivity|]].
    + vm_compute. intros Hin.
      repeat (apply elem_of_cons in Hin as [Hin|Hin]; [discriminate|]).
      by apply elem_of_nil in Hin.
    + vm_compute. repeat constructor.
Defined.

(** X8. Round trip through the read route for text: when an upload whose
    bytes are the UTF-8 encoding of a text without lone surrogates has
    been answered with success, its blob being at a path where no record
    of the catalog had one, reading the file under the new id returns
    that text as content. *)
Theorem upload_then_getFile_text (e : env) (f : upload_faults) (name : jsstring)
    (cps : list Z) (folderId : option jsstring) (st : state) (answer : body) :
  let text := flat_map Buffer.utf16_units cps in
  let part := Part.Make name (Buffer.from_utf8 text) in
  Forall (λ cp, Buffer.scalar cp = true) cps →
  fst (upload e f (Some part) folderId st) = Respond 200 answer →
  (∀ r, r ∈ Db.files (db st) →
        FileRecord.filePath r
        ≠ Path.join (uploadsDir e)
            (ofNumber (storageNow e) ++ lit "_" ++ storageRandom e ++ lit "_"
               ++ decodeFileName name)) →
  ∃ row st',
    snd (upload e f (Some part) folderId st) = st'
    ∧ getFile false (fileId e) st' = (Respond 200 (JFile row text), st')
    ∧ FileRecord.id row = fileId e
    ∧ FileRecord.originalName row = decodeFileName name.
Proof.
  intros text part Hcps Hok Hpath.
  destruct (upload_stores e f part folderId st answer Hok Hpath)
    as (st' & -> & Hnew & Hblob).
  eexists _, st'. split; [reflexivity|].
  rewrite (getFile_present _ _ _ _ Hnew Hblob). cbn [Fs.data Part.content part].
  unfold Buffer.from_utf8, text.
  rewrite (code_points_encode _ Hcps), (utf8_run_encode _ Hcps).
  by repeat split.
Qed.

Lemma upload_then_getFile_text_witness :
  ∃ row st',
    snd (upload Sample.env1 no_faults
           (Some (Part.Make (lit "notes.md") (Buffer.from_utf8 Sample.taqrir)))
           None Sample.fresh) = st'
    ∧ getFile false (fileId Sample.env1) st'
      = (Respond 200 (JFile row Sample.taqrir), st')
    ∧ FileRecord.id row = fileId Sample.env1
    ∧ FileRecord.originalName row = lit "notes.md".
Proof.
  eapply (upload_then_getFile_text Sample.env1 no_faults (lit "notes.md")
            [1578; 1602; 1585; 1610; 1585; 46; 109; 100] None Sample.fresh).
  - repeat constructor.
  - vm_compute. reflexivity.
  - intros r Hr. vm_compute in Hr. by apply elem_of_nil in Hr.
Defined.

(** X9. When the upload route answers 500 because one of its statements
    failed, the blob that the middleware wrote stays in the content
    directory although no record refers to it (none did before: the blob
    is at a path where no record of the catalog had one). *)
Theorem upload_failure_leaves_blob (e : env) (f : upload_faults) (part : Part.t)
    (folderId : option jsstring) (st : state) (m : jsstring) :
  let newPath :=
    Path.join (uploadsDir e)
      (ofNumber (storageNow e) ++ lit "_" ++ storageRandom e ++ lit "_"
         ++ decodeFileName (Part.originalname part)) in
  let r := upload e f (Some part) folderId st in
  (∀ r, r ∈ Db.files (db st) → FileRecord.filePath r ≠ newPath) →
  fst r = Respond 500 (JError m) →
  disk (snd r) !! newPath = Some (Fs.File (Part.content part) false)
  ∧ ∀ row, row ∈ Db.files (db (snd r)) → FileRecord.filePath row ≠ newPath.
Proof.
  intros newPath r Hpath Hfail. subst r.
  destruct (upload_reaches_route e f part folderId st) as (_ & _ & _ & _ & Hup);
    [right; by eexists|].
  fold newPath in Hup. rewrite Hup in Hfail |- *. clear Hup. revert Hfail.
  unfold uploadRoute, Db.stmt. cbn [ReqFile.originalname db disk].
  assert (Hins : ∀ dbx d file fileName,
            (∀ r, r ∈ Db.files dbx → FileRecord.filePath r ≠ newPath) →
            d !! newPath = Some (Fs.File (Part.content part) false) →
            fst (insertFile e f file fileName folderId (State dbx d))
              = Respond 500 (JError m) →
            disk (snd (insertFile e f file fileName folderId (State dbx d)))
              !! newPath = Some (Fs.File (Part.content part) false)
            ∧ ∀ row, row ∈ Db.files
                             (db (snd (insertFile e f file fileName folderId
                                         (State dbx d)))) →
                     FileRecord.filePath row ≠ newPath).
  { intros dbx d file fileName Hp Hd. unfold insertFile.
    destruct (if insert_fails f then None else _); [done|]. by intros _. }
  destruct (find_fails f).
  { intros _. cbn [fst snd db disk]. split; [apply lookup_insert_eq|done]. }
  destruct (Db.findByOriginalName _ (db st)) as [old|].
  - assert (Hdel : ∀ r, r ∈ Db.files
                            (match (if delete_fails f then None
                                    else Some (Db.deleteFile (FileRecord.id old) (db st)))
                             with Some db' => db' | None => db st end) →
                        FileRecord.filePath r ≠ newPath).
    { destruct (delete_fails f); simpl; [done|].
      intros r [_ Hr]%list_elem_of_filter. by apply Hpath. }
    destruct (path_fails f); cbn match.
    { by apply Hins; [|apply lookup_insert_eq]. }
    destruct (Db.findById (FileRecord.id old) (db st)) as [old'|] eqn:Hold'.
    + apply find_elem_of in Hold' as [Hin' _].
      destruct (Fs.unlinkIfExists (FileRecord.filePath old') _) as [d|m'] eqn:Hu;
        [|done].
      apply unlinkIfExists_Normal in Hu as ->.
      apply Hins; [done|].
      rewrite lookup_delete_ne by (by apply Hpath). apply lookup_insert_eq.
    + by apply Hins; [|apply lookup_insert_eq].
  - by apply Hins; [|apply lookup_insert_eq].
Qed.

Lemma upload_failure_leaves_blob_witness :
  let r := upload Sample.env1 (UploadFaults None true false false false)
             (Some (Part.Make (lit "a.md") Sample.hello)) None Sample.fresh in
  disk (snd r) !! lit "/srv/app/uploads/1700000000000_k3x9q2m1a_a.md"
    = Some (Fs.File Sample.hello false)
  ∧ Db.files (db (snd r)) = [].
Proof.
  destruct (upload_failure_leaves_blob Sample.env1
              (UploadFaults None true false false false)
              (Part.Make (lit "a.md") Sample.hello) None Sample.fresh
              (lit "Database error")) as [H1 _].
  - intros r Hr. vm_compute in Hr. by apply elem_of_nil in Hr.
  - vm_compute. reflexivity.
  - split; [exact H1|reflexivity].
Defined.

End UploadStores.

(** ** Names that need no conversion *)

Section AsciiNames.
Import Js Buffer.

Lemma ascii_scalar (s : jsstring) :
  Forall (λ c, 0 ≤ c ≤ 127) s → Forall (λ cp, scalar cp = true) s.
Proof.
  intros Hs. eapply Forall_impl; [exact Hs|].
  intros c Hc. apply scalar_spec. simpl in Hc. lia.
Qed.

Lemma ascii_units (s : jsstring) :
  Forall (λ c, 0 ≤ c ≤ 127) s → flat_map utf16_units s = s.
Proof.
  induction 1 as [|c s Hc _ IH]; [done|]. simpl. rewrite IH.
  unfold utf16_units. by destruct (Z.ltb_spec c 65536); [|lia].
Qed.

Lemma ascii_bytes (s : jsstring) :
  Forall (λ c, 0 ≤ c ≤ 127) s → flat_map utf8_bytes s = s.
Proof.
  induction 1 as [|c s Hc _ IH]; [done|]. simpl. rewrite IH.
  unfold utf8_bytes. by destruct (Z.ltb_spec c 128); [|lia].
Qed.

(** X10. A file name made of ASCII characters only is left as it is by
    the conversion at upload. *)
Theorem decodeFileName_ascii (name : jsstring) :
  Forall (λ c, 0 ≤ c ≤ 127) name → Server.decodeFileName name = name.
Proof.
  intros Hname.
  pose proof (decodeFileName_recovers name (ascii_scalar _ Hname)) as H.
  rewrite (ascii_units _ Hname) in H. unfold toString_latin1, from_utf8 in H.
  rewrite <- (ascii_units _ Hname) in H at 1.
  rewrite (code_points_encode _ (ascii_scalar _ Hname)) in H.
  by rewrite (ascii_bytes _ Hname) in H.
Qed.

Lemma decodeFileName_ascii_witness :
  Server.decodeFileName (lit "Report (final) v2.md") = lit "Report (final) v2.md".
Proof.
  apply (decodeFileName_ascii (lit "Report (final) v2.md")).
  vm_compute. repeat constructor; discriminate.
Defined.

End AsciiNames.

(** ** Moving a file *)

Section MoveFile.
Import Js Server.

Lemma find_update (i j : jsstring) (g : FileRecord.t → FileRecord.t)
    (l : list FileRecord.t) :
  (∀ r, FileRecord.id (g r) = FileRecord.id r) →
  find (Db.has_id j) (map (λ r, if Db.has_id i r then g r else r) l)
  = (λ r, if Db.has_id i r then g r else r) <$> find (Db.has_id j) l.
Proof.
  intros Hg. induction l as [|r l IH]; [done|]. simpl.
  assert (Db.has_id j (if Db.has_id i r then g r else r) = Db.has_id j r) as ->.
  { destruct (Db.has_id i r); [|done]. unfold Db.has_id. by rewrite Hg. }
  by destruct (Db.has_id j r).
Qed.

Lemma has_id_true (i : jsstring) (r : FileRecord.t) :
  Db.has_id i r = true ↔ FileRecord.id r = i.
Proof. unfold Db.has_id. apply bool_decide_eq_true. Qed.

Lemma findById_id (i : jsstring) (db : Db.database) (r : FileRecord.t) :
  Db.findById i db = Some r → FileRecord.id r = i.
Proof. intros [_ H]%find_elem_of. by apply has_id_true. Qed.

(** X11. Moving the file of an existing record, when the statement runs,
    sets the folder reference of that record and nothing else: the lookup
    of any other id, the folders and the content directory are as they
    were.  The folder is not looked up: any text that is not empty becomes
    the reference, in the form in which the database keeps it (the text
    itself when it has no lone surrogate), and the record is then listed
    in that folder; an empty or missing one clears the reference. *)
Theorem moveFile_sets_folder (id : jsstring) (folderId : option jsstring)
    (st : state) (row : FileRecord.t) :
  Db.findById id (db st) = Some row →
  let r := moveFile false id folderId st in
  fst r = Respond 200 (JMessage (lit "File moved successfully"))
  ∧ Db.findById id (db (snd r))
    = Some (Db.setFolderId (Db.text <$> or_null folderId) row)
  ∧ (∀ j, j ≠ id → Db.findById j (db (snd r)) = Db.findById j (db st))
  ∧ Db.folders (db (snd r)) = Db.folders (db st)
  ∧ disk (snd r) = disk st
  ∧ (∀ g, or_null folderId = Some g →
          Db.setFolderId (Some (Db.text g)) row ∈ Db.listByFolder g (db (snd r))
          ∧ (Inv.well_formed g →
             Db.findById id (db (snd r)) = Some (Db.setFolderId (Some g) row)))
  ∧ (or_null folderId = None →
     Db.findById id (db (snd r)) = Some (Db.setFolderId None row)
     ∧ ∀ g, Db.setFolderId None row ∉ Db.listByFolder g (db (snd r))).
Proof.
  intros Hrow. unfold moveFile, Db.stmt. cbn [fst snd db disk].
  pose proof (findById_id _ _ _ Hrow) as Hid.
  assert (Hnew : Db.findById id (Db.updateFolder id (or_null folderId) (db st))
                 = Some (Db.setFolderId (Db.text <$> or_null folderId) row)).
  { unfold Db.findById, Db.updateFolder. cbn [Db.files].
    rewrite find_update by done. unfold Db.findById in Hrow. rewrite Hrow.
    simpl. by rewrite (proj2 (has_id_true id row)). }
  split; [done|]. split; [exact Hnew|]. split.
  { intros j Hj. unfold Db.findById, Db.updateFolder. cbn [Db.files].
    rewrite find_update by done.
    destruct (find (Db.has_id j) (Db.files (db st))) as [x|] eqn:Hx; [|done].
    simpl. apply find_elem_of in Hx as [_ Hx%has_id_true].
    destruct (Db.has_id id x) eqn:Hix; [|done].
    apply has_id_true in Hix. congruence. }
  split; [done|]. split; [done|]. split.
  - intros g Hg. rewrite Hg in Hnew |- *. simpl in Hnew. split.
    + apply find_elem_of in Hnew as [Hin _].
      unfold Db.listByFolder. apply list_elem_of_filter. split; [|exact Hin].
      unfold Db.in_folder. by apply bool_decide_eq_true_2.
    + intros Hwf. by rewrite Hnew, (text_well_formed _ Hwf).
  - intros Hnone. rewrite Hnone in Hnew |- *. split; [exact Hnew|].
    intros g [Hin _]%list_elem_of_filter.
    unfold Db.in_folder in Hin. by apply bool_decide_eq_true in Hin.
Qed.

Lemma moveFile_sets_folder_witness :
  let r := moveFile false (lit "file_1_a") (Some (lit "no_such_folder"))
             Sample.all_removable in
  fst r = Respond 200 (JMessage (lit "File moved successfully"))
  ∧ Db.setFolderId (Some (lit "no_such_folder")) Sample.row_a
    ∈ Db.listByFolder (lit "no_such_folder") (db (snd r)).
Proof.
  destruct (moveFile_sets_folder (lit "file_1_a") (Some (lit "no_such_folder"))
              Sample.all_removable Sample.row_a) as (H1 & _ & _ & _ & _ & H2 & _).
  - vm_compute. reflexivity.
  - split; [exact H1|].
    destruct (H2 (lit "no_such_folder") eq_refl) as [Hin _]. exact Hin.
Defined.

Lemma map_filePath_update (i : jsstring) (f : option jsstring)
    (l : list FileRecord.t) :
  map FileRecord.filePath
      (map (λ r, if Db.has_id i r then Db.setFolderId f r else r) l)
  = map FileRecord.filePath l.
Proof.
  induction l as [|r l IH]; [done|]. simpl. rewrite IH.
  by destruct (Db.has_id i r).
Qed.

Lemma removable_subset (paths paths' : list jsstring)
    (d : gmap (list Z) Fs.file) :
  (∀ p, p ∈ paths' → p ∈ paths) →
  Pred.removable paths d → Pred.removable paths' d.
Proof. intros Hsub Hrem p f Hp. apply Hrem. by apply Hsub. Qed.

Lemma elem_of_map_filePath (r : FileRecord.t) (l : list FileRecord.t) :
  r ∈ l → FileRecord.filePath r ∈ map FileRecord.filePath l.
Proof.
  induction 1; simpl; [by apply elem_of_cons; left|by apply elem_of_cons; right].
Qed.

Lemma elem_of_map_filePath_inv (p : jsstring) (l : list FileRecord.t) :
  p ∈ map FileRecord.filePath l → ∃ r, r ∈ l ∧ FileRecord.filePath r = p.
Proof.
  induction l as [|x l IH]; simpl; [by intros ?%elem_of_nil|].
  intros [->|Hp]%elem_of_cons.
  - exists x. split; [by apply elem_of_cons; left|done].
  - destruct (IH Hp) as (r & Hr & <-). exists r.
    split; [by apply elem_of_cons; right|done].
Qed.

Lemma moveFile_sets_folder_aux (id : jsstring) (folderId : option jsstring)
    (st : state) (row : FileRecord.t) :
  Db.findById id (db st) = Some row →
  Db.findById id (db (snd (moveFile false id folderId st)))
    = Some (Db.setFolderId (Db.text <$> or_null folderId) row)
  ∧ Db.files (db (snd (moveFile false id folderId st)))
    = map (λ r, if Db.has_id id r
                then Db.setFolderId (Db.text <$> or_null folderId) r else r)
          (Db.files (db st))
  ∧ disk (snd (moveFile false id folderId st)) = disk st.
Proof.
  intros Hrow. unfold moveFile, Db.stmt. cbn [fst snd db disk].
  split; [|done]. unfold Db.findById, Db.updateFolder. cbn [Db.files].
  rewrite find_update by done. unfold Db.findById in Hrow. rewrite Hrow.
  simpl. by rewrite (proj2 (has_id_true id row) (findById_id _ _ _ Hrow)).
Qed.

(** X12. A file moved into a folder goes with the folder: after the
    move, deleting that folder (the statements running, no removal
    refused) leaves no record of the file's id and removes its blob. *)
Theorem moveFile_then_deleteFolder (id g : jsstring) (st : state)
    (row : FileRecord.t) :
  Db.findById id (db st) = Some row →
  g ≠ [] →
  Pred.removable (map FileRecord.filePath (Db.files (db st))) (disk st) →
  let st1 := snd (moveFile false id (Some g) st) in
  let r2 := deleteFolder false false false g st1 in
  fst r2 = Respond 200 (JMessage (lit "Folder deleted successfully"))
  ∧ Db.findById id (db (snd r2)) = None
  ∧ disk (snd r2) !! FileRecord.filePath row = None.
Proof.
  intros Hrow Hg Hrem st1 r2.
  assert (Hor : or_null (Some g) = Some g) by (by destruct g).
  destruct (moveFile_sets_folder_aux id (Some g) st row Hrow)
    as (Hnew & Hfiles & Hdisk).
  fold st1 in Hnew, Hfiles, Hdisk. rewrite Hor in Hnew, Hfiles.
  change (Db.text <$> Some g) with (Some (Db.text g)) in Hnew, Hfiles.
  assert (Hrem1 : Pred.removable
            (map FileRecord.filePath (Db.listByFolder g (db st1))) (disk st1)).
  { rewrite Hdisk. eapply removable_subset; [|exact Hrem].
    intros p (r & [_ Hr]%list_elem_of_filter & <-)%elem_of_map_filePath_inv.
    rewrite Hfiles in Hr. rewrite <- (map_filePath_update id (Some (Db.text g))).
    by apply elem_of_map_filePath. }
  destruct (forEach_unlink_removable _ _ Hrem1) as [d Hrun].
  assert (Hr2 : r2 = (Respond 200 (JMessage (lit "Folder deleted successfully")),
                      State (Db.deleteFolder g (Db.deleteFilesByFolder g (db st1))) d)).
  { subst r2. unfold deleteFolder, Db.stmt. by rewrite Hrun. }
  rewrite Hr2. cbn [fst snd db disk]. split; [done|]. split.
  - unfold Db.findById, Db.deleteFolder, Db.deleteFilesByFolder. cbn [Db.files].
    apply find_has_id_fresh. intros r [Hout Hr]%list_elem_of_filter Hid.
    rewrite Hfiles in Hr. clear -Hr Hid Hout.
    induction (Db.files (db st)) as [|x l IH]; [by apply elem_of_nil in Hr|].
    simpl in Hr. apply elem_of_cons in Hr as [->|Hr]; [|by apply IH].
    destruct (Db.has_id id x) eqn:Hx.
    + unfold Db.in_folder in Hout. simpl in Hout.
      by rewrite bool_decide_eq_true_2 in Hout.
    + apply has_id_true in Hid. congruence.
  - apply (forEach_unlink_gone _ _ _ Hrun).
    apply find_elem_of in Hnew as [Hin _].
    change (FileRecord.filePath row)
      with (FileRecord.filePath (Db.setFolderId (Some (Db.text g)) row)).
    apply elem_of_map_filePath, list_elem_of_filter. split; [|done].
    unfold Db.in_folder. by apply bool_decide_eq_true_2.
Qed.

Lemma moveFile_then_deleteFolder_witness :
  let st1 := snd (moveFile false (lit "file_1_a") (Some (lit "folder_1"))
                    Sample.all_removable) in
  let r2 := deleteFolder false false false (lit "folder_1") st1 in
  fst r2 = Respond 200 (JMessage (lit "Folder deleted successfully"))
  ∧ Db.findById (lit "file_1_a") (db (snd r2)) = None
  ∧ disk (snd r2) !! Sample.a_path = None.
Proof.
  apply (moveFile_then_deleteFolder (lit "file_1_a") (lit "folder_1")
           Sample.all_removable Sample.row_a).
  - vm_compute. reflexivity.
  - discriminate.
  - intros p f Hp. vm_compute in Hp.
    apply elem_of_cons in Hp as [->|Hp].
    + vm_compute. discriminate.
    + apply list_elem_of_singleton in Hp as ->. vm_compute. by intros [= <-].
Defined.

End MoveFile.

(** ** The list routes *)

Section Listing.
Import Js Server.

Lemma text_leb_total (a b : jsstring) :
  Db.text_leb a b = false → Db.text_leb b a = true.
Proof.
  revert b. induction a as [|x a IH]; intros [|y b]; simpl; try done.
  rewrite orb_false_iff, andb_false_iff. intros [Hlt Heq].
  apply Z.ltb_ge in Hlt. destruct (Z.ltb_spec y x); [done|]. simpl.
  assert (x = y) as -> by lia. rewrite Z.eqb_refl in *. simpl.
  destruct Heq as [|Heq]; [done|]. by apply IH.
Qed.

Lemma text_leb_trans (a b c : jsstring) :
  Db.text_leb a b = true → Db.text_leb b c = true → Db.text_leb a c = true.
Proof.
  revert b c. induction a as [|x a IH]; intros [|y b] [|z c]; simpl; try done.
  rewrite !orb_true_iff, !andb_true_iff, !Z.ltb_lt, !Z.eqb_eq.
  intros [Hxy|[-> Hab]] [Hyz|[-> Hbc]].
  - left. lia.
  - by left.
  - by left.
  - right. split; [done|]. by apply (IH b).
Qed.

Lemma insert_desc_perm (r : FileRecord.t) (l : list FileRecord.t) :
  Db.insert_desc r l ≡ₚ r :: l.
Proof.
  induction l as [|x l IH]; [done|]. simpl.
  destruct (Db.text_leb _ _); [done|]. rewrite IH. apply Permutation_swap.
Qed.

Lemma listAll_perm (db : Db.database) : Db.listAll db ≡ₚ Db.files db.
Proof.
  unfold Db.listAll. induction (Db.files db) as [|r l IH]; [done|].
  simpl. by rewrite insert_desc_perm, IH.
Qed.

Lemma insert_desc_sorted (r : FileRecord.t) (l : list FileRecord.t) :
  Inv.newest_first (map FileRecord.uploadDate l) →
  Inv.newest_first (map FileRecord.uploadDate (Db.insert_desc r l)).
Proof.
  unfold Inv.newest_first. induction l as [|x l IH]; simpl.
  - intros _. repeat constructor.
  - intros Hl. pose proof (StronglySorted_inv Hl) as [Hs Hx].
    destruct (Db.text_leb (FileRecord.uploadDate x) (FileRecord.uploadDate r))
      eqn:Hxr; simpl.
    + constructor; [done|]. constructor; [done|].
      eapply Forall_impl; [exact Hx|]. intros d Hd. simpl in *.
      by apply (text_leb_trans _ (FileRecord.uploadDate x)).
    + apply text_leb_total in Hxr.
      constructor; [by apply IH|].
      assert (Hperm : map FileRecord.uploadDate (Db.insert_desc r l)
                      ≡ₚ FileRecord.uploadDate r :: map FileRecord.uploadDate l).
      { change (FileRecord.uploadDate r :: map FileRecord.uploadDate l)
          with (map FileRecord.uploadDate (r :: l)).
        apply Permutation_map, insert_desc_perm. }
      rewrite Hperm. by constructor.
Qed.

Lemma listAll_newest_first (db : Db.database) :
  Inv.newest_first (map FileRecord.uploadDate (Db.listAll db)).
Proof.
  unfold Db.listAll. induction (Db.files db) as [|r l IH]; simpl.
  - constructor.
  - by apply insert_desc_sorted.
Qed.

(** X13. The list route, its statement running, answers with the records
    of the catalog rearranged, none lost, added or repeated, the upload
    dates in descending order, and changes nothing. *)
Theorem listFiles_sorted_permutation (st : state) :
  ∃ rows,
    listFiles false st = (Respond 200 (JRows rows), st)
    ∧ rows ≡ₚ Db.files (db st)
    ∧ Inv.newest_first (map FileRecord.uploadDate rows).
Proof.
  exists (Db.listAll (db st)). split; [done|].
  split; [apply listAll_perm|apply listAll_newest_first].
Qed.

End Listing.

(** ** Folders *)

Section FolderRoutes.
Import Js Server.

Lemma folder_insert_desc_perm (g : Folder.t) (l : list Folder.t) :
  Folders.insert_desc g l ≡ₚ g :: l.
Proof.
  induction l as [|x l IH]; [done|]. simpl.
  destruct (Db.text_leb _ _); [done|]. rewrite IH. apply Permutation_swap.
Qed.

Lemma folder_listAll_perm (db : Db.database) :
  Folders.listAll db ≡ₚ Db.folders db.
Proof.
  unfold Folders.listAll. induction (Db.folders db) as [|r l IH]; [done|].
  simpl. by rewrite folder_insert_desc_perm, IH.
Qed.

Lemma find_folder_fresh (i : jsstring) (l : list Folder.t) :
  (∀ g, g ∈ l → Folder.id g ≠ i) → find (Folders.has_id i) l = None.
Proof.
  induction l as [|x l IH]; simpl; [done|]. intros Hl.
  unfold Folders.has_id at 1. rewrite bool_decide_eq_false_2.
  - apply IH. intros g Hg. apply Hl. by apply elem_of_cons; right.
  - apply Hl. by apply elem_of_cons; left.
Qed.

(** X14. Creating a folder with a name that is not empty once trimmed
    and an id that no folder has adds one folder and leaves the earlier
    folders, the files and the content directory as they were; the new
    folder and the earlier ones are what the list of folders then
    returns.  The folder carries the trimmed name as the database keeps
    it, which is the trimmed name itself when it has no lone surrogate;
    the answer repeats the trimmed name as it was sent.  A name that is
    empty once trimmed, or no name, is answered 400 with nothing
    changed. *)
Theorem createFolder_adds (run_fails : bool) (e : Folders.env) (n : jsstring)
    (st : state) :
  (trim n ≠ [] →
   (∀ g, g ∈ Db.folders (db st) → Folder.id g ≠ Folders.folderId e) →
   ∃ st' rows,
     Folders.createFolder false e (Some n) st
       = (Folders.Created (Folders.folderId e) (trim n) (Folders.responseDate e),
          st')
     ∧ Db.folders (db st')
       = Db.folders (db st)
           ++ [Folder.Row (Folders.folderId e) (Db.text (trim n))
                 (Folders.insertDate e)]
     ∧ (Inv.well_formed (trim n) → Db.text (trim n) = trim n)
     ∧ Db.files (db st') = Db.files (db st)
     ∧ disk st' = disk st
     ∧ Folders.listFolders false st' = Folders.Rows rows
     ∧ rows ≡ₚ Folder.Row (Folders.folderId e) (Db.text (trim n))
                 (Folders.insertDate e)
               :: Db.folders (db st))
  ∧ (trim n = [] →
     Folders.createFolder run_fails e (Some n) st
       = (Folders.Json 400 (lit "Folder name is required"), st))
  ∧ Folders.createFolder run_fails e None st
    = (Folders.Json 400 (lit "Folder name is required"), st).
Proof.
  split; [|split; [|done]].
  - intros Hn Hfresh. unfold Folders.createFolder, Folders.insertFolder.
    rewrite (trim_nil_or_null _ Hn), bool_decide_eq_false_2 by done.
    cbn [Folder.id]. rewrite (find_folder_fresh _ _ Hfresh).
    eexists _, _. split; [reflexivity|]. cbn [db disk Db.folders Db.files].
    split; [done|]. split; [apply text_well_formed|].
    split; [done|]. split; [done|].
    split; [reflexivity|].
    etrans; [apply folder_listAll_perm|]. cbn [Db.folders].
    symmetry. apply Permutation_cons_append.
  - intros Hn. unfold Folders.createFolder. destruct n as [|c n]; [done|].
    simpl. by rewrite bool_decide_eq_true_2.
Qed.

Lemma createFolder_adds_witness :
  ∃ st' rows,
    Folders.createFolder false
      (Folders.Env 1700000100000 (lit "q1w2e3r4t") (lit "2023-11-14T22:15:00.000Z")
         (lit "2023-11-14T22:15:00.001Z"))
      (Some (lit "  Papers ")) Sample.fresh
    = (Folders.Created (lit "folder_1700000100000_q1w2e3r4t") (lit "Papers")
         (lit "2023-11-14T22:15:00.001Z"), st')
    ∧ Folders.listFolders false st' = Folders.Rows rows
    ∧ rows ≡ₚ [Folder.Row (lit "folder_1700000100000_q1w2e3r4t") (lit "Papers")
                 (lit "2023-11-14T22:15:00.000Z")].
Proof.
  destruct (createFolder_adds false
              (Folders.Env 1700000100000 (lit "q1w2e3r4t")
                 (lit "2023-11-14T22:15:00.000Z") (lit "2023-11-14T22:15:00.001Z"))
              (lit "  Papers ") Sample.fresh) as [Hok _].
  destruct Hok as (st' & rows & H1 & _ & _ & _ & _ & H2 & H3).
  - vm_compute. discriminate.
  - intros g Hg. vm_compute in Hg. by apply elem_of_nil in Hg.
  - exists st', rows. split; [exact H1|]. split; [exact H2|exact H3].
Defined.

(** X15. Renaming a folder with a name that is not empty once trimmed,
    the statement running, gives the folders of that id the trimmed name
    as the database keeps it (the trimmed name itself when it has no lone
    surrogate) and changes nothing else: ids and creation dates, the
    other folders, every file with its folder reference, and the content
    directory stay, and for an id that no folder has the state is exactly
    as before although the answer is a success. *)
Theorem renameFolder_changes_name_only (id n : jsstring) (st : state) :
  trim n ≠ [] →
  let r := Folders.renameFolder false id (Some n) st in
  fst r = Folders.Renamed (lit "Folder renamed successfully") (trim n)
  ∧ Forall2 (λ old new,
               Folder.id new = Folder.id old
               ∧ Folder.createdDate new = Folder.createdDate old
               ∧ (Folder.id old ≠ id → new = old)
               ∧ (Folder.id old = id →
                  Folder.name new = Db.text (trim n)
                  ∧ (Inv.well_formed (trim n) → Folder.name new = trim n)))
            (Db.folders (db st)) (Db.folders (db (snd r)))
  ∧ Db.files (db (snd r)) = Db.files (db st)
  ∧ (∀ g, Db.listByFolder g (db (snd r)) = Db.listByFolder g (db st))
  ∧ disk (snd r) = disk st
  ∧ ((∀ g, g ∈ Db.folders (db st) → Folder.id g ≠ id) → snd r = st).
Proof.
  intros Hn. unfold Folders.renameFolder, Db.stmt.
  rewrite (trim_nil_or_null _ Hn), bool_decide_eq_false_2 by done.
  cbn [fst snd db disk]. split; [done|]. split.
  { unfold Folders.updateFolderName. cbn [Db.folders].
    induction (Db.folders (db st)) as [|g l IH]; simpl; constructor; [|done].
    unfold Folders.has_id. case_bool_decide as Hg; simpl; repeat split; try done.
    apply text_well_formed. }
  split; [done|]. split; [done|]. split; [done|].
  intros Hfresh. destruct st as [[c fs fo] d]. unfold Folders.updateFolderName.
  simpl in *. do 2 f_equal.
  induction fo as [|g l IH]; [done|]. simpl.
  unfold Folders.has_id at 1. rewrite bool_decide_eq_false_2.
  - rewrite IH; [done|]. intros x Hx. apply Hfresh. by apply elem_of_cons; right.
  - apply Hfresh. by apply elem_of_cons; left.
Qed.

Lemma renameFolder_changes_name_only_witness :
  let r := Folders.renameFolder false (lit "folder_1") (Some (lit " Archive "))
             Sample.all_removable in
  fst r = Folders.Renamed (lit "Folder renamed successfully") (lit "Archive")
  ∧ Db.files (db (snd r)) = Db.files (db Sample.all_removable)
  ∧ map Folder.name (Db.folders (db (snd r))) = [lit "Archive"].
Proof.
  destruct (renameFolder_changes_name_only (lit "folder_1") (lit " Archive ")
              Sample.all_removable) as (H1 & _ & H2 & _).
  - vm_compute. discriminate.
  - split; [exact H1|]. split; [exact H2|reflexivity].
Defined.

End FolderRoutes.

(** ** The client *)

Section Client.
Import Js Server.

Lemma length_filter_types (files : list FileManager.file) :
  Forall (λ f, FileManager.type f = lit "md" ∨ FileManager.type f = lit "pdf")
         files →
  (length (List.filter (λ f, bool_decide (FileManager.type f = lit "md")) files)
   + length (List.filter (λ f, bool_decide (FileManager.type f = lit "pdf")) files)
   = length files)%nat.
Proof.
  induction 1 as [|f files Hf _ IH]; [done|]. simpl.
  destruct Hf as [Hf|Hf]; rewrite Hf; simpl; lia.
Qed.

Lemma fold_left_sizes (files : list FileManager.file) (acc : Z) :
  Forall (λ f, 0 ≤ FileManager.size f ≤ fileSize) files →
  acc ≤ fold_left (λ sum f, sum + FileManager.size f) files acc
  ≤ acc + Z.of_nat (length files) * fileSize.
Proof.
  intros Hfiles. revert acc.
  induction Hfiles as [|f files Hf _ IH]; intros acc; simpl; [lia|].
  specialize (IH (acc + FileManager.size f)). unfold fileSize in *. lia.
Qed.

(** X16. On the list that the client loads from a server whose catalog
    requests have built, the statistics add up: the total is the number
    of records, every file is counted as md or as pdf and none as both,
    and the total size lies between 0 and 10 MiB per file; the display
    names are those of the catalog, the fallback to the original name
    never being taken. *)
Theorem getStats_of_run (st : state) (rs : list Run.request) :
  Run.initial st →
  let rows := Db.listAll (db (Run.run st rs)) in
  let files := FileManager.loadFiles rows in
  let s := FileManager.getStats files in
  FileManager.totalFiles s = Z.of_nat (length (Db.files (db (Run.run st rs))))
  ∧ FileManager.mdFiles s + FileManager.pdfFiles s = FileManager.totalFiles s
  ∧ 0 ≤ FileManager.totalSize s ≤ FileManager.totalFiles s * 10485760
  ∧ map FileManager.displayName files = map FileRecord.displayName rows.
Proof.
  intros Hst%catalog_ok_initial rows files s.
  destruct (catalog_ok_run st rs Hst) as (_ & _ & Hrec & _).
  assert (Hrows : Forall Inv.record_ok rows).
  { subst rows. by rewrite listAll_perm. }
  assert (Hlen : length files = length (Db.files (db (Run.run st rs)))).
  { subst files rows. unfold FileManager.loadFiles.
    by rewrite length_map, listAll_perm. }
  assert (Hfiles : Forall (λ f, (FileManager.type f = lit "md"
                                 ∨ FileManager.type f = lit "pdf")
                                ∧ 0 ≤ FileManager.size f ≤ fileSize) files).
  { subst files. unfold FileManager.loadFiles. clear -Hrows.
    induction Hrows as [|r l (Ht & Hs & _) _ IH]; simpl; constructor; done. }
  subst s. unfold FileManager.getStats. cbn [FileManager.totalFiles
    FileManager.mdFiles FileManager.pdfFiles FileManager.totalSize].
  split; [by rewrite Hlen|]. split.
  { rewrite <- Nat2Z.inj_add. f_equal. apply length_filter_types.
    eapply Forall_impl; [exact Hfiles|]. by intros f [? _]. }
  split.
  { pose proof (fold_left_sizes files 0) as Hsum. unfold fileSize in Hsum.
    apply Hsum. eapply Forall_impl; [exact Hfiles|]. by intros f [_ ?]. }
  subst files. unfold FileManager.loadFiles. clear -Hrows.
  induction Hrows as [|r l (_ & _ & _ & _ & Hd) _ IH]; [done|]. simpl.
  rewrite IH. by destruct (FileRecord.displayName r).
Qed.

Lemma getStats_of_run_witness :
  let s := FileManager.getStats
             (FileManager.loadFiles
                (Db.listAll
                   (db (Run.run Sample.fresh
                          [Run.Upload Sample.env1 no_faults
                             (Some (Part.Make (lit "Report.md") Sample.hello)) None;
                           Run.Upload Sample.env2 no_faults
                             (Some (Part.Make (lit "scan.PDF") Sample.pdf_bytes))
                             None])))) in
  FileManager.mdFiles s + FileManager.pdfFiles s = FileManager.totalFiles s
  ∧ 0 ≤ FileManager.totalSize s ≤ FileManager.totalFiles s * 10485760.
Proof.
  destruct (getStats_of_run Sample.fresh
              [Run.Upload Sample.env1 no_faults
                 (Some (Part.Make (lit "Report.md") Sample.hello)) None;
               Run.Upload Sample.env2 no_faults
                 (Some (Part.Make (lit "scan.PDF") Sample.pdf_bytes)) None])
    as (_ & H1 & H2 & _).
  - split; reflexivity.
  - split; [exact H1|exact H2].
Defined.

(** *** Searching *)

Lemma startsWith_spec (s prefix : jsstring) :
  FileManager.startsWith s prefix = true ↔ ∃ b, s = prefix ++ b.
Proof.
  revert s. induction prefix as [|p prefix IH]; intros s; simpl.
  - split; [by exists s|]. by destruct s.
  - destruct s as [|c s]; simpl; [split; [done|by intros [b ?]]|].
    rewrite andb_true_iff, Z.eqb_eq, IH. split.
    + intros [-> [b ->]]. by exists b.
    + intros [b [= -> ->]]. split; [done|by exists b].
Qed.

(** [includes] is the test for a contiguous part. *)
Lemma includes_spec (s search : jsstring) :
  FileManager.includes s search = true ↔ ∃ a b, s = a ++ search ++ b.
Proof.
  induction s as [|c s IH]; cbn [FileManager.includes].
  - rewrite orb_false_r, startsWith_spec. split.
    + intros [b Hb]. by exists [], b.
    + intros (a & b & Hs). symmetry in Hs.
      apply app_eq_nil in Hs as [-> Hs]. apply app_eq_nil in Hs as [-> ->].
      by exists [].
  - rewrite orb_true_iff, startsWith_spec, IH. split.
    + intros [[b Hb]|(a & b & ->)]; [by exists [], b|by exists (c :: a), b].
    + intros ([|x a] & b & Hs); [left; by exists b|].
      injection Hs as -> ->. right. by exists a, b.
Qed.

(** X17. The search returns, in the order of the list, exactly the files
    one of whose two names, in lower case, has the query in lower case as
    a contiguous part; in particular it returns every file when the query
    is empty in lower case. *)
Theorem searchFiles_spec (lower : jsstring → jsstring) (query : jsstring)
    (files : list FileManager.file) :
  (∀ f, f ∈ FileManager.searchFiles lower query files ↔
        f ∈ files
        ∧ ((∃ a b, lower (FileManager.displayName f) = a ++ lower query ++ b)
           ∨ (∃ a b, lower (FileManager.originalName f) = a ++ lower query ++ b)))
  ∧ sublist (FileManager.searchFiles lower query files) files
  ∧ (lower query = [] → FileManager.searchFiles lower query files = files).
Proof.
  unfold FileManager.searchFiles. split; [|split].
  - intros f. rewrite list_elem_of_In, filter_In, <- list_elem_of_In.
    by rewrite orb_true_iff, !includes_spec.
  - induction files as [|f files IH]; simpl; [done|].
    destruct (_ || _); [by apply sublist_skip|by apply sublist_cons].
  - intros ->. induction files as [|f files IH]; simpl; [done|].
    assert (∀ s, FileManager.includes s [] = true) as Hall.
    { intros s. apply includes_spec. by exists [], s. }
    by rewrite Hall, IH.
Qed.

End Client.

(** ** The extension of a file name, on the server and in the client *)

Section Extension.
Import Js Server Path.

Lemma loop_skip (l rest : jsstring) (i : Z) (s : scan) :
  46 ∉ l → 47 ∉ l → startDot s = -1 → end_ s ≠ -1 →
  extname_loop (l ++ rest) i s = extname_loop rest (i - Z.of_nat (length l)) s.
Proof.
  revert i. induction l as [|c l IH]; intros i Hdot Hslash Hs He.
  - simpl. f_equal. lia.
  - apply not_elem_of_cons in Hdot as [Hc Hdot].
    apply not_elem_of_cons in Hslash as [Hc' Hslash].
    cbn [app extname_loop].
    destruct (Z.eqb_spec c 47); [done|].
    destruct (Z.eqb_spec (end_ s) (-1)); [done|]. cbn zeta.
    destruct (Z.eqb_spec c 46); [done|].
    destruct (Z.eqb_spec (startDot s) (-1)); [|done]. cbn [negb].
    rewrite IH by done. f_equal. cbn [length]. lia.
Qed.

Lemma loop_after_dot (l : jsstring) (i : Z) (s : scan) :
  47 ∉ l → startDot s ≠ -1 → end_ s ≠ -1 →
  ∃ p, extname_loop l i s
       = Scan (startDot s) (startPart s) (end_ s) (matchedSlash s) p.
Proof.
  revert i s. induction l as [|c l IH]; intros i s Hslash Hs He.
  - exists (preDotState s). by destruct s.
  - apply not_elem_of_cons in Hslash as [Hc Hslash].
    cbn [extname_loop].
    destruct (Z.eqb_spec c 47); [done|].
    destruct (Z.eqb_spec (end_ s) (-1)); [done|]. cbn zeta.
    destruct (Z.eqb_spec (startDot s) (-1)); [done|]. cbn [negb].
    destruct (Z.eqb_spec c 46).
    + destruct (negb (preDotState s =? 1)); [|by apply IH].
      by apply (IH (i - 1) (Scan _ _ _ _ _)).
    + by apply (IH (i - 1) (Scan _ _ _ _ _)).
Qed.

Lemma loop_no_dot (l : jsstring) (i : Z) (s : scan) :
  46 ∉ l → 47 ∉ l → startDot s = -1 → startDot (extname_loop l i s) = -1.
Proof.
  revert i s. induction l as [|c l IH]; intros i s Hdot Hslash Hs; [done|].
  apply not_elem_of_cons in Hdot as [Hc Hdot].
  apply not_elem_of_cons in Hslash as [Hc' Hslash].
  cbn [extname_loop].
  destruct (Z.eqb_spec c 47); [done|]. cbn zeta.
  destruct (Z.eqb_spec c 46); [done|].
  destruct (Z.eqb_spec (end_ s) (-1)); cbn [startDot];
    rewrite Hs; simpl; by apply IH.
Qed.

Lemma loop_first_dot (rest : jsstring) (i sp : Z) (m : bool) (p : Z) :
  extname_loop (46 :: rest) i (Scan (-1) sp (-1) m p)
  = extname_loop rest (i - 1) (Scan i sp (i + 1) false p).
Proof. reflexivity. Qed.

Lemma loop_first_char (c : Z) (rest : jsstring) (i sp : Z) (m : bool) (p : Z) :
  c ≠ 46 → c ≠ 47 →
  extname_loop (c :: rest) i (Scan (-1) sp (-1) m p)
  = extname_loop rest (i - 1) (Scan (-1) sp (i + 1) false p).
Proof.
  intros Hd Hs. cbn [extname_loop].
  destruct (Z.eqb_spec c 47); [done|]. by destruct (Z.eqb_spec c 46).
Qed.

Lemma loop_later_dot (rest : jsstring) (i sp e : Z) (m : bool) (p : Z) :
  e ≠ -1 →
  extname_loop (46 :: rest) i (Scan (-1) sp e m p)
  = extname_loop rest (i - 1) (Scan i sp e m p).
Proof.
  intros He. cbn [extname_loop]. simpl (46 =? 47). cbn [end_].
  by destruct (Z.eqb_spec e (-1)).
Qed.

(** The scan of a name without separator whose last full stop is followed
    by [rext] (reversed) and preceded by [rpre] (reversed). *)
Lemma loop_last_dot (rext rpre : jsstring) :
  46 ∉ rext → 47 ∉ rext → 47 ∉ rpre →
  ∃ p, extname_loop (rext ++ 46 :: rpre)
         (Z.of_nat (length (rext ++ 46 :: rpre)) - 1) scan_start
       = Scan (Z.of_nat (length rpre)) 0
              (Z.of_nat (length (rext ++ 46 :: rpre))) false p.
Proof.
  intros Hdot Hslash Hpre. rewrite length_app. cbn [length]. unfold scan_start.
  destruct rext as [|c rext].
  - cbn [app length]. rewrite loop_first_dot.
    match goal with |- context [extname_loop rpre ?i ?s] =>
      destruct (loop_after_dot rpre i s) as [p Hp];
        [done|simpl; lia|simpl; lia|] end.
    exists p. rewrite Hp. cbn [startDot startPart end_ matchedSlash].
    f_equal; lia.
  - apply not_elem_of_cons in Hdot as [Hc Hdot].
    apply not_elem_of_cons in Hslash as [Hc' Hslash].
    cbn [app length]. rewrite loop_first_char by done.
    rewrite loop_skip by (done || (simpl; lia)).
    rewrite loop_later_dot by lia.
    match goal with |- context [extname_loop rpre ?i ?s] =>
      destruct (loop_after_dot rpre i s) as [p Hp];
        [done|simpl; lia|simpl; lia|] end.
    exists p. rewrite Hp. cbn [startDot startPart end_ matchedSlash].
    f_equal; lia.
Qed.

(** The extension of a name without separator is empty, or the part of
    the name from its last full stop on. *)
Lemma extname_no_slash (path : jsstring) :
  47 ∉ path →
  extname path = []
  ∨ ∃ pre ext, path = pre ++ 46 :: ext ∧ (46 ∉ ext) ∧ extname path = 46 :: ext.
Proof.
  intros Hslash. unfold extname.
  assert (Hrs : 47 ∉ rev path).
  { intros Hin. apply Hslash. apply list_elem_of_In, in_rev, list_elem_of_In.
    done. }
  destruct (decide (46 ∈ rev path)) as [Hdot|Hdot].
  - apply list_elem_of_split_l in Hdot as (rext & rpre & Hrev & Hext).
    assert (Hpath : path = rev rpre ++ 46 :: rev rext).
    { pose proof (f_equal (@rev Z) Hrev) as Hp.
      rewrite rev_involutive, rev_app_distr in Hp. simpl in Hp.
      by rewrite <- app_assoc in Hp. }
    assert (Hlen : length path = length (rext ++ 46 :: rpre)).
    { by rewrite <- Hrev, length_rev. }
    rewrite Hrev in Hrs. rewrite Hrev, Hlen.
    destruct (loop_last_dot rext rpre) as [p ->].
    + done.
    + intros Hin. apply Hrs. apply elem_of_app. by left.
    + intros Hin. apply Hrs. apply elem_of_app. right. by apply elem_of_cons; right.
    + cbn [startDot end_ preDotState startPart].
      match goal with |- (if ?c then _ else _) = _ ∨ _ => destruct c end;
        [by left|right].
      exists (rev rpre), (rev rext). split; [done|]. split.
      { intros Hin. apply Hext. by apply list_elem_of_In, in_rev, list_elem_of_In. }
      unfold slice. rewrite Hpath at 1.
      rewrite Nat2Z.id, <- (length_rev rpre), drop_app_length.
      apply take_ge. rewrite length_app in *. simpl in *.
      rewrite !length_rev. lia.
  - left. rewrite (loop_no_dot _ _ _ Hdot Hrs) by done. done.
Qed.

Lemma split_dot_not_nil (s : jsstring) : FileManager.split_dot s ≠ [].
Proof.
  induction s as [|c s IH]; simpl; [done|].
  destruct (c =? 46); [done|]. by destruct (FileManager.split_dot s).
Qed.

Lemma split_dot_app (pre s : jsstring) :
  FileManager.split_dot (pre ++ 46 :: s)
  = FileManager.split_dot pre ++ FileManager.split_dot s.
Proof.
  induction pre as [|c pre IH]; [done|]. simpl. rewrite IH.
  destruct (c =? 46); [done|].
  pose proof (split_dot_not_nil pre).
  by destruct (FileManager.split_dot pre).
Qed.

Lemma split_dot_no_dot (s : jsstring) :
  46 ∉ s → FileManager.split_dot s = [s].
Proof.
  induction s as [|c s IH]; [done|]. intros [Hc Hs]%not_elem_of_cons. simpl.
  destruct (Z.eqb_spec c 46); [done|]. by rewrite IH.
Qed.

Lemma last_app_singleton {A} (l : list A) (x d : A) : List.last (l ++ [x]) d = x.
Proof. induction l as [|y [|z l] IH]; simpl in *; done. Qed.

(** X18. Whatever the upload filter of the server accepts, the check of
    the client before uploading accepts too: for a file name without
    separator, an extension that is [.md] or [.pdf] in lower case is an
    ending, after the last full stop, that is [md] or [pdf] in lower
    case. *)
Theorem fileFilter_validName (name : jsstring) :
  47 ∉ name →
  fileFilter name = Normal true →
  FileManager.validName name = true.
Proof.
  intros Hslash Hfilter.
  assert (Hext : toLowerCase (extname name) = lit ".md"
                 ∨ toLowerCase (extname name) = lit ".pdf").
  { unfold fileFilter in Hfilter.
    destruct (bool_decide_reflect (toLowerCase (extname name) = lit ".md"));
      [by left|].
    destruct (bool_decide_reflect (toLowerCase (extname name) = lit ".pdf"));
      [by right|done]. }
  destruct (extname_no_slash name Hslash) as [Hnil|(pre & ext & Hname & Hdot & He)].
  { rewrite Hnil in Hext. by destruct Hext. }
  rewrite He in Hext. unfold FileManager.validName. subst name.
  rewrite split_dot_app, (split_dot_no_dot _ Hdot).
  rewrite last_app_singleton.
  change (toLowerCase (46 :: ext)) with (46 :: toLowerCase ext) in Hext.
  destruct Hext as [[= ->]|[= ->]]; reflexivity.
Qed.

Lemma fileFilter_validName_witness :
  FileManager.validName (lit "Notes.v2.MD") = true.
Proof.
  apply (fileFilter_validName (lit "Notes.v2.MD")).
  - vm_compute. intros Hin. repeat (apply elem_of_cons in Hin as [Hin|Hin];
      [discriminate|]). by apply elem_of_nil in Hin.
  - vm_compute. reflexivity.
Defined.

End Extension.

(** ** What an upload leaves alone, and undoing an upload *)

Section UploadFrame.
Import Js Server.

Lemma insertFile_disk (e : env) (f : upload_faults) (file : ReqFile.t)
    (fileName : jsstring) (folderId : option jsstring) (st : state) :
  disk (snd (insertFile e f file fileName folderId st)) = disk st.
Proof.
  unfold insertFile. by destruct (if insert_fails f then None else _).
Qed.

Lemma insertFile_keeps (e : env) (f : upload_faults) (file : ReqFile.t)
    (fileName : jsstring) (folderId : option jsstring) (st : state)
    (r : FileRecord.t) :
  r ∈ Db.files (db st) →
  r ∈ Db.files (db (snd (insertFile e f file fileName folderId st))).
Proof.
  intros Hr. unfold insertFile.
  destruct (if insert_fails f then None else _) as [db'|] eqn:Hins; [|done].
  cbn [snd db]. destruct (insert_fails f); [done|]. unfold Db.insertFile in Hins.
  destruct (Db.findById _ _); [done|]. injection Hins as <-. simpl.
  apply elem_of_app. by left.
Qed.

Lemma insertFile_folders (e : env) (f : upload_faults) (file : ReqFile.t)
    (fileName : jsstring) (folderId : option jsstring) (st : state) :
  Db.folders (db (snd (insertFile e f file fileName folderId st)))
  = Db.folders (db st).
Proof.
  unfold insertFile, Db.insertFile.
  destruct (insert_fails f); [done|]. by destruct (Db.findById _ _).
Qed.

(** X19. An upload, whatever fails while it is served, leaves alone
    every record other than the one its lookup by name finds, and every
    blob other than the one at the path where it writes (the upload
    directory joined with the file name of the storage engine, and
    normalized) and the one of the record it replaces. *)
Theorem upload_keeps_others (e : env) (f : upload_faults) (part : Part.t)
    (folderId : option jsstring) (st : state) :
  let fileName := decodeFileName (Part.originalname part) in
  let newPath :=
    Path.join (uploadsDir e)
      (ofNumber (storageNow e) ++ lit "_" ++ storageRandom e ++ lit "_" ++ fileName) in
  let st' := snd (upload e f (Some part) folderId st) in
  NoDup (map FileRecord.id (Db.files (db st))) →
  (∀ r, r ∈ Db.files (db st) →
        Db.findByOriginalName fileName (db st) ≠ Some r →
        r ∈ Db.files (db st'))
  ∧ (∀ q, q ≠ newPath →
          (∀ old, Db.findByOriginalName fileName (db st) = Some old →
                  q ≠ FileRecord.filePath old) →
          disk st' !! q = disk st !! q)
  ∧ Db.folders (db st') = Db.folders (db st).
Proof.
  intros fileName newPath st' Hids. subst st'.
  unfold upload.
  destruct (uploadSingle e f (Some part) (disk st)) as [|m|file d|m|d] eqn:Hup;
    [done|done| |done|].
  2:{ apply uploadSingle_TooLarge in Hup as ->. cbn [snd db disk].
      split; [done|]. split; [|done]. intros q Hq _.
      by rewrite lookup_delete_ne. }
  apply uploadSingle_Stored in Hup as (part' & [= <-] & _ & _ & Hfile & ->).
  assert (Hpath : ReqFile.path file = newPath) by (by subst file).
  assert (Hname : decodeFileName (ReqFile.originalname file) = fileName)
    by (by subst file).
  rewrite Hpath. clear Hfile. unfold uploadRoute, Db.stmt. cbn [db disk].
  rewrite Hname.
  assert (Hw : ∀ q, q ≠ newPath →
                    Fs.put newPath (Part.content part) (disk st) !! q
                    = disk st !! q).
  { intros q Hq. unfold Fs.put. by rewrite lookup_insert_ne. }
  destruct (find_fails f).
  { cbn [snd db disk]. split; [done|]. split; [|done]. intros q Hq _. by apply Hw. }
  destruct (Db.findByOriginalName fileName (db st)) as [old|] eqn:Hfind.
  - pose proof (find_elem_of _ _ _ Hfind) as [Hold _].
    assert (Hold' : Db.findById (FileRecord.id old) (db st) = Some old)
      by (by apply find_has_id).
    set (dw := Fs.put newPath (Part.content part) (disk st)) in *.
    set (unlinked := match _ with
                     | Some o => Fs.unlinkIfExists _ _
                     | None => Normal dw
                     end).
    assert (Hu : unlinked = Normal dw
                 ∨ unlinked = Fs.unlinkIfExists (FileRecord.filePath old) dw).
    { subst unlinked. destruct (path_fails f); [by left|]. simpl.
      rewrite Hold'. by right. }
    destruct unlinked as [d|m] eqn:Hd.
    2:{ cbn [snd db disk]. split; [done|]. split; [|done].
        intros q Hq _. by apply Hw. }
    assert (Hdq : ∀ q, q ≠ newPath → q ≠ FileRecord.filePath old →
                       d !! q = disk st !! q).
    { intros q Hq Hq'. destruct Hu as [[= <-]|Hu]; [by apply Hw|].
      symmetry in Hu. apply unlinkIfExists_Normal in Hu as ->.
      rewrite lookup_delete_ne by done. by apply Hw. }
    split; [|split].
    + intros r Hr Hne. apply insertFile_keeps. cbn [db].
      destruct (delete_fails f); [done|]. simpl.
      apply list_elem_of_filter. split; [|done].
      apply bool_decide_eq_false_2. intros Hid. apply Hne. f_equal.
      assert (Db.findById (FileRecord.id r) (db st) = Some r) as Hfr
        by (by apply find_has_id).
      rewrite Hid, Hold' in Hfr. by injection Hfr.
    + intros q Hq Hq'. rewrite insertFile_disk. cbn [disk].
      apply Hdq; [done|]. by apply Hq'.
    + rewrite insertFile_folders. cbn [db]. by destruct (delete_fails f).
  - split; [|split].
    + intros r Hr _. by apply insertFile_keeps.
    + intros q Hq _. rewrite insertFile_disk. by apply Hw.
    + by rewrite insertFile_folders.
Qed.

Lemma upload_keeps_others_witness :
  Sample.row_a ∈ Db.files
    (db (snd (upload Sample.env2 (UploadFaults None false true true false)
                (Some (Part.Make (lit "b.md") Sample.hello2)) None
                Sample.all_removable)))
  ∧ disk (snd (upload Sample.env2 (UploadFaults None false true true false)
                 (Some (Part.Make (lit "b.md") Sample.hello2)) None
                 Sample.all_removable)) !! Sample.a_path
    = disk Sample.all_removable !! Sample.a_path.
Proof.
  destruct (upload_keeps_others Sample.env2
              (UploadFaults None false true true false)
              (Part.Make (lit "b.md") Sample.hello2) None Sample.all_removable)
    as (H1 & H2 & _).
  - vm_compute. apply NoDup_cons. split.
    + intros Hin. apply list_elem_of_singleton in Hin. discriminate.
    + apply NoDup_singleton.
  - split.
    + apply H1; [|vm_compute; discriminate].
      vm_compute. by apply elem_of_cons; left.
    + apply H2; [vm_compute; discriminate|].
      intros old Hold. vm_compute in Hold. injection Hold as <-.
      vm_compute. discriminate.
Defined.

Lemma filter_fresh_snoc (i : jsstring) (l : list FileRecord.t)
    (new : FileRecord.t) :
  (∀ r, r ∈ l → FileRecord.id r ≠ i) → FileRecord.id new = i →
  filter (λ r, Db.has_id i r = false) (l ++ [new]) = l.
Proof.
  intros Hl Hnew. rewrite filter_app, filter_cons_False, filter_nil, app_nil_r.
  - induction l as [|x l IH]; [done|]. rewrite filter_cons_True.
    + f_equal. apply IH. intros r Hr. apply Hl. by apply elem_of_cons; right.
    + apply bool_decide_eq_false_2, Hl. by apply elem_of_cons; left.
  - unfold Db.has_id. by rewrite bool_decide_eq_true_2.
Qed.

(** X20. Undoing an upload: when an upload of a name that is new to the
    catalog, written at a path where no blob was, has been answered with
    success, the deletion of the uploaded file, its statements running,
    answers with success and gives back exactly the state before the
    upload. *)
Theorem upload_then_deleteFile_restores (e : env) (f : upload_faults)
    (part : Part.t) (folderId : option jsstring) (st : state) (answer : body) :
  let fileName := decodeFileName (Part.originalname part) in
  let newPath :=
    Path.join (uploadsDir e)
      (ofNumber (storageNow e) ++ lit "_" ++ storageRandom e ++ lit "_" ++ fileName) in
  let r1 := upload e f (Some part) folderId st in
  let r2 := deleteFile false false (fileId e) (snd r1) in
  fst r1 = Respond 200 answer →
  Db.findByOriginalName fileName (db st) = None →
  disk st !! newPath = None →
  fst r2 = Respond 200 (JMessage (lit "File deleted successfully"))
  ∧ snd r2 = st.
Proof.
  intros fileName newPath r1 r2 Hok Hfind Hblob.
  assert (Hr1 : ∃ new,
            r1 = (Respond 200 answer,
                  State (Db.Database (Db.originalNameCollation (db st))
                           (Db.files (db st) ++ [new]) (Db.folders (db st)))
                        (<[newPath := Fs.File (Part.content part) false]> (disk st)))
            ∧ Db.findById (fileId e) (db st) = None
            ∧ FileRecord.id new = fileId e
            ∧ FileRecord.filePath new = newPath).
  { subst r1.
    destruct (upload_reaches_route e f part folderId st) as (_ & _ & _ & _ & Hup);
      [left; by eexists|].
    fold fileName newPath in Hup. rewrite Hup in Hok |- *. clear Hup. revert Hok.
    unfold uploadRoute, Db.stmt. cbn [ReqFile.originalname db disk].
    fold fileName. destruct (find_fails f); [discriminate|]. rewrite Hfind.
    unfold insertFile, Db.insertFile. destruct (insert_fails f); [discriminate|].
    cbn [db disk FileRecord.id].
    destruct (Db.findById (fileId e) (db st)) eqn:Hfresh; [discriminate|].
    cbn [fst]. intros [= <-]. eexists. split; [reflexivity|]. by repeat split. }
  destruct Hr1 as (new & Hr1 & Hnone & Hid & Hp). subst r2. rewrite Hr1.
  pose proof (find_has_id_None_fresh _ _ Hnone) as Hfresh.
  cbn [fst snd].
  unfold deleteFile, Db.stmt, Db.findById. cbn [db disk Db.files].
  rewrite (find_app_fresh _ _ new) by
    (done || (unfold Db.has_id; by apply bool_decide_eq_true_2)).
  rewrite Hp. unfold Fs.unlinkIfExists, Fs.existsSync, Fs.unlinkSync.
  rewrite lookup_insert_eq. cbn [Fs.pinned fst snd].
  split; [done|]. unfold Db.deleteFile. cbn [Db.files Db.folders Db.originalNameCollation].
  rewrite (filter_fresh_snoc _ _ _ Hfresh Hid), delete_insert_id by done.
  by destruct st as [[c fs fo] d].
Qed.

Lemma upload_then_deleteFile_restores_witness :
  snd (deleteFile false false (fileId Sample.env2)
         (snd (upload Sample.env2 no_faults
                 (Some (Part.Make (lit "c.md") Sample.hello2)) None
                 Sample.all_removable)))
  = Sample.all_removable.
Proof.
  edestruct (upload_then_deleteFile_restores Sample.env2 no_faults
               (Part.Make (lit "c.md") Sample.hello2) None Sample.all_removable)
    as (_ & H).
  - vm_compute. reflexivity.
  - vm_compute. reflexivity.
  - vm_compute. reflexivity.
  - exact H.
Defined.

End UploadFrame.

(** ** Where the blob is written *)

Section UploadPath.
Import Js Server.

Lemma split_not_nil (sep : Z → bool) (s : jsstring) : Path.split sep s ≠ [].
Proof.
  induction s as [|c s IH]; simpl; [done|].
  destruct (sep c); [done|]. by destruct (Path.split sep s).
Qed.

Lemma split_app (sep : Z → bool) (pre s : jsstring) (c : Z) :
  sep c = true →
  Path.split sep (pre ++ c :: s) = Path.split sep pre ++ Path.split sep s.
Proof.
  intros Hc. induction pre as [|x pre IH]; simpl; [by rewrite Hc|].
  rewrite IH. destruct (sep x); [done|].
  pose proof (split_not_nil sep pre). by destruct (Path.split sep pre).
Qed.

Lemma split_none (s : jsstring) :
  47 ∉ s → Path.split Path.is_slash s = [s].
Proof.
  induction s as [|c s IH]; [done|]. intros [Hc Hs]%not_elem_of_cons. simpl.
  unfold Path.is_slash at 1. destruct (Z.eqb_spec c 47); [done|]. by rewrite IH.
Qed.

Lemma join_segments_snoc (segs : list jsstring) (x : jsstring) :
  segs ≠ [] →
  Path.join_segments (segs ++ [x]) = Path.join_segments segs ++ 47 :: x.
Proof.
  induction segs as [|seg [|seg' rest] IH]; [by intros []|by intros _|]. intros _.
  change (Path.join_segments ((seg :: seg' :: rest) ++ [x]))
    with (seg ++ 47 :: Path.join_segments ((seg' :: rest) ++ [x])).
  rewrite IH by done.
  change (Path.join_segments (seg :: seg' :: rest))
    with (seg ++ 47 :: Path.join_segments (seg' :: rest)).
  by rewrite <- app_assoc.
Qed.

Lemma last_cons_app (s : jsstring) (c : Z) (name : jsstring) :
  name ≠ [] → List.last (s ++ c :: name) 0 = List.last name 0.
Proof.
  intros Hname. induction s as [|x s IH]; simpl.
  - by destruct name.
  - rewrite <- IH. by destruct (s ++ c :: name) eqn:Hs; [destruct s|].
Qed.

Lemma last_not_elem (name : jsstring) (c : Z) :
  name ≠ [] → c ∉ name → List.last name 0 ≠ c.
Proof.
  induction name as [|x [|y name] IH]; [done| |].
  - intros _ Hx%not_elem_of_cons. simpl. by destruct Hx.
  - intros _ [Hx Hrest]%not_elem_of_cons. by apply IH.
Qed.

(** [path.join] of a normalized absolute directory and a name of one
    segment is the directory, a slash and the name. *)
Lemma join_one_segment (dir name : jsstring) :
  Path.normalize dir = dir →
  hd 0 dir = 47 →
  List.last dir 0 ≠ 47 →
  47 ∉ name → name ≠ [] → name ≠ lit "." → name ≠ lit ".." →
  Path.normalize (dir ++ 47 :: name) = dir ++ 47 :: name
  ∧ Path.join dir name = dir ++ 47 :: name.
Proof.
  intros Hnorm Habs Hlast Hsep Hname Hdot Hdots.
  destruct dir as [|c rest]; [done|]. simpl in Habs. subst c.
  assert (Hjoin : Path.join (47 :: rest) name
                  = Path.normalize ((47 :: rest) ++ 47 :: name)).
  { unfold Path.join. by destruct name. }
  rewrite Hjoin. clear Hjoin.
  cut (Path.normalize ((47 :: rest) ++ 47 :: name) = (47 :: rest) ++ 47 :: name);
    [done|].
  revert Hnorm. unfold Path.normalize, Path.normalizeString.
  cbn [app]. change (Path.is_slash 47) with true. cbn [negb].
  change (47 :: rest ++ 47 :: name) with ((47 :: rest) ++ 47 :: name).
  rewrite (split_app _ _ _ 47) by done.
  rewrite (split_none name Hsep), fold_left_app.
  set (stack := fold_left (Path.normalize_step false)
                  (Path.split Path.is_slash (47 :: rest)) []).
  cbn [fold_left]. unfold Path.normalize_step at 1.
  rewrite !bool_decide_eq_false_2 by done. cbn [orb rev].
  rewrite (last_cons_app (47 :: rest) 47 name Hname).
  assert (Hl : Path.is_slash (List.last name 0) = false).
  { apply Z.eqb_neq. by apply last_not_elem. }
  assert (Hl' : Path.is_slash (List.last (47 :: rest) 0) = false)
    by (by apply Z.eqb_neq).
  rewrite Hl, Hl'.
  destruct (Path.join_segments (rev stack)) as [|r res] eqn:Hres.
  { intros [= <-]. by destruct Hlast. }
  intros [= Hrest]. rewrite join_segments_snoc.
  - rewrite Hres. by rewrite <- Hrest.
  - intros Hnil. by rewrite Hnil in Hres.
Qed.

(** X26. The blob of an upload lands in the directory [uploads] of the
    server directory, at the file name that the storage engine makes up,
    whenever that file name holds no separator: the path handed to the
    route is the server directory (absolute and normalized, as
    [__dirname] is), [/uploads/] and the file name. *)
Theorem upload_path_inside (e : env) (f : upload_faults) (part : Part.t)
    (d d' : gmap (list Z) Fs.file) (file : ReqFile.t) :
  Path.normalize (dirname e) = dirname e →
  hd 0 (dirname e) = 47 →
  List.last (dirname e) 0 ≠ 47 →
  uploadSingle e f (Some part) d = Stored file d' →
  47 ∉ ReqFile.filename file →
  ReqFile.path file = dirname e ++ lit "/uploads/" ++ ReqFile.filename file
  ∧ d' !! (dirname e ++ lit "/uploads/" ++ ReqFile.filename file)
    = Some (Fs.File (Part.content part) false).
Proof.
  intros Hnorm Habs Hlast Hup Hsep.
  apply uploadSingle_Stored in Hup as (part' & [= <-] & _ & _ & Hfile & ->).
  destruct (join_one_segment (dirname e) (lit "uploads") Hnorm Habs Hlast)
    as [Hn Hdir]; try done.
  { vm_compute. intros Hin.
    repeat (apply elem_of_cons in Hin as [Hin|Hin]; [discriminate|]).
    by apply elem_of_nil in Hin. }
  assert (Hpath : ReqFile.path file
                  = dirname e ++ lit "/uploads/" ++ ReqFile.filename file).
  { subst file. cbn [ReqFile.path ReqFile.filename] in *.
    set (name := ofNumber (storageNow e) ++ lit "_" ++ storageRandom e ++ lit "_"
                   ++ decodeFileName (Part.originalname part)) in *.
    assert (Hin : 95 ∈ name).
    { subst name. apply elem_of_app. right. apply elem_of_app. left.
      by apply list_elem_of_singleton. }
    unfold uploadsDir. rewrite Hdir.
    destruct (join_one_segment (dirname e ++ 47 :: lit "uploads") name)
      as [_ ->]; try done.
    - by destruct (dirname e).
    - rewrite last_cons_app; [by vm_compute|done].
    - intros Hnil. rewrite Hnil in Hin. by apply elem_of_nil in Hin.
    - intros Hnil. rewrite Hnil in Hin.
      apply list_elem_of_singleton in Hin. discriminate.
    - intros Hnil. rewrite Hnil in Hin.
      apply elem_of_cons in Hin as [Hin|Hin]; [discriminate|].
      apply list_elem_of_singleton in Hin. discriminate.
    - by rewrite <- app_assoc. }
  split; [exact Hpath|]. rewrite <- Hpath. unfold Fs.put. apply lookup_insert_eq.
Qed.

Lemma upload_path_inside_witness :
  ∃ file d',
    uploadSingle Sample.env1 no_faults
      (Some (Part.Make (lit "notes.md") Sample.hello)) ∅ = Stored file d'
    ∧ ReqFile.path file = lit "/srv/app/uploads/1700000000000_k3x9q2m1a_notes.md".
Proof.
  eexists _, _. split; [vm_compute; reflexivity|].
  eapply (upload_path_inside Sample.env1 no_faults
            (Part.Make (lit "notes.md") Sample.hello) ∅).
  - vm_compute. reflexivity.
  - reflexivity.
  - vm_compute. discriminate.
  - vm_compute. reflexivity.
  - vm_compute. intros Hin.
    repeat (apply elem_of_cons in Hin as [Hin|Hin]; [discriminate|]).
    by apply elem_of_nil in Hin.
Defined.

End UploadPath.

(** ** Instances of the statements on replacement and on names *)

Section Instances.
Import Js Server.

(** X21. Any text made of Unicode scalar values that the transport
    delivers as the latin1 reading of its UTF-8 bytes is recovered exactly
    by the conversion at upload. *)
Theorem decodeFileName_roundtrip (cps : list Z) :
  Forall (λ cp, Buffer.scalar cp = true) cps →
  decodeFileName
    (Buffer.toString_latin1 (Buffer.from_utf8 (flat_map Buffer.utf16_units cps)))
  = flat_map Buffer.utf16_units cps.
Proof. apply decodeFileName_recovers. Qed.

Lemma decodeFileName_roundtrip_witness :
  decodeFileName
    (Buffer.toString_latin1
       (Buffer.from_utf8 (flat_map Buffer.utf16_units [233; 128512; 46; 109; 100])))
  = [233; 55357; 56832; 46; 109; 100].
Proof.
  apply (decodeFileName_roundtrip [233; 128512; 46; 109; 100]).
  repeat constructor.
Defined.

(** X22. Whatever the name received, the conversion at upload gives a
    text without lone surrogates, and gives the empty text for the empty
    name only. *)
Theorem decodeFileName_text (name : jsstring) :
  Inv.well_formed (decodeFileName name)
  ∧ (decodeFileName name = [] ↔ name = []).
Proof.
  split; [apply decodeFileName_well_formed|].
  split; [apply decodeFileName_nil|by intros ->].
Qed.

Lemma upload_replaces_match_witness :
  ∃ new st',
    snd (upload Sample.env2 no_faults
           (Some (Part.Make (lit "Report.md") Sample.hello2)) None
           Sample.with_Report) = st'
    ∧ FileRecord.id new = fileId Sample.env2
    ∧ FileRecord.filePath new ∈ map FileRecord.filePath (Db.files (db st'))
    ∧ disk st' !! Sample.Report_path = None.
Proof.
  edestruct (upload_replaces_match Sample.env2 no_faults
               (Part.Make (lit "Report.md") Sample.hello2) None Sample.with_Report)
    as (new & st' & Hup & Hone & Hid & _ & _ & _ & Hp & _ & Hold & _).
  - vm_compute. reflexivity.
  - reflexivity.
  - reflexivity.
  - vm_compute. apply NoDup_singleton.
  - vm_compute. reflexivity.
  - intros r Hr _. vm_compute in Hr. by apply list_elem_of_singleton in Hr.
  - vm_compute. discriminate.
  - exists new, st'. rewrite Hup. split; [reflexivity|]. split; [exact Hid|].
    split; [|exact Hold].
    assert (Hin : new ∈ [new]) by by apply list_elem_of_singleton.
    rewrite <- Hone in Hin. apply list_elem_of_filter in Hin as [_ Hin].
    clear -Hin. induction Hin; simpl;
      [by apply elem_of_cons; left|by apply elem_of_cons; right].
Defined.

Lemma upload_keeps_unique_names_witness :
  Pred.unique_names (db (snd Sample.then_report)).
Proof.
  apply (upload_keeps_unique_names Sample.env2
           (Some (Part.Make (lit "report.md") Sample.hello2)) None
           Sample.with_Report).
  intros n. vm_compute Db.files. vm_compute Db.originalNameCollation.
  rewrite filter_cons. case_decide; simpl; lia.
Defined.

Lemma deleteFolder_frame_witness :
  disk (snd (deleteFolder false false false (lit "folder_1") Sample.first_pinned))
    !! Sample.a_path
  = disk Sample.first_pinned !! Sample.a_path.
Proof.
  apply (deleteFolder_frame false false false (lit "folder_1") Sample.first_pinned).
  vm_compute. intros Hin. apply list_elem_of_singleton in Hin. discriminate.
Defined.

End Instances.
